(** * ArDrive CLI: folder hierarchy, write orchestration, chunked upload
      and community tip oracle

    A shallow embedding of the TypeScript sources (arfsdao.ts, ardrive.ts,
    ardrive_community_oracle.ts) together with the properties checked
    against them.

    Conventions of the embedding:
    - a JS object used as a dictionary is an insertion-ordered association
      list ([dict]): [Object.keys] is [keys], [obj[k]] is [get], [obj[k] = v]
      is [set].  The list holds the own properties of the object, and it
      answers as the object does for [ordinary] keys: those that are not
      the name of a member of [Object.prototype] (which a plain object
      answers without owning it, and of which [__proto__] is not created
      by an assignment) and not digit strings (which [Object.keys] lists
      ahead of the others).  Properties that look a key up which may be
      missing, or that depend on the order of the keys, are stated for
      ordinary keys;
    - a JS number is a binary64 value ([Double.number]) wherever a
      property depends on what the arithmetic rounds to; the token balances
      of the community contract, and the tip where stated so, are taken in
      exact arithmetic;
    - a thrown exception is the [Throw] case of [result];
    - an object with mutable fields lives in an explicit store; fields that
      are [readonly] are carried by value;
    - a recursion or loop that the source does not bound runs on fuel or on
      a finite script of environment answers: [None] means the answer is
      not reached within that fuel. *)

From Stdlib Require Import List String Ascii Bool Arith ZArith QArith Qminmax.
From Stdlib Require Import Lia Lqa SpecFloat.
Import ListNotations.
Close Scope Q_scope.
Local Open Scope string_scope.
Local Open Scope list_scope.

(* ===================================================================== *)
(** ** JavaScript values shared by all components                        *)
(* ===================================================================== *)

Module Js.

(** What a [throw] carries: the built-in TypeError raised by a property read
    on [undefined], or [new Error(msg)]. *)
Inductive exn : Type :=
| TypeError
| Error (msg : string).

Inductive result (A : Type) : Type :=
| Ok (a : A)
| Throw (e : exn).
Arguments Ok {A} a.
Arguments Throw {A} e.

Definition bind {A B : Type} (r : result A) (k : A -> result B) : result B :=
  match r with
  | Ok a => k a
  | Throw e => Throw e
  end.

(** [{ [k: string]: V }] *)
Definition dict (V : Type) : Type := list (string * V).

(** [obj[k]]; [None] is [undefined] *)
Fixpoint get {V : Type} (d : dict V) (k : string) : option V :=
  match d with
  | [] => None
  | (k', v) :: d' => if String.eqb k k' then Some v else get d' k
  end.

(** [obj[k] = v]: an existing key keeps its place, a new key goes last *)
Fixpoint set {V : Type} (d : dict V) (k : string) (v : V) : dict V :=
  match d with
  | [] => [(k, v)]
  | (k', v') :: d' =>
      if String.eqb k k' then (k', v) :: d' else (k', v') :: set d' k v
  end.

(** [Object.keys(obj)] *)
Definition keys {V : Type} (d : dict V) : list string := map fst d.

(** [array.includes(k)] on an array of strings *)
Definition includes (l : list string) (k : string) : bool :=
  existsb (String.eqb k) l.

(** A JS string is truthy when it is not empty. *)
Definition truthy (s : string) : bool :=
  match s with
  | EmptyString => false
  | String _ _ => true
  end.

(** An association list is a JS object when no key occurs twice. *)
Fixpoint uniqueKeys (l : list string) : bool :=
  match l with
  | [] => true
  | k :: l' => negb (includes l' k) && uniqueKeys l'
  end.

(** The names every plain object answers to without owning them: the
    members of [Object.prototype].  For these [obj[k]] and [k in obj] see
    the inherited member, and [obj['__proto__'] = v] creates no property. *)
Definition objectPrototypeNames : list string :=
  ["constructor"; "hasOwnProperty"; "isPrototypeOf"; "propertyIsEnumerable";
   "toLocaleString"; "toString"; "valueOf"; "__proto__";
   "__defineGetter__"; "__defineSetter__"; "__lookupGetter__";
   "__lookupSetter__"].

Definition isDigit (c : ascii) : bool :=
  let n := nat_of_ascii c in (48 <=? n)%nat && (n <=? 57)%nat.

Fixpoint allDigits (s : string) : bool :=
  match s with
  | EmptyString => true
  | String c rest => isDigit c && allDigits rest
  end.

(** A key for which the association list answers as the object does: no
    member name of [Object.prototype], and no digit string (the array
    indices, which [Object.keys] lists first in numeric order, are among
    the digit strings). *)
Definition ordinary (k : string) : bool :=
  negb (includes objectPrototypeNames k) && negb (truthy k && allDigits k).

End Js.
Import Js.

Notation "x <- r ;; k" := (Js.bind r (fun x => k))
  (at level 61, r at next level, right associativity).

(* ===================================================================== *)
(** ** JavaScript numbers: IEEE 754 binary64                             *)
(* ===================================================================== *)

Module Double.

(** A JS number.  The operations round to nearest, ties to even. *)
Definition number : Type := spec_float.

Definition prec : Z := 53.
Definition emax : Z := 1024.

(** The number a decimal integer literal or string denotes: unary [+] on
    a string of digits, or a literal such as [100]. *)
Definition ofZ (z : Z) : number := binary_normalize prec emax z 0 false.

Definition NaN : number := S754_nan.
Definition Infinity : number := S754_infinity false.

(** [a * b], [a / b], [a + b] *)
Definition mul : number -> number -> number := SFmul prec emax.
Definition div : number -> number -> number := SFdiv prec emax.
Definition add : number -> number -> number := SFadd prec emax.

(** [a <= b], [a < b], [a === b]; all false when an operand is NaN. *)
Definition leb : number -> number -> bool := SFleb.
Definition ltb : number -> number -> bool := SFltb.
Definition eqb : number -> number -> bool := SFeqb.

Definition isNaN (a : number) : bool :=
  match a with
  | S754_nan => true
  | _ => false
  end.

(** [Number.isFinite(a)] *)
Definition isFinite (a : number) : bool :=
  match a with
  | S754_zero _ => true
  | S754_finite _ _ _ => true
  | _ => false
  end.

(** [Math.max(a, b)]: NaN when an operand is NaN, and [+0] ahead of
    [-0]. *)
Definition max (a b : number) : number :=
  match a, b with
  | S754_nan, _ => S754_nan
  | _, S754_nan => S754_nan
  | S754_zero sa, S754_zero sb => S754_zero (sa && sb)
  | _, _ => if leb b a then a else b
  end.

(** [Math.ceil(x)]: the least integer not below [x], with [-0] for the
    numbers between [-1] and [-0]. *)
Definition ceil (x : number) : number :=
  match x with
  | S754_finite s m e =>
      if (0 <=? e)%Z then x
      else
        let q := Z.shiftr (Z.pos m) (- e) in
        let whole := Z.eqb (Z.shiftl q (- e)) (Z.pos m) in
        if s then binary_normalize prec emax (- q) 0 true
        else binary_normalize prec emax (if whole then q else q + 1) 0 false
  | _ => x
  end.

End Double.

(* ===================================================================== *)
(** ** Folder hierarchy (arfsdao.ts, classes FolderTreeNode and
       FolderHierarchy)                                                  *)
(* ===================================================================== *)

Module Hierarchy.

(** [ArFSFileOrFolderEntity].  The fields appName, appVersion, arFS,
    contentType, entityType and unixTime are copied by the constructors
    and never read by the hierarchy; they are left out. *)
Record ArFSFileOrFolderEntity : Type := mkEntity {
  driveId : string;
  name : string;
  txId : string;
  parentFolderId : string;
  entityId : string
}.

(** [FolderTreeNode].  [folderId] and [parent] are readonly and fixed by the
    constructor, so a node carries its whole parent chain by value.  [ref]
    is the identity of the object: the mutable [children] array of the node
    is the entry [ref] of the store. *)
Inductive FolderTreeNode : Type :=
| Parentless (ref : nat) (folderId : string)
| ChildOf (ref : nat) (folderId : string) (parentNode : FolderTreeNode).

(** [new FolderTreeNode(folderId, parent)] at address [r]; [None] is an
    omitted (undefined) parent. *)
Definition mkNode (r : nat) (f : string) (p : option FolderTreeNode)
  : FolderTreeNode :=
  match p with
  | None => Parentless r f
  | Some pn => ChildOf r f pn
  end.

Definition ref (n : FolderTreeNode) : nat :=
  match n with
  | Parentless r _ => r
  | ChildOf r _ _ => r
  end.

Definition folderId (n : FolderTreeNode) : string :=
  match n with
  | Parentless _ f => f
  | ChildOf _ f _ => f
  end.

Definition parent (n : FolderTreeNode) : option FolderTreeNode :=
  match n with
  | Parentless _ _ => None
  | ChildOf _ _ p => Some p
  end.

(** The [children] arrays of all nodes allocated so far, by [ref]. *)
Definition store : Type := list (list FolderTreeNode).

(** [node.children] *)
Definition children (st : store) (n : FolderTreeNode) : list FolderTreeNode :=
  nth (ref n) st [].

(** [parent.children.push(node)] *)
Fixpoint push (st : store) (r : nat) (n : FolderTreeNode) : store :=
  match st, r with
  | [], _ => []
  | cs :: st', O => (cs ++ [n]) :: st'
  | cs :: st', S r' => cs :: push st' r' n
  end.

(** [new FolderTreeNode(folderId, parent)]: a fresh object with
    [children = []] *)
Definition newNode (st : store) (fid : string) (p : option FolderTreeNode)
  : FolderTreeNode * store :=
  (mkNode (List.length st) fid p, st ++ [[]]).

(** The two maps threaded through [setupNodesWithEntity], with the store. *)
Record build : Type := mkBuild {
  nodeMap : dict FolderTreeNode;
  nodes : store
}.

(** [folderIdToEntityMap[id]]: an own key bound to [undefined] reads as
    [undefined] too. *)
Definition entityOf (m : dict (option ArFSFileOrFolderEntity)) (id : string)
  : option ArFSFileOrFolderEntity :=
  match get m id with
  | Some (Some e) => Some e
  | _ => None
  end.

(** [FolderHierarchy.setupNodesWithEntity].  The recursive call on the
    parent entity is the only recursion; [fuel] bounds its depth. *)
Fixpoint setupNodesWithEntity (fuel : nat) (entity : ArFSFileOrFolderEntity)
    (folderIdToEntityMap : dict (option ArFSFileOrFolderEntity))
    (b : build) : option build :=
  match fuel with
  | O => None
  | S fuel' =>
      let folderIdKeyIsPresent :=
        includes (keys (nodeMap b)) (entityId entity) in
      let parentFolderIdKeyIsPresent :=
        includes (keys (nodeMap b)) (parentFolderId entity) in
      if negb folderIdKeyIsPresent then
        let linked :=
          if negb parentFolderIdKeyIsPresent then
            match entityOf folderIdToEntityMap (parentFolderId entity) with
            | Some parentFolderEntity =>
                setupNodesWithEntity fuel' parentFolderEntity
                  folderIdToEntityMap b
            | None => Some b
            end
          else Some b in
        match linked with
        | None => None
        | Some b1 =>
            match get (nodeMap b1) (parentFolderId entity) with
            | Some parentNode =>
                let (node, st) :=
                  newNode (nodes b1) (entityId entity) (Some parentNode) in
                Some (mkBuild (set (nodeMap b1) (entityId entity) node)
                              (push st (ref parentNode) node))
            | None =>
                (* this one is supposed to be the new root *)
                let (rootNode, st) :=
                  newNode (nodes b1) (entityId entity) None in
                Some (mkBuild (set (nodeMap b1) (entityId entity) rootNode) st)
            end
        end
      else Some b
  end.

(** [FolderHierarchy]: the two maps of the constructor, and the store the
    nodes of [folderIdToNodeMap] live in. *)
Record FolderHierarchy : Type := mkHierarchy {
  folderIdToEntityMap : dict (option ArFSFileOrFolderEntity);
  folderIdToNodeMap : dict FolderTreeNode;
  heap : store
}.

(** [entities.reduce((acc, e) => Object.assign(acc, {[e.entityId]: e}), {})] *)
Definition entityMapOf (entities : list ArFSFileOrFolderEntity)
  : dict (option ArFSFileOrFolderEntity) :=
  fold_left (fun acc e => set acc (entityId e) (Some e)) entities [].

(** [for (const entity of entities) setupNodesWithEntity(entity, ...)] *)
Fixpoint setupAll (fuel : nat) (entities : list ArFSFileOrFolderEntity)
    (m : dict (option ArFSFileOrFolderEntity)) (b : build) : option build :=
  match entities with
  | [] => Some b
  | entity :: rest =>
      match setupNodesWithEntity fuel entity m b with
      | None => None
      | Some b' => setupAll fuel rest m b'
      end
  end.

(** [FolderHierarchy.newFromEntities] *)
Definition newFromEntities (fuel : nat) (entities : list ArFSFileOrFolderEntity)
  : option FolderHierarchy :=
  let m := entityMapOf entities in
  match setupAll fuel entities m (mkBuild [] []) with
  | None => None
  | Some b => Some (mkHierarchy m (nodeMap b) (nodes b))
  end.

(** [FolderHierarchy.nodeAndChildrenOf] *)
Definition nodeAndChildrenOf (h : FolderHierarchy) (node : FolderTreeNode)
  : list FolderTreeNode :=
  let subTreeEntities := [node] in
  subTreeEntities ++ children (heap h) node.

(** [FolderHierarchy.subTreeOf].  An unknown [folderId] makes
    [nodeAndChildrenOf] read [children] of [undefined]. *)
Definition subTreeOf (h : FolderHierarchy) (fid : string)
  : result FolderHierarchy :=
  match get (folderIdToNodeMap h) fid with
  | None => Throw TypeError
  | Some newRootNode =>
      let subTreeNodes := nodeAndChildrenOf h newRootNode in
      let entitiesMapping :=
        fold_left
          (fun acc node =>
             set acc (folderId node)
                 (entityOf (folderIdToEntityMap h) (folderId node)))
          subTreeNodes [] in
      let nodesMapping :=
        fold_left (fun acc node => set acc (folderId node) node)
          subTreeNodes [] in
      Ok (mkHierarchy entitiesMapping nodesMapping (heap h))
  end.

(** [FolderHierarchy.allFolderIDs] *)
Definition allFolderIDs (h : FolderHierarchy) : list string :=
  keys (folderIdToEntityMap h).

(** The loop of the [rootNode] getter:
    [while (tmpNode.parent && folderIdToNodeMap[tmpNode.parent.folderId])
       tmpNode = tmpNode.parent]. *)
Fixpoint climb (m : dict FolderTreeNode) (tmpNode : FolderTreeNode)
  : FolderTreeNode :=
  match tmpNode with
  | Parentless _ _ => tmpNode
  | ChildOf _ _ p =>
      match get m (folderId p) with
      | Some _ => climb m p
      | None => tmpNode
      end
  end.

(** The [rootNode] getter.  The cache [_rootNode] is only ever assigned a
    value of [tmpNode] and the loop leaves it equal to the returned node,
    so the getter is a function of the two maps.  With no entity at all
    [tmpNode] is [undefined] and reading [tmpNode.parent] throws. *)
Definition rootNode (h : FolderHierarchy) : result FolderTreeNode :=
  match keys (folderIdToEntityMap h) with
  | [] => Throw TypeError
  | someFolderId :: _ =>
      match get (folderIdToNodeMap h) someFolderId with
      | None => Throw TypeError
      | Some tmpNode => Ok (climb (folderIdToNodeMap h) tmpNode)
      end
  end.

(** The loop shared by the three path methods:
    [while (folderNode.parent && folderNode.folderId !== rootNode.folderId)
       { folderNode = folderNode.parent; nodesInPathToFolder.push(folderNode) }],
    started from [[folderNode]]. *)
Fixpoint nodesInPathToFolder (rootId : string) (folderNode : FolderTreeNode)
  : list FolderTreeNode :=
  match folderNode with
  | Parentless _ _ => [folderNode]
  | ChildOf _ fid p =>
      if negb (String.eqb fid rootId)
      then folderNode :: nodesInPathToFolder rootId p
      else [folderNode]
  end.

(** [xs.map(f)] where [f] may throw *)
Fixpoint mapM {A B : Type} (f : A -> result B) (l : list A) : result (list B) :=
  match l with
  | [] => Ok []
  | x :: l' => y <- f x ;; ys <- mapM f l' ;; Ok (y :: ys)
  end.

(** [xs.join('/')] *)
Definition join (l : list string) : string := String.concat "/" l.

(** The guard, the sentinel and the walk common to the three path methods;
    the result is [olderFirstNodesInPathToFolder], or [None] for the
    sentinel. *)
Definition olderFirstNodes (h : FolderHierarchy) (fid : string)
  : result (option (list FolderTreeNode)) :=
  root <- rootNode h ;;
  match parent root with
  | Some _ => Throw (Error "Can't compute paths from sub-tree")
  | None =>
      if String.eqb fid "root folder" then Ok None
      else
        match get (folderIdToNodeMap h) fid with
        | None => Throw TypeError
        | Some folderNode =>
            Ok (Some (rev (nodesInPathToFolder (folderId root) folderNode)))
        end
  end.

(** [`/${stringPath}/`] *)
Definition slashed (parts : list string) : string :=
  "/" ++ join parts ++ "/".

(** [FolderHierarchy.pathToFolderId] *)
Definition pathToFolderId (h : FolderHierarchy) (fid : string) : result string :=
  r <- olderFirstNodes h fid ;;
  match r with
  | None => Ok "/"
  | Some olderFirstNodesInPathToFolder =>
      olderFirstNamesOfNodesInPath <-
        mapM (fun n =>
                match entityOf (folderIdToEntityMap h) (folderId n) with
                | Some e => Ok (name e)
                | None => Throw TypeError
                end) olderFirstNodesInPathToFolder ;;
      Ok (slashed olderFirstNamesOfNodesInPath)
  end.

(** [FolderHierarchy.entityPathToFolderId] *)
Definition entityPathToFolderId (h : FolderHierarchy) (fid : string)
  : result string :=
  r <- olderFirstNodes h fid ;;
  match r with
  | None => Ok "/"
  | Some olderFirstNodesInPathToFolder =>
      let olderFirstFolderIDsOfNodesInPath :=
        map folderId olderFirstNodesInPathToFolder in
      Ok (slashed olderFirstFolderIDsOfNodesInPath)
  end.

(** [FolderHierarchy.txPathToFolderId] *)
Definition txPathToFolderId (h : FolderHierarchy) (fid : string)
  : result string :=
  r <- olderFirstNodes h fid ;;
  match r with
  | None => Ok "/"
  | Some olderFirstNodesInPathToFolder =>
      olderFirstTxTDsOfNodesInPath <-
        mapM (fun n =>
                match entityOf (folderIdToEntityMap h) (folderId n) with
                | Some e => Ok (txId e)
                | None => Throw TypeError
                end) olderFirstNodesInPathToFolder ;;
      Ok (slashed olderFirstTxTDsOfNodesInPath)
  end.

(** [ArFSWithPath]: the three path strings of a decorated entity. *)
Record ArFSWithPath : Type := mkWithPath {
  path : string;
  txIdPath : string;
  entityIdPath : string
}.

(** The constructor of the class [ArFSPublicFileOrFolderWithPaths], as far
    as the three paths go (the private variant computes them by the same
    three lines). *)
Definition ArFSPublicFileOrFolderWithPaths
    (entity : ArFSFileOrFolderEntity) (h : FolderHierarchy)
  : result ArFSWithPath :=
  p <- pathToFolderId h (parentFolderId entity) ;;
  t <- txPathToFolderId h (parentFolderId entity) ;;
  i <- entityPathToFolderId h (parentFolderId entity) ;;
  Ok (mkWithPath (p ++ name entity) (t ++ txId entity) (i ++ entityId entity)).

(** The ['/']-separated segments of a path string. *)
Fixpoint segments (s : string) : list string :=
  match s with
  | EmptyString => [EmptyString]
  | String c rest =>
      if Ascii.eqb c "/" then EmptyString :: segments rest
      else
        match segments rest with
        | [] => [String c EmptyString]
        | seg :: segs => String c seg :: segs
        end
  end.

(** No ['/'] occurs in the string. *)
Fixpoint slashFree (s : string) : bool :=
  match s with
  | EmptyString => true
  | String c rest => negb (Ascii.eqb c "/") && slashFree rest
  end.

(** The parent relation of the tree held by a hierarchy: the node bound to
    [c] was constructed with the node bound to [p] as its parent. *)
Definition isChildOf (h : FolderHierarchy) (c p : string) : Prop :=
  exists cn pn,
    get (folderIdToNodeMap h) c = Some cn /\
    get (folderIdToNodeMap h) p = Some pn /\
    parent cn = Some pn.

(** Descendants at every depth. *)
Inductive isDescendantOf (h : FolderHierarchy) : string -> string -> Prop :=
| desc_child c p : isChildOf h c p -> isDescendantOf h c p
| desc_step c m p :
    isChildOf h c m -> isDescendantOf h m p -> isDescendantOf h c p.

(** The ancestor chain of a folder through the entity map ends (at an ID
    with no entity) within [n] parent steps. *)
Fixpoint chainEnds (n : nat) (m : dict (option ArFSFileOrFolderEntity))
    (id : string) : bool :=
  match entityOf m id with
  | None => true
  | Some p =>
      match n with
      | O => false
      | S n' => chainEnds n' m (parentFolderId p)
      end
  end.

(** Every entity ID and every parent folder ID of the list is an ordinary
    key: the two maps of the hierarchy then answer as the association
    lists do. *)
Definition ordinaryIds (entities : list ArFSFileOrFolderEntity) : bool :=
  forallb (fun e => ordinary (entityId e) && ordinary (parentFolderId e))
          entities.

End Hierarchy.

(* ===================================================================== *)
(** ** Write orchestrator (arfsdao.ts, classes ArFSDAOAnonymous and
       ArFSDAO)                                                          *)
(* ===================================================================== *)

Module ArFSDAO.

(** [GQLTagInterface], [GQLNodeInterface], [GQLEdgeInterface] *)
Record GQLTagInterface : Type := mkTag {
  tagName : string;
  tagValue : string
}.

Record GQLNodeInterface : Type := mkGQLNode {
  nodeId : string;
  tags : list GQLTagInterface
}.

Record GQLEdgeInterface : Type := mkEdge {
  cursor : string;
  node : GQLNodeInterface
}.

(** A drive entity, as far as the orchestrator reads it. *)
Record ArFSDrive : Type := mkDrive {
  driveEntityId : string;
  driveName : string;
  rootFolderId : string
}.

(** [RewardSettings] *)
Record RewardSettings : Type := mkReward {
  reward : option string;
  feeMultiple : option Double.number
}.

(** The constructor arguments of [ArFSPublicFolderMetaDataPrototype] and
    [ArFSPrivateFolderMetaDataPrototype]; [None] is an omitted parent. *)
Record FolderMetaDataPrototype : Type := mkFolderMeta {
  metaFolderData : string;
  metaUnixTime : Z;
  metaDriveId : string;
  metaFolderId : string;
  metaParentFolderId : option string
}.

(** A signed transaction, as far as the orchestrator reads it. *)
Record Transaction : Type := mkTrx {
  trxId : string;
  trxReward : string
}.

(** The collaborators of the DAO: the GraphQL gateway (a query is its list
    of tag predicates), the entity builders, the ID and clock sources, the
    signing step [prepareArFSObjectTransaction] and the upload loop
    [getUploader(trx)] / [while (!isComplete) uploadChunk()]. *)
Record Client : Type := mkClient {
  post : list (string * string) -> result (list GQLEdgeInterface);
  buildPublicDrive : string -> result ArFSDrive;
  buildPrivateDrive : string -> string -> result ArFSDrive;
  uuidv4 : string;
  unixTimeNow : Z;
  prepareArFSObjectTransaction :
    FolderMetaDataPrototype -> RewardSettings -> result Transaction;
  uploadToCompletion : Transaction -> result unit;
  dryRun : bool
}.

(** What a call did to the outside world: it had the transaction [t]
    created and signed for the prototype [m], or it uploaded [t]. *)
Inductive Effect : Type :=
| Prepared (m : FolderMetaDataPrototype) (t : Transaction)
| Uploaded (t : Transaction).

(** [tags.find((t) => t.name === name)?.value], by recursion on the tags:
    the value of the first tag of that name. *)
Fixpoint tagValueOf (name : string) (ts : list GQLTagInterface)
  : option string :=
  match ts with
  | [] => None
  | t :: ts' =>
      if String.eqb (tagName t) name then Some (tagValue t)
      else tagValueOf name ts'
  end.

(** [ArFSDAOAnonymous.getDriveIdForFolderId], from the edges returned for
    the query on [Folder-Id]. *)
Definition driveIdOfEdges (folderId : string) (edges : list GQLEdgeInterface)
  : result string :=
  match edges with
  | [] => Throw (Error ("Folder with Folder ID " ++ folderId ++ " not found!"))
  | edge0 :: _ =>
      match find (fun t => String.eqb (tagName t) "Drive-Id")
                 (tags (node edge0)) with
      | Some driveIdTag => Ok (tagValue driveIdTag)
      | None =>
          Throw (Error
            ("No Drive-Id tag found for meta data transaction of Folder-Id: "
               ++ folderId))
      end
  end.

Definition getDriveIdForFolderId (c : Client) (folderId : string)
  : result string :=
  edges <- post c [("Folder-Id", folderId)] ;;
  driveIdOfEdges folderId edges.

(** [ArFSDAOAnonymous.getPublicDrive] *)
Definition getPublicDrive (c : Client) (driveId : string) : result ArFSDrive :=
  edges <- post c [("Drive-Id", driveId); ("Entity-Type", "drive");
                   ("Drive-Privacy", "public")] ;;
  match edges with
  | [] =>
      Throw (Error ("Public drive with Drive ID " ++ driveId ++ " not found!"))
  | _ :: _ => buildPublicDrive c driveId
  end.

(** [ArFSDAO.getPrivateDrive] *)
Definition getPrivateDrive (c : Client) (driveId driveKey : string)
  : result ArFSDrive :=
  edges <- post c [("Drive-Id", driveId); ("Entity-Type", "drive");
                   ("Drive-Privacy", "private")] ;;
  match edges with
  | [] =>
      Throw (Error ("Private drive with Drive ID " ++ driveId
                      ++ " not found or is not private!"))
  | _ :: _ => buildPrivateDrive c driveId driveKey
  end.

(** [CreatePublicFolderSettings] and [CreatePrivateFolderSettings];
    [syncParentFolderId] is optional and defaults to [true], [driveKey] is
    read by the private variant only. *)
Record CreateFolderSettings : Type := mkSettings {
  folderData : string;
  driveId : string;
  rewardSettings : RewardSettings;
  parentFolderId : option string;
  syncParentFolderId : option bool;
  driveKey : string
}.

(** [ArFSCreateFolderResult] *)
Record ArFSCreateFolderResult : Type := mkFolderResult {
  folderTrxId : string;
  folderTrxReward : string;
  folderId : string
}.

(** Truthiness of an optional string: [undefined] and [''] are falsy. *)
Definition given (p : option string) : bool :=
  match p with
  | Some s => truthy s
  | None => false
  end.

Definition mismatch (driveId actualDriveId : string) : exn :=
  Error ("Drive id: " ++ driveId ++ " does not match actual drive id: "
           ++ actualDriveId ++ " for parent folder id").

(** The guard opening [createPublicFolder] and [createPrivateFolder]: the
    value of [parentFolderId] after it, or the exception it throws.
    [getDrive] is [getPublicDrive] or [getPrivateDrive]. *)
Definition syncParent (c : Client) (getDrive : string -> result ArFSDrive)
    (s : CreateFolderSettings) : result (option string) :=
  let sync := match syncParentFolderId s with Some b => b | None => true end in
  if given (parentFolderId s) && sync then
    (* Assert that drive ID is consistent with parent folder ID *)
    actualDriveId <-
      getDriveIdForFolderId c
        (match parentFolderId s with Some p => p | None => "" end) ;;
    if negb (String.eqb actualDriveId (driveId s))
    then Throw (mismatch (driveId s) actualDriveId)
    else Ok (parentFolderId s)
  else if sync then
    (* If drive contains a root folder ID, treat this as a subfolder to the
       root folder.  The drive a builder resolves to is an object, so the
       [if (!drive)] that follows the lookup never throws. *)
    drive <- getDrive (driveId s) ;;
    if truthy (rootFolderId drive)
    then Ok (Some (rootFolderId drive))
    else Ok (parentFolderId s)
  else Ok (parentFolderId s).

(** The rest of both methods: fresh folder ID, timestamp, prototype,
    transaction, upload unless [dryRun]. *)
Definition writeFolder (c : Client) (s : CreateFolderSettings)
    (rs : RewardSettings) (parentFolderId' : option string)
  : result ArFSCreateFolderResult * list Effect :=
  let folderId := uuidv4 c in
  let unixTime := unixTimeNow c in
  let folderMetadata :=
    mkFolderMeta (folderData s) unixTime (driveId s) folderId
                 parentFolderId' in
  match prepareArFSObjectTransaction c folderMetadata rs with
  | Throw e => (Throw e, [])
  | Ok folderTrx =>
      let done :=
        Ok (mkFolderResult (trxId folderTrx) (trxReward folderTrx) folderId) in
      if negb (dryRun c) then
        match uploadToCompletion c folderTrx with
        | Throw e => (Throw e, [Prepared folderMetadata folderTrx])
        | Ok _ =>
            (done, [Prepared folderMetadata folderTrx; Uploaded folderTrx])
        end
      else (done, [Prepared folderMetadata folderTrx])
  end.

(** [ArFSDAO.createPublicFolder] *)
Definition createPublicFolder (c : Client) (s : CreateFolderSettings)
  : result ArFSCreateFolderResult * list Effect :=
  match syncParent c (getPublicDrive c) s with
  | Throw e => (Throw e, [])
  | Ok parentFolderId' => writeFolder c s (rewardSettings s) parentFolderId'
  end.

(** [ArFSDAO.createPrivateFolder]; it prepares the transaction with the
    default (empty) reward settings. *)
Definition createPrivateFolder (c : Client) (s : CreateFolderSettings)
  : result ArFSCreateFolderResult * list Effect :=
  match syncParent c (fun d => getPrivateDrive c d (driveKey s)) s with
  | Throw e => (Throw e, [])
  | Ok parentFolderId' => writeFolder c s (mkReward None None) parentFolderId'
  end.

(** The parent written into the folder transaction of a call, if one was
    prepared. *)
Definition writtenParent (effects : list Effect) : option (option string) :=
  match effects with
  | Prepared m _ :: _ => Some (metaParentFolderId m)
  | _ => None
  end.

(** [TransactionUploader], as far as the progress loop reads it. *)
Record Uploader : Type := mkUploader {
  isComplete : bool;
  pctComplete : nat;
  uploadedChunks : nat;
  totalChunks : nat
}.

(** One line of [console.log]:
    [`${pctComplete}% complete, ${uploadedChunks}/${totalChunks}`]. *)
Record ProgressLine : Type := mkLine {
  linePct : nat;
  lineUploaded : nat;
  lineTotal : nat
}.

Definition progressOf (u : Uploader) : ProgressLine :=
  mkLine (pctComplete u) (uploadedChunks u) (totalChunks u).

(** How [sendChunkedUploadWithProgress] ends: it has no [throw] of its own,
    and [uploadDataChunk] turns a failed chunk into [null]. *)
Record UploadRun : Type := mkRun {
  outcome : result unit;
  console : list ProgressLine;
  chunkSteps : nat;
  final : Uploader
}.

(** [ArFSDAO.sendChunkedUploadWithProgress].  [script] lists the answers of
    the successive [uploadDataChunk(dataUploader)] calls: [Some u] is the
    uploader after a chunk went through, [None] is [null].  The result is
    [None] when the script ends with the upload still incomplete. *)
Fixpoint sendChunkedUploadWithProgress (script : list (option Uploader))
    (dataUploader : Uploader) : option UploadRun :=
  if isComplete dataUploader then Some (mkRun (Ok tt) [] 0 dataUploader)
  else
    match script with
    | [] => None
    | None :: _ => (* break *) Some (mkRun (Ok tt) [] 1 dataUploader)
    | Some u :: script' =>
        match sendChunkedUploadWithProgress script' u with
        | None => None
        | Some r =>
            Some (mkRun (outcome r) (progressOf u :: console r)
                        (S (chunkSteps r)) (final r))
        end
    end.

(** The loop that uploads a folder, metadata, drive or bundle transaction:
    [while (!uploader.isComplete) { await uploader.uploadChunk(); }].
    [script] lists the outcomes of the successive [uploadChunk()] calls:
    [Ok u] is the uploader after the chunk, [Throw e] a rejected call.  The
    result is how the loop ends and the number of calls it made; it is
    [None] when the script ends with the upload still incomplete. *)
Fixpoint uploadChunks (script : list (result Uploader)) (uploader : Uploader)
  : option (result Uploader * nat) :=
  if isComplete uploader then Some (Ok uploader, O)
  else
    match script with
    | [] => None
    | Throw e :: _ => Some (Throw e, 1)
    | Ok u :: script' =>
        match uploadChunks script' u with
        | None => None
        | Some (r, n) => Some (r, S n)
        end
    end.

(** [ArFSDAO.createPublicFolderDataItem].  [prepareArFSObjectDataItem] is
    the signing step of the DAO, on folder prototypes. *)
Definition createPublicFolderDataItem {DataItem : Type} (c : Client)
    (prepareArFSObjectDataItem : FolderMetaDataPrototype -> result DataItem)
    (folderName driveId : string) (parentFolderId : option string)
    (syncParentFolderId : option bool) : result (DataItem * string) :=
  let sync := match syncParentFolderId with Some b => b | None => true end in
  parentFolderId' <-
    (if given parentFolderId then
       (* Assert that drive ID is consistent with parent folder ID *)
       actualDriveId <-
         getDriveIdForFolderId c
           (match parentFolderId with Some p => p | None => "" end) ;;
       if negb (String.eqb actualDriveId driveId)
       then Throw (mismatch driveId actualDriveId)
       else Ok parentFolderId
     else if sync then
       drive <- getPublicDrive c driveId ;;
       if truthy (rootFolderId drive)
       then Ok (Some (rootFolderId drive))
       else Ok parentFolderId
     else Ok parentFolderId) ;;
  let folderId := uuidv4 c in
  let unixTime := unixTimeNow c in
  let folderMetadata :=
    mkFolderMeta folderName unixTime driveId folderId parentFolderId' in
  folderDataItem <- prepareArFSObjectDataItem folderMetadata ;;
  Ok (folderDataItem, folderId).

(** The payload of a drive metadata transaction:
    [ArFSPublicDriveTransactionData(name, rootFolderId)], or the encrypted
    [ArFSPrivateDriveTransactionData]. *)
Inductive DriveTransactionData : Type :=
| PublicDriveData (name rootFolderId : string)
| PrivateDriveData (cipherText : string).

(** The constructor arguments of [ArFSPublicDriveMetaDataPrototype] and
    [ArFSPrivateDriveMetaDataPrototype]. *)
Record DriveMetaDataPrototype : Type := mkDriveMeta {
  driveMetaData : DriveTransactionData;
  driveMetaUnixTime : Z;
  driveMetaDriveId : string
}.

(** What drive creation needs beyond [Client]: the ID [uuidv4()] yields for
    the drive (drawn before the root folder's), the signing step on drive
    prototypes, the two encryption steps
    [ArFSPrivateFolderTransactionData.from(name, key)] and
    [ArFSPrivateDriveTransactionData.from(name, rootFolderId, key)], and
    [getUploader(trx)] followed by one [uploadChunk()], answering the
    uploader after that chunk. *)
Record DriveWriter : Type := mkDriveWriter {
  freshDriveId : string;
  prepareDriveTransaction :
    DriveMetaDataPrototype -> RewardSettings -> result Transaction;
  encryptFolderData : string -> string -> result string;
  encryptDriveData : string -> string -> string -> result string;
  uploadOneChunk : Transaction -> result Uploader
}.

Inductive DriveEffect : Type :=
| OfRootFolder (e : Effect)
| DrivePrepared (m : DriveMetaDataPrototype) (t : Transaction)
| DriveUploaded (t : Transaction)
| DriveChunkSent (t : Transaction) (after : Uploader).

(** [ArFSCreateDriveResult]; [newDriveKey] is the [driveKey] of
    [ArFSCreatePrivateDriveResult]. *)
Record ArFSCreateDriveResult : Type := mkDriveResult {
  driveTrxId : string;
  driveTrxReward : string;
  rootFolderTrxId : string;
  rootFolderTrxReward : string;
  newDriveId : string;
  newRootFolderId : string;
  newDriveKey : option string
}.

(** [ArFSDAO.createPublicDrive] *)
Definition createPublicDrive (c : Client) (w : DriveWriter) (driveName : string)
    (driveRewardSettings rootFolderRewardSettings : RewardSettings)
  : result ArFSCreateDriveResult * list DriveEffect :=
  (* Generate a new drive ID for the new drive *)
  let driveId := freshDriveId w in
  let unixTime := unixTimeNow c in
  (* Create root folder *)
  match createPublicFolder c
          (mkSettings driveName driveId rootFolderRewardSettings None
             (Some false) "") with
  | (Throw e, effects) => (Throw e, map OfRootFolder effects)
  | (Ok root, effects) =>
      (* Create a drive metadata transaction *)
      let driveMetaData :=
        mkDriveMeta (PublicDriveData driveName (folderId root)) unixTime
          driveId in
      match prepareDriveTransaction w driveMetaData driveRewardSettings with
      | Throw e => (Throw e, map OfRootFolder effects)
      | Ok driveTrx =>
          let done :=
            Ok (mkDriveResult (trxId driveTrx) (trxReward driveTrx)
                  (folderTrxId root) (folderTrxReward root) driveId
                  (folderId root) None) in
          let prepared :=
            map OfRootFolder effects ++ [DrivePrepared driveMetaData driveTrx] in
          if negb (dryRun c) then
            match uploadToCompletion c driveTrx with
            | Throw e => (Throw e, prepared)
            | Ok _ => (done, prepared ++ [DriveUploaded driveTrx])
            end
          else (done, prepared)
      end
  end.

(** [ArFSDAO.createPrivateDrive].  The drive transaction is sent with one
    [uploadChunk()] call, outside any loop. *)
Definition createPrivateDrive (c : Client) (w : DriveWriter)
    (driveName driveKey driveId : string)
    (driveRewardSettings rootFolderRewardSettings : RewardSettings)
  : result ArFSCreateDriveResult * list DriveEffect :=
  (* Create root folder *)
  match encryptFolderData w driveName driveKey with
  | Throw e => (Throw e, [])
  | Ok folderData =>
      match createPrivateFolder c
              (mkSettings folderData driveId rootFolderRewardSettings None
                 (Some false) driveKey) with
      | (Throw e, effects) => (Throw e, map OfRootFolder effects)
      | (Ok root, effects) =>
          let unixTime := unixTimeNow c in
          match encryptDriveData w driveName (folderId root) driveKey with
          | Throw e => (Throw e, map OfRootFolder effects)
          | Ok privateDriveData =>
              let driveMetaData :=
                mkDriveMeta (PrivateDriveData privateDriveData) unixTime
                  driveId in
              match prepareDriveTransaction w driveMetaData
                      driveRewardSettings with
              | Throw e => (Throw e, map OfRootFolder effects)
              | Ok driveTrx =>
                  let done :=
                    Ok (mkDriveResult (trxId driveTrx) (trxReward driveTrx)
                          (folderTrxId root) (folderTrxReward root) driveId
                          (folderId root) (Some driveKey)) in
                  let prepared :=
                    map OfRootFolder effects
                      ++ [DrivePrepared driveMetaData driveTrx] in
                  if negb (dryRun c) then
                    match uploadOneChunk w driveTrx with
                    | Throw e => (Throw e, prepared)
                    | Ok after =>
                        (done, prepared ++ [DriveChunkSent driveTrx after])
                    end
                  else (done, prepared)
              end
          end
      end
  end.

(** One page of a GraphQL answer: [transactions.edges] and
    [transactions.pageInfo.hasNextPage]. *)
Record Page : Type := mkPage {
  pageEdges : list GQLEdgeInterface;
  hasNextPage : bool
}.

(** [cursor] after [edges.map((edge) => { cursor = edge.cursor; ... })]:
    every callback assigns it before its first [await], so it ends as the
    cursor of the last edge, and is unchanged by an empty page. *)
Definition cursorAfter (cursor0 : string) (edges : list GQLEdgeInterface)
  : string :=
  fold_left (fun _ edge => cursor edge) edges cursor0.

(** [await Promise.all(edges.map(async (edge) => builder.build(edge.node)))] *)
Fixpoint buildAll {E : Type} (build : GQLNodeInterface -> result E)
    (edges : list GQLEdgeInterface) : result (list E) :=
  match edges with
  | [] => Ok []
  | edge :: rest =>
      x <- build (node edge) ;; xs <- buildAll build rest ;; Ok (x :: xs)
  end.

(** The paging loop of [getAllFoldersOfPublicDrive],
    [getPublicFilesWithParentFolderIds] and their private variants:
    [while (hasNextPage) { ... }] started with [cursor = ''].  [postPage]
    answers the query of the method at a cursor, [build] is the entity
    builder; [fuel] bounds the number of queries. *)
Fixpoint pageLoop {E : Type} (fuel : nat) (postPage : string -> result Page)
    (build : GQLNodeInterface -> result E) (cursor0 : string) (all : list E)
  : option (result (list E)) :=
  match fuel with
  | O => None
  | S fuel' =>
      match postPage cursor0 with
      | Throw e => Some (Throw e)
      | Ok page =>
          match buildAll build (pageEdges page) with
          | Throw e => Some (Throw e)
          | Ok built =>
              if hasNextPage page
              then pageLoop fuel' postPage build
                     (cursorAfter cursor0 (pageEdges page)) (all ++ built)
              else Some (Ok (all ++ built))
          end
      end
  end.

(** [array.filter(callback)], the callback receiving the element, its
    index and the array. *)
Fixpoint filterFrom {E : Type} (f : E -> nat -> list E -> bool)
    (whole : list E) (i : nat) (l : list E) : list E :=
  match l with
  | [] => []
  | x :: l' =>
      if f x i whole then x :: filterFrom f whole (S i) l'
      else filterFrom f whole (S i) l'
  end.

(** [ArFSDAOAnonymous.getAllFoldersOfPublicDrive], and with the files query
    [getPublicFilesWithParentFolderIds]; [lastRevisionFilter] is imported
    from utils/filter_methods. *)
Definition getAllPaged {E : Type} (fuel : nat)
    (postPage : string -> result Page) (build : GQLNodeInterface -> result E)
    (lastRevisionFilter : E -> nat -> list E -> bool)
    (latestRevisionsOnly : bool) : option (result (list E)) :=
  match pageLoop fuel postPage build "" [] with
  | None => None
  | Some (Throw e) => Some (Throw e)
  | Some (Ok all) =>
      Some (Ok (if latestRevisionsOnly
                then filterFrom lastRevisionFilter all 0 all
                else all))
  end.

(** [ArFSFileToUpload], with what [gatherFileInfo()], [getBaseFileName()]
    and [getFileDataBuffer()] answer. *)
Record ArFSFileToUpload : Type := mkFile {
  filePath : string;
  baseFileName : string;
  fileSize : Z;
  dataContentType : string;
  lastModifiedDateMS : Z;
  fileDataBuffer : string
}.

(** The prototype of a file data transaction:
    [ArFSPublicFileDataPrototype(data, contentType)] or
    [ArFSPrivateFileDataPrototype(encrypted data)]. *)
Inductive FileDataPrototype : Type :=
| PublicFileData (data contentType : string)
| PrivateFileData (cipherText : string).

(** The prototype of a file metadata transaction: the arguments of the
    metadata transaction data, then those of the prototype; [metaCipher]
    is the encrypted payload of the private variant. *)
Record FileMetaDataPrototype : Type := mkFileMeta {
  metaFileName : string;
  metaFileSize : Z;
  metaLastModified : Z;
  metaDataTxId : string;
  metaContentType : string;
  metaCipher : option string;
  metaFileUnixTime : Z;
  metaFileDriveId : string;
  metaFileId : string;
  metaFileParent : string
}.

(** What a file upload needs beyond [Client]: the signing step on the two
    file prototypes, the encryption steps
    [ArFSPrivateFileDataTransactionData.from(data, fileId, driveKey)] and
    [ArFSPrivateFileMetadataTransactionData.from(..., fileId, driveKey)]
    (the latter answers the payload and the file key it derived),
    [getUploader(trx)], and the answers of the uploader to the chunk calls
    of the data loop and of the metadata loop. *)
Record FileWriter : Type := mkFileWriter {
  prepareFileData : FileDataPrototype -> RewardSettings -> result Transaction;
  prepareFileMeta :
    FileMetaDataPrototype -> RewardSettings -> result Transaction;
  encryptFileData : string -> string -> string -> result string;
  encryptFileMeta :
    string -> Z -> Z -> string -> string -> string -> string
    -> result (string * string);
  getUploader : Transaction -> result Uploader;
  dataChunks : list (option Uploader);
  metaChunks : list (result Uploader)
}.

Inductive FileEffect : Type :=
| FileDataPrepared (m : FileDataPrototype) (t : Transaction)
| FileDataSent (t : Transaction) (run : UploadRun)
| FileMetaPrepared (m : FileMetaDataPrototype) (t : Transaction)
| FileMetaSent (t : Transaction) (after : Uploader).

(** [ArFSUploadFileResult]; [fileKey] is the addition of
    [ArFSUploadPrivateFileResult]. *)
Record ArFSUploadFileResult : Type := mkUploadResult {
  dataTrxId : string;
  dataTrxReward : string;
  metaDataTrxId : string;
  metaDataTrxReward : string;
  uploadedFileId : string;
  fileKey : option string
}.

(** The part of both upload methods from the signed data transaction on:
    the chunked data upload unless [dryRun], the metadata prototype built
    by [metaFor] from the ID of the data transaction, its transaction, and
    the metadata upload loop unless [dryRun].  [None] when a loop is left
    without an answer. *)
Definition sendFile (c : Client) (w : FileWriter) (dataTrx : Transaction)
    (before : list FileEffect)
    (metaFor : string -> result (FileMetaDataPrototype * option string))
    (metadataRewardSettings : RewardSettings)
  : option (result ArFSUploadFileResult * list FileEffect) :=
  let afterData : option (result (list FileEffect)) :=
    if negb (dryRun c) then
      match getUploader w dataTrx with
      | Throw e => Some (Throw e)
      | Ok dataUploader =>
          match sendChunkedUploadWithProgress (dataChunks w) dataUploader with
          | None => None
          | Some run => Some (Ok (before ++ [FileDataSent dataTrx run]))
          end
      end
    else Some (Ok before) in
  match afterData with
  | None => None
  | Some (Throw e) => Some (Throw e, before)
  | Some (Ok sent) =>
      match metaFor (trxId dataTrx) with
      | Throw e => Some (Throw e, sent)
      | Ok (fileMetadata, key) =>
          match prepareFileMeta w fileMetadata metadataRewardSettings with
          | Throw e => Some (Throw e, sent)
          | Ok metaDataTrx =>
              let prepared :=
                sent ++ [FileMetaPrepared fileMetadata metaDataTrx] in
              let done :=
                Ok (mkUploadResult (trxId dataTrx) (trxReward dataTrx)
                      (trxId metaDataTrx) (trxReward metaDataTrx)
                      (metaFileId fileMetadata) key) in
              if negb (dryRun c) then
                match getUploader w metaDataTrx with
                | Throw e => Some (Throw e, prepared)
                | Ok metaDataUploader =>
                    match uploadChunks (metaChunks w) metaDataUploader with
                    | None => None
                    | Some (Throw e, _) => Some (Throw e, prepared)
                    | Some (Ok after, _) =>
                        Some (done,
                              prepared ++ [FileMetaSent metaDataTrx after])
                    end
                end
              else Some (done, prepared)
          end
      end
  end.

(** [destFileName ?? wrappedFile.getBaseFileName()] *)
Definition destinationNameOf (destFileName : option string)
    (wrappedFile : ArFSFileToUpload) : string :=
  match destFileName with
  | Some n => n
  | None => baseFileName wrappedFile
  end.

(** [ArFSDAO.uploadPublicFile]; the file ID is the [uuidv4()] of the
    client. *)
Definition uploadPublicFile (c : Client) (w : FileWriter)
    (parentFolderId : string) (wrappedFile : ArFSFileToUpload)
    (driveId : string)
    (fileDataRewardSettings metadataRewardSettings : RewardSettings)
    (destFileName : option string)
  : option (result ArFSUploadFileResult * list FileEffect) :=
  let destinationFileName := destinationNameOf destFileName wrappedFile in
  let fileId := uuidv4 c in
  let unixTime := unixTimeNow c in
  let fileDataPrototype :=
    PublicFileData (fileDataBuffer wrappedFile)
      (dataContentType wrappedFile) in
  match prepareFileData w fileDataPrototype fileDataRewardSettings with
  | Throw e => Some (Throw e, [])
  | Ok dataTrx =>
      sendFile c w dataTrx [FileDataPrepared fileDataPrototype dataTrx]
        (fun dataTxId =>
           Ok (mkFileMeta destinationFileName (fileSize wrappedFile)
                 (lastModifiedDateMS wrappedFile) dataTxId
                 (dataContentType wrappedFile) None unixTime driveId fileId
                 parentFolderId, None))
        metadataRewardSettings
  end.

(** [ArFSDAO.uploadPrivateFile] *)
Definition uploadPrivateFile (c : Client) (w : FileWriter)
    (parentFolderId : string) (wrappedFile : ArFSFileToUpload)
    (driveId driveKey : string)
    (fileDataRewardSettings metadataRewardSettings : RewardSettings)
    (destFileName : option string)
  : option (result ArFSUploadFileResult * list FileEffect) :=
  let destinationFileName := destinationNameOf destFileName wrappedFile in
  let fileId := uuidv4 c in
  let unixTime := unixTimeNow c in
  match encryptFileData w (fileDataBuffer wrappedFile) fileId driveKey with
  | Throw e => Some (Throw e, [])
  | Ok cipherText =>
      let fileDataPrototype := PrivateFileData cipherText in
      match prepareFileData w fileDataPrototype fileDataRewardSettings with
      | Throw e => Some (Throw e, [])
      | Ok dataTrx =>
          sendFile c w dataTrx [FileDataPrepared fileDataPrototype dataTrx]
            (fun dataTxId =>
               fileMetaData <-
                 encryptFileMeta w destinationFileName (fileSize wrappedFile)
                   (lastModifiedDateMS wrappedFile) dataTxId
                   (dataContentType wrappedFile) fileId driveKey ;;
               Ok (mkFileMeta destinationFileName (fileSize wrappedFile)
                     (lastModifiedDateMS wrappedFile) dataTxId
                     (dataContentType wrappedFile) (Some (fst fileMetaData))
                     unixTime driveId fileId parentFolderId,
                   Some (snd fileMetaData)))
            metadataRewardSettings
      end
  end.

End ArFSDAO.

(* ===================================================================== *)
(** ** Application layer (ardrive.ts, class ArDrive)                     *)
(* ===================================================================== *)

Module ArDrive.

(** An arweave [Transaction], as far as [ArDrive] reads it; [reward] is a
    decimal winston string, read through unary [+]. *)
Record Transaction : Type := mkTrx {
  id : string;
  reward : Z;
  target : string;
  quantity : string
}.

(** [ArFSEntityData], with the [dataTxId] and [entityId] the upload methods
    add; [None] is an absent property. *)
Record ArFSEntityData : Type := mkEntityData {
  type : string;
  metadataTxId : string;
  dataTxId : option string;
  entityId : option string;
  key : option string
}.

Record ArFSTipData : Type := mkTipData {
  txId : string;
  recipient : string;
  winston : string
}.

(** [ArFSResult]; a fee is the number [+trx.reward]. *)
Record ArFSResult : Type := mkResult {
  created : list ArFSEntityData;
  tips : list ArFSTipData;
  fees : dict Double.number
}.

(** What [preparePublicFileTransactions] / [preparePrivateFileTransactions]
    resolve to. *)
Record PreparedFile : Type := mkPrepared {
  dataTrx : Transaction;
  metaDataTrx : Transaction;
  fileId : string
}.

(** The collaborators injected into [ArDrive]: the DAO ([arFsDao]), the
    wallet DAO and the community oracle.  A drive lookup answers [None] for
    a falsy drive.  [walletHasBalance] is what the guard
    [if (!this.walletDao.walletHasBalance(this.wallet, totalWinstonPrice))]
    sees of the value the call answers, whether it is truthy; its argument
    is the number whose [toString()] the call is given. *)
Record Deps : Type := mkDeps {
  getDriveIdForFolderId : string -> result string;
  getPublicDrive : string -> result (option ArFSDAO.ArFSDrive);
  getPrivateDrive : string -> string -> result (option ArFSDAO.ArFSDrive);
  preparePublicFileTransactions :
    string -> string -> string -> option string -> result PreparedFile;
  preparePrivateFileTransactions :
    string -> string -> string -> string -> option string
    -> result PreparedFile;
  getCommunityWinstonTip : Z -> result Z;
  selectTokenHolder : result string;
  prepareARToAddressTransaction :
    Z -> string -> list (string * string) -> result Transaction;
  walletHasBalance : Double.number -> bool;
  uploadByChunk : Transaction -> result unit;
  submitTransaction : Transaction -> result unit
}.

Definition commTipMetaTags : list (string * string) :=
  [("App-Name", "ArDrive-CLI"); ("App-Version", "2.0");
   ("Tip-Type", "data upload")].

(** [ArDrive.prepareCommunityTipTrx] *)
Definition prepareCommunityTipTrx (d : Deps) (communityWinstonTip : Z)
  : result Transaction :=
  tokenHolder <- selectTokenHolder d ;;
  prepareARToAddressTransaction d communityWinstonTip tokenHolder
    commTipMetaTags.

(** A submission started by the final [Promise.all]. *)
Inductive Submission : Type :=
| ChunkUpload (t : Transaction)
| TipTransfer (t : Transaction).

(** [await Promise.all([uploadByChunk(dataTrx), uploadByChunk(metaDataTrx),
    submitTransaction(commTipTrx)])]: the three calls are made, then the
    first rejection, if any, is thrown. *)
Definition submitAll (d : Deps) (dataTrx metaDataTrx commTipTrx : Transaction)
  : result unit * list Submission :=
  let started :=
    [ChunkUpload dataTrx; ChunkUpload metaDataTrx; TipTransfer commTipTrx] in
  (_ <- uploadByChunk d dataTrx ;;
   _ <- uploadByChunk d metaDataTrx ;;
   submitTransaction d commTipTrx,
   started).

(** [+trx.reward] *)
Definition fee (trx : Transaction) : Double.number := Double.ofZ (reward trx).

(** [(+dataTrx.reward + +commTipTrx.reward + +metaDataTrx.reward)], the
    number whose [toString()] is the price. *)
Definition totalWinstonPrice (dataTrx commTipTrx metaDataTrx : Transaction)
  : Double.number :=
  Double.add (Double.add (fee dataTrx) (fee commTipTrx)) (fee metaDataTrx).

(** The balance check is called without [await].  When
    [WalletDAO.walletHasBalance] is an async method, what the guard tests
    is the Promise the call answers, and a Promise is an object: truthy,
    whatever it resolves to later. *)
Definition answersPromise (walletHasBalance : Double.number -> bool) : Prop :=
  forall total, walletHasBalance total = true.

(** The steps of an upload up to the balance check: the prepared file and
    the tip transaction. *)
Definition quotePublic (d : Deps) (parentFolderId filePath : string)
    (destinationFileName : option string)
  : result (PreparedFile * Transaction) :=
  driveId <- getDriveIdForFolderId d parentFolderId ;;
  drive <- getPublicDrive d driveId ;;
  match drive with
  | None =>
      Throw (Error ("Public drive with Drive ID " ++ driveId ++ " not found!"))
  | Some _ =>
      f <- preparePublicFileTransactions d parentFolderId filePath driveId
             destinationFileName ;;
      communityWinstonTip <- getCommunityWinstonTip d (reward (dataTrx f)) ;;
      commTipTrx <- prepareCommunityTipTrx d communityWinstonTip ;;
      Ok (f, commTipTrx)
  end.

Definition quotePrivate (d : Deps) (parentFolderId filePath password : string)
    (destinationFileName : option string)
  : result (PreparedFile * Transaction) :=
  driveId <- getDriveIdForFolderId d parentFolderId ;;
  drive <- getPrivateDrive d driveId password ;;
  match drive with
  | None =>
      Throw (Error ("Private drive with Drive ID " ++ driveId ++ " not found!"))
  | Some _ =>
      f <- preparePrivateFileTransactions d parentFolderId filePath driveId
             password destinationFileName ;;
      communityWinstonTip <- getCommunityWinstonTip d (reward (dataTrx f)) ;;
      commTipTrx <- prepareCommunityTipTrx d communityWinstonTip ;;
      Ok (f, commTipTrx)
  end.

Definition notEnoughAR : exn := Error "Not enough AR for file upload..".

(** [ArDrive.uploadPublicFile]: the result, and the submissions started. *)
Definition uploadPublicFile (d : Deps) (parentFolderId filePath : string)
    (destinationFileName : option string)
  : result ArFSResult * list Submission :=
  match quotePublic d parentFolderId filePath destinationFileName with
  | Throw e => (Throw e, [])
  | Ok (f, commTipTrx) =>
      let total := totalWinstonPrice (dataTrx f) commTipTrx (metaDataTrx f) in
      if negb (walletHasBalance d total) then (Throw notEnoughAR, [])
      else
        match submitAll d (dataTrx f) (metaDataTrx f) commTipTrx with
        | (Throw e, started) => (Throw e, started)
        | (Ok _, started) =>
            (Ok (mkResult
                   [mkEntityData "file" (id (metaDataTrx f))
                      (Some (id (dataTrx f))) (Some (fileId f)) None]
                   [mkTipData (id commTipTrx) (target commTipTrx)
                      (quantity commTipTrx)]
                   (set (set [] (id (metaDataTrx f)) (fee (metaDataTrx f)))
                        (id (dataTrx f)) (fee (dataTrx f)))),
             started)
        end
  end.

(** [ArDrive.uploadPrivateFile] *)
Definition uploadPrivateFile (d : Deps)
    (parentFolderId filePath password : string)
    (destinationFileName : option string)
  : result ArFSResult * list Submission :=
  match quotePrivate d parentFolderId filePath password
          destinationFileName with
  | Throw e => (Throw e, [])
  | Ok (f, commTipTrx) =>
      let total := totalWinstonPrice (dataTrx f) commTipTrx (metaDataTrx f) in
      if negb (walletHasBalance d total) then (Throw notEnoughAR, [])
      else
        match submitAll d (dataTrx f) (metaDataTrx f) commTipTrx with
        | (Throw e, started) => (Throw e, started)
        | (Ok _, started) =>
            (Ok (mkResult
                   [mkEntityData "file" (id (metaDataTrx f))
                      (Some (id (dataTrx f))) (Some (fileId f))
                      (* TODO: Implement returning the file key *)
                      (Some "")]
                   [mkTipData (id commTipTrx) (target commTipTrx)
                      (quantity commTipTrx)]
                   (set (set (set [] (id (metaDataTrx f))
                                  (fee (metaDataTrx f)))
                             (id (dataTrx f)) (fee (dataTrx f)))
                        (id commTipTrx) (fee commTipTrx))),
             started)
        end
  end.

End ArDrive.

(* ===================================================================== *)
(** ** Community tip oracle (ardrive_community_oracle.ts)                *)
(* ===================================================================== *)

Module ArDriveCommunityOracle.
Local Open Scope Q_scope.

(** JS numbers are taken in exact arithmetic: a finite number is a rational,
    and the three values a division can add are kept apart. *)
Inductive number : Type :=
| Fin (q : Q)
| PosInfinity
| NegInfinity
| NaN.

(** [a / b] on finite integers *)
Definition divide (a b : Z) : number :=
  if (b =? 0)%Z then
    if (a =? 0)%Z then NaN
    else if (0 <? a)%Z then PosInfinity else NegInfinity
  else Fin (inject_Z a / inject_Z b).



(** [0.000_010_000_000], in exact arithmetic *)
Definition minArDriveCommunityARTip : Q := 1 # 100000.

(** [ArDriveCommunityOracle.getCommunityARTip] in exact arithmetic, given
    the value [getTipSettingFromContractSettings()] resolved to. *)
Definition getCommunityARTip (communityTipValue arCost : Q) : Q :=
  let arDriveCommunityTip := arCost * (communityTipValue / 100) in
  Qmax arDriveCommunityTip minArDriveCommunityARTip.

(** The same on JS numbers, as the source computes it. *)
Module Binary64.

(** [0.000_010_000_000]: the number nearest to 1/100000, which is
    5902958103587057 / 2^69. *)
Definition minArDriveCommunityARTip : Double.number :=
  S754_finite false 5902958103587057 (-69).

(** [ArDriveCommunityOracle.getCommunityARTip], given the value
    [getTipSettingFromContractSettings()] resolved to. *)
Definition getCommunityARTip (communityTipValue arCost : Double.number)
  : Double.number :=
  let arDriveCommunityTip :=
    Double.mul arCost (Double.div communityTipValue (Double.ofZ 100)) in
  Double.max arDriveCommunityTip minArDriveCommunityARTip.

End Binary64.

(** One locked balance of a vault. *)
Record VaultEntry : Type := mkVault {
  balance : Z;
  start : Z;
  end_ : Z
}.

(** The community contract state read by [selectTokenHolder]. *)
Record Contract : Type := mkContract {
  balances : dict Z;
  vault : dict (list VaultEntry)
}.

(** [vault[addr].map((a) => a.balance).reduce((a, b) => a + b, 0)] *)
Definition vaultBalanceOf (entries : list VaultEntry) : Z :=
  fold_left Z.add (map balance entries) 0%Z.

(** [let total = 0; for (addr of Object.keys(balances)) total += balances[addr]] *)
Definition sumOfBalances (b : dict Z) : Z :=
  fold_left
    (fun total addr =>
       match get b addr with
       | Some x => (total + x)%Z
       | None => total
       end) (keys b) 0%Z.

(** One turn of the loop over [Object.keys(vault)], on the pair
    ([total], [balances]). *)
Definition foldVault (v : dict (list VaultEntry)) (acc : Z * dict Z)
    (addr : string) : Z * dict Z :=
  let (total, b) := acc in
  match get v addr with
  | None => acc
  | Some [] => (* continue *) acc
  | Some entries =>
      let vaultBalance := vaultBalanceOf entries in
      (total + vaultBalance,
       match get b addr with
       | Some x => set b addr (x + vaultBalance)
       | None => set b addr vaultBalance
       end)%Z
  end.

(** [total] and [balances] after both loops. *)
Definition staked (c : Contract) : Z * dict Z :=
  fold_left (foldVault (vault c)) (keys (vault c))
            (sumOfBalances (balances c), balances c).

(** The weighted list of token holders:
    [weighted[addr] = balances[addr] / total]. *)
Definition weightedOf (c : Contract) : dict number :=
  let (total, b) := staked c in
  fold_left
    (fun weighted addr =>
       match get b addr with
       | Some x => set weighted addr (divide x total)
       | None => weighted
       end) (keys b) [].

Definition noHolder : exn :=
  Error "Token holder target could not be determined for community tip distribution..".

(** [ArDriveCommunityOracle.selectTokenHolder]; [weightedRandom] is the
    sampler imported from ardrive-core-js, [None] its [undefined]. *)
Definition selectTokenHolder (weightedRandom : dict number -> option string)
    (c : Contract) : result string :=
  match weightedRandom (weightedOf c) with
  | None => Throw noHolder
  | Some randomHolder => Ok randomHolder
  end.




(** The addresses of the balances table and of the vault are ordinary
    keys: [addr in balances] then holds of the addresses [balances] owns
    and of no other. *)
Definition ordinaryAddresses (c : Contract) : bool :=
  forallb ordinary (keys (balances c) ++ keys (vault c)).




End ArDriveCommunityOracle.

(* ===================================================================== *)
(** ** Signing step of the DAO (arfsdao.ts,
       ArFSDAO.prepareArFSObjectTransaction)                             *)
(* ===================================================================== *)

Module Signing.
Import ArFSDAO.

(** The value of a tag: a string, or the string [toString()] gives for a
    number. *)
Inductive TagValue : Type :=
| Text (s : string)
| Numeral (x : Double.number).

(** The reward of a transaction: the decimal winston string of the created
    transaction, or the string [toString()] gives for a number. *)
Inductive Reward : Type :=
| Winston (z : Z)
| Printed (x : Double.number).

(** [ArFSObjectMetadataPrototype], as far as the signing step reads it:
    the transaction data and the tags [addTagsToTransaction] adds. *)
Record ArFSObjectMetadataPrototype : Type := mkPrototype {
  objectData : string;
  objectTags : list (string * TagValue)
}.

(** The transaction handed back, with its tags in the order added. *)
Record SignedTransaction : Type := mkSigned {
  signedData : string;
  signedReward : Reward;
  signedTags : list (string * TagValue)
}.

(** The collaborators of the signing step: the app identity of the DAO,
    [CURRENT_ARFS_VERSION], [arweave.createTransaction] (it answers the
    reward of the transaction it creates from the data and the optional
    reward attribute, a decimal winston string), the prototype's
    [assertProtectedTags] and [arweave.transactions.sign]. *)
Record Signer : Type := mkSigner {
  appName : string;
  appVersion : string;
  arfsVersion : string;
  createTransaction : string -> option string -> result Z;
  assertProtectedTags :
    ArFSObjectMetadataPrototype -> list GQLTagInterface -> result unit;
  sign : string -> Reward -> list (string * TagValue) -> result unit
}.

(** [rewardSettings.feeMultiple && rewardSettings.feeMultiple > 1.0]: a
    multiple of 0 or NaN is falsy, and not above 1 either. *)
Definition boostOf (rs : RewardSettings) : option Double.number :=
  match feeMultiple rs with
  | Some m => if Double.ltb (Double.ofZ 1) m then Some m else None
  | None => None
  end.

(** [trxAttributes.reward]: set [if (rewardSettings.reward)]. *)
Definition rewardAttributeOf (rs : RewardSettings) : option string :=
  match reward rs with
  | Some r => if truthy r then Some r else None
  | None => None
  end.

(** [ArFSDAO.prepareArFSObjectTransaction] *)
Definition prepareArFSObjectTransaction (s : Signer)
    (objectMetaData : ArFSObjectMetadataPrototype)
    (rewardSettings : RewardSettings) (otherTags : list GQLTagInterface)
  : result SignedTransaction :=
  (* If we provided our own reward setting, use it now *)
  let rewardAttribute := rewardAttributeOf rewardSettings in
  created <- createTransaction s (objectData objectMetaData) rewardAttribute ;;
  (* If we've opted to boost the transaction, do so now:
     [Math.ceil(+transaction.reward * feeMultiple).toString()] *)
  let reward' :=
    match boostOf rewardSettings with
    | Some m => Printed (Double.ceil (Double.mul (Double.ofZ created) m))
    | None => Winston created
    end in
  (* Add baseline ArFS Tags *)
  let baseline :=
    [("App-Name", Text (appName s)); ("App-Version", Text (appVersion s));
     ("ArFS", Text (arfsVersion s))]
    ++ match boostOf rewardSettings with
       | Some m => [("Boost", Numeral m)]
       | None => []
       end in
  (* Add object-specific tags *)
  let tagged := baseline ++ objectTags objectMetaData in
  (* Enforce that other tags are not protected *)
  _ <- assertProtectedTags s objectMetaData otherTags ;;
  let tags :=
    tagged ++ map (fun t => (tagName t, Text (tagValue t))) otherTags in
  (* Sign the transaction *)
  _ <- sign s (objectData objectMetaData) reward' tags ;;
  Ok (mkSigned (objectData objectMetaData) reward' tags).

End Signing.

(* ===================================================================== *)
(** ** Output path resolution (getOutputFilePathAndName)                 *)
(* ===================================================================== *)

Module OutputPath.

(** [fs.Stats], as far as it is read. *)
Record Stats : Type := mkStats {
  isDirectory : bool;
  isFile : bool
}.

(** The path functions of Node and [statSync], which throws for a path
    that does not exist. *)
Record FileSystem : Type := mkFs {
  resolve : string -> string;
  dirname : string -> string;
  basename : string -> string;
  statSync : string -> result Stats
}.

Definition notFolderNorFile : exn :=
  Error "The destination isn't a folder nor a file!".

Definition notADirectory (outputDirname : string) : exn :=
  Error ("The path " ++ outputDirname ++ " is not a directory!").

(** [getOutputFilePathAndName]; [FilePathAndName] is [[string, string?]]. *)
Definition getOutputFilePathAndName (fs : FileSystem) (destOutputPath : string)
  : result (string * option string) :=
  let resolvedOutputPath := resolve fs destOutputPath in
  let outputDirname := dirname fs resolvedOutputPath in
  let outputBasename := basename fs resolvedOutputPath in
  let tried :=
    outputPathStats <- statSync fs resolvedOutputPath ;;
    (* the destination does exist *)
    if isDirectory outputPathStats then Ok (resolvedOutputPath, None)
    else if isFile outputPathStats
    then Ok (outputDirname, Some outputBasename)
    else Throw notFolderNorFile in
  match tried with
  | Ok r => Ok r
  | Throw _ =>
      (* catch (e): the destination doesn't exist *)
      outputParentPathStats <- statSync fs outputDirname ;;
      if isDirectory outputParentPathStats
      then Ok (outputDirname, Some outputBasename)
      else Throw (notADirectory outputDirname)
  end.

End OutputPath.

(* ===================================================================== *)
(** ** The tx-status command (src/commands/tx_status.ts)                 *)
(* ===================================================================== *)

Module TxStatus.

(** [SUCCESS_EXIT_CODE] and [ERROR_EXIT_CODE] *)
Inductive ExitCode : Type :=
| SUCCESS_EXIT_CODE
| ERROR_EXIT_CODE.

(** The [confirmed] field of a transaction status. *)
Record Confirmed : Type := mkConfirmed {
  block_height : nat;
  number_of_confirmations : nat
}.

(** The line the command prints, after [`${txId}: `]. *)
Inductive Report : Type :=
| Pending
| NotFound
| Mined (height confirmations : nat)
| Confirming (height confirmations : nat).

(** The action of the command.  [fetchMempool] and [getStatus] are the
    network calls; [getStatus] answers the [confirmed] field, [None] for
    [null].  The result is the line printed and the exit code. *)
Definition action (fetchMempool : result (list string))
    (getStatus : string -> result (option Confirmed))
    (txId : string) (confirmations : option nat)
  : result (Report * ExitCode) :=
  transactionsInMempool <- fetchMempool ;;
  let pending := includes transactionsInMempool txId in
  let confirmationAmount :=
    match confirmations with Some n => n | None => 15 end in
  if pending then Ok (Pending, SUCCESS_EXIT_CODE)
  else
    confStatus <- getStatus txId ;;
    match confStatus with
    | None => Ok (NotFound, ERROR_EXIT_CODE)
    | Some st =>
        if Nat.eqb (block_height st) 0 then Ok (NotFound, ERROR_EXIT_CODE)
        else if Nat.leb confirmationAmount (number_of_confirmations st)
        then Ok (Mined (block_height st) (number_of_confirmations st),
                 SUCCESS_EXIT_CODE)
        else Ok (Confirming (block_height st) (number_of_confirmations st),
                 SUCCESS_EXIT_CODE)
    end.

End TxStatus.

(* ===================================================================== *)
(** ** Concrete inputs and auxiliary notions used by the properties       *)
(* ===================================================================== *)

(** A gateway holding one folder record and one drive record, and a client
    on it that signs and uploads without failure. *)
Definition demoEdges (q : list (string * string))
  : result (list ArFSDAO.GQLEdgeInterface) :=
  match q with
  | [("Folder-Id", "P")] =>
      Ok [ArFSDAO.mkEdge "c1"
            (ArFSDAO.mkGQLNode "tx-P"
               [ArFSDAO.mkTag "Entity-Type" "folder";
                ArFSDAO.mkTag "Drive-Id" "D2";
                ArFSDAO.mkTag "Drive-Id" "D9"]);
          ArFSDAO.mkEdge "c2"
            (ArFSDAO.mkGQLNode "tx-P0" [ArFSDAO.mkTag "Drive-Id" "D7"])]
  | [("Drive-Id", "D"); ("Entity-Type", "drive"); ("Drive-Privacy", _)] =>
      Ok [ArFSDAO.mkEdge "c3" (ArFSDAO.mkGQLNode "tx-D" [])]
  | _ => Ok []
  end.

Definition demoClient : ArFSDAO.Client :=
  ArFSDAO.mkClient demoEdges
    (fun d => Ok (ArFSDAO.mkDrive d "drive" "R"))
    (fun d _ => Ok (ArFSDAO.mkDrive d "drive" "R"))
    "F-new" 1600000000%Z
    (fun m _ => Ok (ArFSDAO.mkTrx ("tx-" ++ ArFSDAO.metaFolderId m) "42"))
    (fun _ => Ok tt)
    false.

(** Collaborators for one upload: the data and metadata transactions cost
    100 and 10 winston, the tip transaction 5, and the wallet check answers
    as a boolean would, true when the price is within [balance] winston. *)
Definition demoDeps (balance : Z) : ArDrive.Deps :=
  ArDrive.mkDeps
    (ArFSDAO.getDriveIdForFolderId demoClient)
    (fun d => Ok (Some (ArFSDAO.mkDrive d "drive" "R")))
    (fun d _ => Ok (Some (ArFSDAO.mkDrive d "drive" "R")))
    (fun _ _ _ _ =>
       Ok (ArDrive.mkPrepared (ArDrive.mkTrx "tx-data" 100 "" "0")
             (ArDrive.mkTrx "tx-meta" 10 "" "0") "file-1"))
    (fun _ _ _ _ _ =>
       Ok (ArDrive.mkPrepared (ArDrive.mkTrx "tx-data" 100 "" "0")
             (ArDrive.mkTrx "tx-meta" 10 "" "0") "file-1"))
    (fun dataReward => Ok (Z.max (dataReward * 15 / 100) 10000000)%Z)
    (Ok "holder-1")
    (fun tip holder _ => Ok (ArDrive.mkTrx "tx-tip" 5 holder "10000000"))
    (fun total => Double.leb total (Double.ofZ balance))
    (fun _ => Ok tt)
    (fun _ => Ok tt).

(** The same collaborators with the wallet check of an async method that
    is not awaited: the guard is answered a Promise. *)
Definition unawaitedDeps : ArDrive.Deps :=
  ArDrive.mkDeps
    (ArDrive.getDriveIdForFolderId (demoDeps 0))
    (ArDrive.getPublicDrive (demoDeps 0))
    (ArDrive.getPrivateDrive (demoDeps 0))
    (ArDrive.preparePublicFileTransactions (demoDeps 0))
    (ArDrive.preparePrivateFileTransactions (demoDeps 0))
    (ArDrive.getCommunityWinstonTip (demoDeps 0))
    (ArDrive.selectTokenHolder (demoDeps 0))
    (ArDrive.prepareARToAddressTransaction (demoDeps 0))
    (fun _ => true)
    (ArDrive.uploadByChunk (demoDeps 0))
    (ArDrive.submitTransaction (demoDeps 0)).

Definition demoSettings (parent : option string) (sync : option bool)
  : ArFSDAO.CreateFolderSettings :=
  ArFSDAO.mkSettings "photos" "D" (ArFSDAO.mkReward None None) parent sync
    "drive-key".

(** An upload of two chunks, before the first chunk, after it, and after
    the second. *)
Definition chunk0 : ArFSDAO.Uploader := ArFSDAO.mkUploader false 0 0 2.
Definition chunk1 : ArFSDAO.Uploader := ArFSDAO.mkUploader false 50 1 2.
Definition chunk2 : ArFSDAO.Uploader := ArFSDAO.mkUploader true 100 2 2.

(** A folder entity of drive "D" whose transaction ID is "tx-" followed by
    its ID. *)
Definition folder (id parentId nm : string) : Hierarchy.ArFSFileOrFolderEntity :=
  Hierarchy.mkEntity "D" nm ("tx-" ++ id) parentId id.

(** A root folder R, A under R, B under A. *)
Definition chainRAB : list Hierarchy.ArFSFileOrFolderEntity :=
  [folder "R" "root folder" "root"; folder "A" "R" "a"; folder "B" "A" "b"].

(** Two folders naming each other as parent. *)
Definition cycleAB : list Hierarchy.ArFSFileOrFolderEntity :=
  [folder "A" "B" "a"; folder "B" "A" "b"].

(** A root folder whose name holds a slash. *)
Definition slashedRoot : list Hierarchy.ArFSFileOrFolderEntity :=
  [folder "R" "root folder" "a/b"].

(** Three holders: "A" with a balance only, "B" with a balance and two
    vault entries, "C" with a vault entry only; "E" has an empty vault. *)
Definition demoContract : ArDriveCommunityOracle.Contract :=
  ArDriveCommunityOracle.mkContract
    [("A", 10%Z); ("B", 20%Z)]
    [("B", [ArDriveCommunityOracle.mkVault 30 0 100;
            ArDriveCommunityOracle.mkVault 15 0 200]);
     ("E", []);
     ("C", [ArDriveCommunityOracle.mkVault 25 0 100])].



(** The sum of a list of integers. *)
Definition sumZ (l : list Z) : Z := fold_right Z.add 0%Z l.

(** What the construction keeps true of the node [n] bound to the folder
    ID [k]: it carries that ID and was created for an entity of the input
    with that ID; a parentless node is one whose entity names a parent ID
    that has no entity, and a child node has a parent node carrying the
    parent ID of its entity. *)
Definition linked (entities : list Hierarchy.ArFSFileOrFolderEntity)
    (m : dict (option Hierarchy.ArFSFileOrFolderEntity))
    (k : string) (n : Hierarchy.FolderTreeNode) : Prop :=
  Hierarchy.folderId n = k
  /\ exists e,
       In e entities /\ Hierarchy.entityId e = k
       /\ match Hierarchy.parent n with
          | None => Hierarchy.entityOf m (Hierarchy.parentFolderId e) = None
          | Some p => Hierarchy.folderId p = Hierarchy.parentFolderId e
          end.

(** Every node of the parent chain of [n], [n] included, carries a folder
    ID that is bound in the node map and has an entity. *)
Fixpoint chainKnown (nm : dict Hierarchy.FolderTreeNode)
    (m : dict (option Hierarchy.ArFSFileOrFolderEntity))
    (n : Hierarchy.FolderTreeNode) : Prop :=
  In (Hierarchy.folderId n) (keys nm)
  /\ Hierarchy.entityOf m (Hierarchy.folderId n) <> None
  /\ match n with
     | Hierarchy.Parentless _ _ => True
     | Hierarchy.ChildOf _ _ p => chainKnown nm m p
     end.

(** The invariant of the construction: every binding of the node map is
    [linked] and has a known parent chain, and every node of a [children]
    array was created with a parent at the address of that array. *)
Definition kept (entities : list Hierarchy.ArFSFileOrFolderEntity)
    (m : dict (option Hierarchy.ArFSFileOrFolderEntity))
    (b : Hierarchy.build) : Prop :=
  (forall k n, get (Hierarchy.nodeMap b) k = Some n ->
               linked entities m k n
               /\ chainKnown (Hierarchy.nodeMap b) m n)
  /\ (forall r c, In c (nth r (Hierarchy.nodes b) []) ->
                  exists p, Hierarchy.parent c = Some p
                            /\ Hierarchy.ref p = r).

(** The client [c] on another gateway: other answers to the GraphQL
    queries and other drive builders. *)
Definition onGateway (c : ArFSDAO.Client)
    (post' : list (string * string) -> result (list ArFSDAO.GQLEdgeInterface))
    (buildPublic : string -> result ArFSDAO.ArFSDrive)
    (buildPrivate : string -> string -> result ArFSDAO.ArFSDrive)
  : ArFSDAO.Client :=
  ArFSDAO.mkClient post' buildPublic buildPrivate (ArFSDAO.uuidv4 c)
    (ArFSDAO.unixTimeNow c) (ArFSDAO.prepareArFSObjectTransaction c)
    (ArFSDAO.uploadToCompletion c) (ArFSDAO.dryRun c).

(** The drive writer [w] whose single chunk leaves the uploader [after]. *)
Definition leavingUploader (w : ArFSDAO.DriveWriter) (after : ArFSDAO.Uploader)
  : ArFSDAO.DriveWriter :=
  ArFSDAO.mkDriveWriter (ArFSDAO.freshDriveId w)
    (ArFSDAO.prepareDriveTransaction w) (ArFSDAO.encryptFolderData w)
    (ArFSDAO.encryptDriveData w) (fun _ => Ok after).

(** The gateway serves the pages [pages], in this order, to the queries
    that start at the cursor [cursor0] and continue at the cursor of the
    last edge seen. *)
Fixpoint served (postPage : string -> result ArFSDAO.Page) (cursor0 : string)
    (pages : list ArFSDAO.Page) : Prop :=
  match pages with
  | [] => True
  | page :: rest =>
      postPage cursor0 = Ok page
      /\ served postPage (ArFSDAO.cursorAfter cursor0 (ArFSDAO.pageEdges page))
           rest
  end.

(** A writer of drive transactions that never fails, and an uploader left
    incomplete by one chunk. *)
Definition demoWriter : ArFSDAO.DriveWriter :=
  ArFSDAO.mkDriveWriter "D-new"
    (fun m _ =>
       Ok (ArFSDAO.mkTrx ("tx-" ++ ArFSDAO.driveMetaDriveId m)%string "77"))
    (fun nm key => Ok ("enc:" ++ nm)%string)
    (fun nm rootId key => Ok ("enc:" ++ nm ++ ":" ++ rootId)%string)
    (fun _ => Ok chunk1).

(** A gateway serving two folder records on a first page and one on a
    second, last page; and a builder reading the node ID. *)
Definition demoPages (cursor : string) : result ArFSDAO.Page :=
  match cursor with
  | "" =>
      Ok (ArFSDAO.mkPage
            [ArFSDAO.mkEdge "c1" (ArFSDAO.mkGQLNode "tx-1" []);
             ArFSDAO.mkEdge "c2" (ArFSDAO.mkGQLNode "tx-2" [])] true)
  | "c2" =>
      Ok (ArFSDAO.mkPage
            [ArFSDAO.mkEdge "c3" (ArFSDAO.mkGQLNode "tx-3" [])] false)
  | _ => Ok (ArFSDAO.mkPage [] true)
  end.

Definition demoBuild (n : ArFSDAO.GQLNodeInterface) : result string :=
  Ok (ArFSDAO.nodeId n).

(** All balances and all vault balances of the contract are non-negative. *)
Definition nonNegative (c : ArDriveCommunityOracle.Contract) : bool :=
  forallb (fun kx => (0 <=? snd kx)%Z) (ArDriveCommunityOracle.balances c)
  && forallb
       (fun ke =>
          forallb (fun e => (0 <=? ArDriveCommunityOracle.balance e)%Z)
                  (snd ke))
       (ArDriveCommunityOracle.vault c).

(** A signer that prices every transaction at 50 winston and accepts all
    caller tags. *)
Definition demoSigner : Signing.Signer :=
  Signing.mkSigner "ArDrive-CLI" "2.0" "0.11"
    (fun _ _ => Ok 50%Z) (fun _ _ => Ok tt) (fun _ _ _ => Ok tt).

(** A file system with the directory /out, the file /out/a.txt and the
    socket /out/s; paths are taken as resolved. *)
Definition demoFs : OutputPath.FileSystem :=
  OutputPath.mkFs (fun p => p)
    (fun p => match p with
              | "/out" => "/"
              | _ => "/out"
              end)
    (fun p => match p with
              | "/out/a.txt" => "a.txt"
              | "/out/s" => "s"
              | "/out/new.txt" => "new.txt"
              | _ => "out"
              end)
    (fun p => match p with
              | "/out" => Ok (OutputPath.mkStats true false)
              | "/out/a.txt" => Ok (OutputPath.mkStats false true)
              | "/out/s" => Ok (OutputPath.mkStats false false)
              | _ => Throw (Error "ENOENT")
              end).

(** The file writer [w] with other answers to the chunk calls of the data
    upload. *)
Definition withDataChunks (w : ArFSDAO.FileWriter)
    (script : list (option ArFSDAO.Uploader)) : ArFSDAO.FileWriter :=
  ArFSDAO.mkFileWriter (ArFSDAO.prepareFileData w) (ArFSDAO.prepareFileMeta w)
    (ArFSDAO.encryptFileData w) (ArFSDAO.encryptFileMeta w)
    (ArFSDAO.getUploader w) script (ArFSDAO.metaChunks w).

(** No effect of the list is an upload. *)
Definition sendsNothing (effects : list ArFSDAO.FileEffect) : bool :=
  forallb (fun e => match e with
                    | ArFSDAO.FileDataSent _ _ => false
                    | ArFSDAO.FileMetaSent _ _ => false
                    | _ => true
                    end) effects.

(** A file of two chunks, and a file writer that never fails: uploaders
    start at no chunk sent, the data upload goes through in two chunks and
    the metadata upload in one. *)
Definition demoFile : ArFSDAO.ArFSFileToUpload :=
  ArFSDAO.mkFile "/home/a.txt" "a.txt" 5 "text/plain" 1600000000000 "hello".

Definition demoFileWriter : ArFSDAO.FileWriter :=
  ArFSDAO.mkFileWriter
    (fun _ _ => Ok (ArFSDAO.mkTrx "tx-data" "100"))
    (fun m _ => Ok (ArFSDAO.mkTrx ("tx-" ++ ArFSDAO.metaFileId m)%string "10"))
    (fun data fileId key => Ok ("enc:" ++ data)%string)
    (fun nm _ _ dataTxId _ fileId key =>
       Ok (("enc:" ++ nm ++ ":" ++ dataTxId)%string,
           ("key:" ++ fileId)%string))
    (fun _ => Ok chunk0)
    [Some chunk1; Some chunk2]
    [Ok chunk2].

(* ===================================================================== *)
(** * Properties                                                         *)
(* ===================================================================== *)

(** ** Dictionaries *)

Section Dict.
Context {V : Type}.
Implicit Types (d : dict V) (k a : string) (v : V).

Lemma includes_In (l : list string) k : includes l k = true <-> In k l.
Proof.
  unfold includes. rewrite existsb_exists. split.
  - intros (x & Hx & He). apply String.eqb_eq in He. now subst.
  - intros H. exists k. split; [exact H | apply String.eqb_refl].
Qed.

Lemma includes_false (l : list string) k : includes l k = false <-> ~ In k l.
Proof.
  rewrite <- includes_In. destruct (includes l k); split; congruence.
Qed.

Lemma get_set_same d k v : get (set d k v) k = Some v.
Proof.
  induction d as [|[k' v'] d IH]; simpl.
  - now rewrite String.eqb_refl.
  - destruct (String.eqb k k') eqn:E; simpl; rewrite E; [reflexivity | exact IH].
Qed.

Lemma get_set_other d k a v : a <> k -> get (set d k v) a = get d a.
Proof.
  intros Hne. induction d as [|[k' v'] d IH]; simpl.
  - apply String.eqb_neq in Hne. now rewrite Hne.
  - destruct (String.eqb_spec k k') as [->|Hk]; simpl.
    + apply String.eqb_neq in Hne. now rewrite Hne.
    + now rewrite IH.
Qed.

Lemma get_None d k : get d k = None <-> ~ In k (keys d).
Proof.
  induction d as [|[k' v'] d IH]; simpl; [intuition|].
  destruct (String.eqb_spec k k') as [->|Hk].
  - split; [discriminate | intros H; elim H; now left].
  - rewrite IH. intuition congruence.
Qed.

Lemma get_Some_In d k v : get d k = Some v -> In k (keys d).
Proof.
  intros H. destruct (in_dec string_dec k (keys d)) as [Hin|Hout];
    [exact Hin|].
  apply get_None in Hout. congruence.
Qed.

Lemma set_fresh d k v : ~ In k (keys d) -> set d k v = d ++ [(k, v)].
Proof.
  induction d as [|[k' v'] d IH]; simpl; [reflexivity|].
  intros H. destruct (String.eqb_spec k k') as [->|Hk].
  - elim H. now left.
  - rewrite IH; [reflexivity|]. intros Hin. apply H. now right.
Qed.

Lemma keys_set_present d k v : In k (keys d) -> keys (set d k v) = keys d.
Proof.
  induction d as [|[k' v'] d IH]; simpl; [intros []|].
  intros H. destruct (String.eqb_spec k k') as [->|Hk]; [reflexivity|].
  simpl. rewrite IH; [reflexivity|]. destruct H; congruence.
Qed.

Lemma uniqueKeys_snoc (l : list string) k :
  uniqueKeys l = true -> ~ In k l -> uniqueKeys (l ++ [k]) = true.
Proof.
  induction l as [|x l IH]; simpl; [reflexivity|].
  intros H Hk. apply andb_prop in H as [Hx Hl].
  rewrite IH by tauto. rewrite andb_true_r.
  apply negb_true_iff, includes_false. apply negb_true_iff in Hx.
  apply includes_false in Hx. rewrite in_app_iff. simpl.
  intros [H|[H|[]]]; [tauto|]. subst. tauto.
Qed.

Lemma uniqueKeys_set d k v :
  uniqueKeys (keys d) = true -> uniqueKeys (keys (set d k v)) = true.
Proof.
  intros H. destruct (in_dec string_dec k (keys d)) as [Hin|Hout].
  - now rewrite keys_set_present.
  - rewrite set_fresh by exact Hout. unfold keys. rewrite map_app.
    apply uniqueKeys_snoc; assumption.
Qed.

(** With unique keys every binding of the list is the one [get] finds. *)
Lemma get_binding d k v :
  uniqueKeys (keys d) = true -> In (k, v) d -> get d k = Some v.
Proof.
  induction d as [|[k' v'] d IH]; simpl; [intros _ []|].
  intros H Hin. apply andb_prop in H as [Hk' Hd].
  apply negb_true_iff, includes_false in Hk'.
  destruct Hin as [E|Hin].
  - injection E as -> ->. now rewrite String.eqb_refl.
  - destruct (String.eqb_spec k k') as [->|Hk]; [|now apply IH].
    elim Hk'. change (In k' (map fst d)).
    apply (in_map fst) in Hin. exact Hin.
Qed.

End Dict.

(** ** Drive lookup by folder ID *)

Section DriveLookup.
Import ArFSDAO.

Lemma find_tagValueOf (name : string) (ts : list GQLTagInterface) :
  option_map tagValue (find (fun t => String.eqb (tagName t) name) ts)
  = tagValueOf name ts.
Proof.
  induction ts as [|t ts IH]; simpl; [reflexivity|].
  destruct (String.eqb (tagName t) name); [reflexivity | exact IH].
Qed.

Lemma driveIdOfEdges_cons (folderId : string) (e : GQLEdgeInterface)
    (rest : list GQLEdgeInterface) :
  driveIdOfEdges folderId (e :: rest)
  = match tagValueOf "Drive-Id" (tags (node e)) with
    | Some v => Ok v
    | None =>
        Throw (Error
          ("No Drive-Id tag found for meta data transaction of Folder-Id: "
             ++ folderId))
    end.
Proof.
  unfold driveIdOfEdges. rewrite <- find_tagValueOf.
  destruct (find _ _); reflexivity.
Qed.

(** C10. Whatever the gateway answers to the Folder-Id query: with zero
    edges getDriveIdForFolderId throws the not-found error; otherwise the
    result is decided by the first edge alone, the value of its first
    Drive-Id tag or an error when it has none, and any client whose answer
    starts with the same edge gets the same result. *)
Theorem getDriveIdForFolderId_reads_first_edge
    (c : Client) (folderId : string) (edges : list GQLEdgeInterface)
    (Hpost : post c [("Folder-Id", folderId)] = Ok edges) :
  match edges with
  | [] =>
      getDriveIdForFolderId c folderId
      = Throw (Error ("Folder with Folder ID " ++ folderId ++ " not found!"))
  | first :: _ =>
      getDriveIdForFolderId c folderId
      = match tagValueOf "Drive-Id" (tags (node first)) with
        | Some v => Ok v
        | None =>
            Throw (Error
              ("No Drive-Id tag found for meta data transaction of Folder-Id: "
                 ++ folderId))
        end
      /\ forall (c' : Client) (others : list GQLEdgeInterface),
           post c' [("Folder-Id", folderId)] = Ok (first :: others) ->
           getDriveIdForFolderId c' folderId = getDriveIdForFolderId c folderId
  end.
Proof.
  unfold getDriveIdForFolderId. rewrite Hpost. cbn [bind].
  destruct edges as [|first rest]; [reflexivity|].
  split; [apply driveIdOfEdges_cons|].
  intros c' others H'. rewrite H'. cbn [bind].
  now rewrite !driveIdOfEdges_cons.
Qed.

End DriveLookup.

Lemma getDriveIdForFolderId_reads_first_edge_witness :
  ArFSDAO.getDriveIdForFolderId demoClient "P" = Ok "D2"
  /\ ArFSDAO.getDriveIdForFolderId demoClient "nowhere"
     = Throw (Error "Folder with Folder ID nowhere not found!").
Proof.
  split.
  - exact (proj1 (getDriveIdForFolderId_reads_first_edge demoClient "P" _
                    eq_refl)).
  - exact (getDriveIdForFolderId_reads_first_edge demoClient "nowhere" []
             eq_refl).
Defined.

(** ** Community tip amount *)

Section Tip.
Import ArDriveCommunityOracle.

(** The literal of the minimum tip is the quotient the division rounds
    to. *)
Lemma minTip_literal :
  Binary64.minArDriveCommunityARTip
  = Double.div (Double.ofZ 1) (Double.ofZ 100000).
Proof. vm_compute. reflexivity. Qed.

(** [Math.max(product, minimum)], by the cases of the product. *)
Lemma max_with_minTip (product : Double.number) :
  let tip := Double.max product Binary64.minArDriveCommunityARTip in
  (Double.isNaN product = false ->
     Double.leb Binary64.minArDriveCommunityARTip tip = true
     /\ (Double.leb Binary64.minArDriveCommunityARTip product = true ->
         tip = product)
     /\ (Double.leb Binary64.minArDriveCommunityARTip product = false ->
         tip = Binary64.minArDriveCommunityARTip))
  /\ (Double.isNaN product = true -> Double.isNaN tip = true)
  /\ Double.eqb tip (Double.ofZ 0) = false.
Proof.
  cbv zeta. unfold Double.max, Binary64.minArDriveCommunityARTip.
  destruct product as [s|s| |s m e].
  - repeat split; try discriminate; reflexivity.
  - destruct s; repeat split; try discriminate; reflexivity.
  - repeat split; try discriminate; reflexivity.
  - destruct (Double.leb (S754_finite false 5902958103587057 (-69))
                         (S754_finite s m e)) eqn:Hle.
    + split; [intros _; split; [exact Hle | split; congruence]|].
      split; [discriminate|]. destruct s; reflexivity.
    + split; [intros _; split; [reflexivity | split; congruence]|].
      split; [discriminate | reflexivity].
Qed.

(** C8 (amended). The tip is Math.max of the product cost * (rate / 100)
    and the minimum tip, all in double arithmetic.  When the product is a
    number, the tip is at least the minimum: it is the product when the
    product is at least the minimum, and the minimum otherwise; when the
    product is NaN, so is the tip.  For a cost of zero and a rate whose
    hundredth is finite the tip is the minimum.  The tip is never zero. *)
Theorem getCommunityARTip_floor (communityTipValue arCost : Double.number) :
  let product :=
    Double.mul arCost (Double.div communityTipValue (Double.ofZ 100)) in
  let tip := Binary64.getCommunityARTip communityTipValue arCost in
  (Double.isNaN product = false ->
     Double.leb Binary64.minArDriveCommunityARTip tip = true
     /\ (Double.leb Binary64.minArDriveCommunityARTip product = true ->
         tip = product)
     /\ (Double.leb Binary64.minArDriveCommunityARTip product = false ->
         tip = Binary64.minArDriveCommunityARTip))
  /\ (Double.isNaN product = true -> Double.isNaN tip = true)
  /\ (Double.isFinite (Double.div communityTipValue (Double.ofZ 100)) = true ->
      forall negative : bool,
        Binary64.getCommunityARTip communityTipValue (S754_zero negative)
        = Binary64.minArDriveCommunityARTip)
  /\ Double.eqb tip (Double.ofZ 0) = false.
Proof.
  cbv zeta. unfold Binary64.getCommunityARTip. cbv zeta.
  destruct (max_with_minTip
              (Double.mul arCost
                 (Double.div communityTipValue (Double.ofZ 100))))
    as (Hnumber & Hnan & Hzero).
  split; [exact Hnumber|]. split; [exact Hnan|]. split; [|exact Hzero].
  intros Hfinite negative.
  destruct (Double.div communityTipValue (Double.ofZ 100)) as [s|s| |s m e];
    try discriminate Hfinite; reflexivity.
Qed.

End Tip.

(** C8, as stated, fails where the product is no number: for a cost that
    is NaN the tip is NaN, which is not at least the minimum tip; and for
    a cost of 0 under an infinite rate the tip is NaN, not the minimum. *)
Lemma getCommunityARTip_nan_counterexample :
  ArDriveCommunityOracle.Binary64.getCommunityARTip (Double.ofZ 15) Double.NaN
  = Double.NaN
  /\ Double.leb ArDriveCommunityOracle.Binary64.minArDriveCommunityARTip
       (ArDriveCommunityOracle.Binary64.getCommunityARTip (Double.ofZ 15)
          Double.NaN) = false
  /\ ArDriveCommunityOracle.Binary64.getCommunityARTip Double.Infinity
       (Double.ofZ 0)
     <> ArDriveCommunityOracle.Binary64.minArDriveCommunityARTip.
Proof. split; [reflexivity|]. split; [reflexivity | discriminate]. Qed.

(** A cost of 3 at a rate of 10: the tip is the double product
    0.30000000000000004, which is 5404319552844596 / 2^54. *)
Lemma getCommunityARTip_floor_witness :
  ArDriveCommunityOracle.Binary64.getCommunityARTip (Double.ofZ 10)
    (Double.ofZ 3)
  = S754_finite false 5404319552844596 (-54)
  /\ ArDriveCommunityOracle.Binary64.getCommunityARTip (Double.ofZ 10)
       (Double.ofZ 0)
     = ArDriveCommunityOracle.Binary64.minArDriveCommunityARTip.
Proof.
  destruct (getCommunityARTip_floor (Double.ofZ 10) (Double.ofZ 3))
    as (Hnumber & _).
  destruct (Hnumber eq_refl) as (_ & Hproduct & _).
  split.
  - rewrite (Hproduct eq_refl). reflexivity.
  - exact (proj1 (proj2 (proj2 (getCommunityARTip_floor (Double.ofZ 10)
                                  (Double.ofZ 0)))) eq_refl false).
Defined.

(** ** File upload: balance check and returned key *)

Section Upload.
Import ArDrive.

Variable d : Deps.

(** C5 (code bug). The balance check is called without await: when the
    guard is answered a Promise, it never refuses, whatever the wallet
    holds.  Once the transactions of an upload are prepared, the three
    submissions, data, metadata and tip, are all started, and the upload
    returns a result whenever the three go through: the not-enough-AR
    error is never thrown by the guard. *)
Theorem upload_check_not_awaited
    (Hpromise : answersPromise (walletHasBalance d))
    (parentFolderId filePath password : string)
    (destinationFileName : option string) :
  (forall f commTipTrx,
     quotePublic d parentFolderId filePath destinationFileName
       = Ok (f, commTipTrx) ->
     snd (uploadPublicFile d parentFolderId filePath destinationFileName)
     = [ChunkUpload (dataTrx f); ChunkUpload (metaDataTrx f);
        TipTransfer commTipTrx]
     /\ (fst (submitAll d (dataTrx f) (metaDataTrx f) commTipTrx) = Ok tt ->
         exists r,
           fst (uploadPublicFile d parentFolderId filePath
                  destinationFileName) = Ok r))
  /\
  (forall f commTipTrx,
     quotePrivate d parentFolderId filePath password destinationFileName
       = Ok (f, commTipTrx) ->
     snd (uploadPrivateFile d parentFolderId filePath password
            destinationFileName)
     = [ChunkUpload (dataTrx f); ChunkUpload (metaDataTrx f);
        TipTransfer commTipTrx]
     /\ (fst (submitAll d (dataTrx f) (metaDataTrx f) commTipTrx) = Ok tt ->
         exists r,
           fst (uploadPrivateFile d parentFolderId filePath password
                  destinationFileName) = Ok r)).
Proof.
  split; intros f commTipTrx Hquote.
  - unfold uploadPublicFile. rewrite Hquote, Hpromise. cbn [negb].
    destruct (submitAll d _ _ _) as [[u|e] started] eqn:Hs.
    + unfold submitAll in Hs. injection Hs as _ <-. cbn [fst snd].
      split; [reflexivity|]. intros _. eexists; reflexivity.
    + unfold submitAll in Hs. injection Hs as _ <-. cbn [fst snd].
      split; [reflexivity | discriminate].
  - unfold uploadPrivateFile. rewrite Hquote, Hpromise. cbn [negb].
    destruct (submitAll d _ _ _) as [[u|e] started] eqn:Hs.
    + unfold submitAll in Hs. injection Hs as _ <-. cbn [fst snd].
      split; [reflexivity|]. intros _. eexists; reflexivity.
    + unfold submitAll in Hs. injection Hs as _ <-. cbn [fst snd].
      split; [reflexivity | discriminate].
Qed.

End Upload.

(** A wallet holding nothing: with the check called as the source calls
    it, the upload of fees 100 + 10 + 5 starts its three submissions and
    returns a result. *)
Lemma upload_check_not_awaited_witness :
  snd (ArDrive.uploadPublicFile unawaitedDeps "P" "/tmp/x.txt" None)
  = [ArDrive.ChunkUpload (ArDrive.mkTrx "tx-data" 100 "" "0");
     ArDrive.ChunkUpload (ArDrive.mkTrx "tx-meta" 10 "" "0");
     ArDrive.TipTransfer (ArDrive.mkTrx "tx-tip" 5 "holder-1" "10000000")]
  /\ exists r,
       fst (ArDrive.uploadPrivateFile unawaitedDeps "P" "/tmp/x.txt" "pw"
              None) = Ok r.
Proof.
  destruct (upload_check_not_awaited unawaitedDeps (fun _ => eq_refl)
              "P" "/tmp/x.txt" "pw" None) as [Hpub Hpriv].
  split.
  - exact (proj1 (Hpub _ _ eq_refl)).
  - exact (proj2 (Hpriv _ _ eq_refl) eq_refl).
Defined.

Section UploadKey.
Import ArDrive.

(** C3. Every private upload that succeeds returns exactly one created
    entry, and the key field of that entry is the empty string: the file
    key is not among the values the method computes with. *)
Theorem uploadPrivateFile_returns_empty_key
    (d : Deps) (parentFolderId filePath password : string)
    (destinationFileName : option string)
    (r : ArFSResult) (started : list Submission)
    (Hok : uploadPrivateFile d parentFolderId filePath password
             destinationFileName = (Ok r, started)) :
  exists e, created r = [e] /\ type e = "file" /\ key e = Some "".
Proof.
  unfold uploadPrivateFile in Hok.
  destruct (quotePrivate _ _ _ _ _) as [[f commTipTrx]|]; [|discriminate].
  destruct (negb _); [discriminate|].
  destruct (submitAll _ _ _ _) as [[u|e] s]; [|discriminate].
  injection Hok as <- _. eexists. repeat split.
Qed.

End UploadKey.

Lemma uploadPrivateFile_returns_empty_key_witness :
  exists r started,
    ArDrive.uploadPrivateFile (demoDeps 1000) "P" "/tmp/x.txt" "pw" None
      = (Ok r, started)
    /\ List.length started = 3%nat
    /\ exists e, ArDrive.created r = [e] /\ ArDrive.type e = "file"
                 /\ ArDrive.key e = Some "".
Proof.
  eexists. eexists. split; [reflexivity|]. split; [reflexivity|].
  eapply (uploadPrivateFile_returns_empty_key (demoDeps 1000)
            "P" "/tmp/x.txt" "pw" None).
  reflexivity.
Defined.

(** ** Folder creation: drive consistency and reparenting *)

Section CreateFolder.
Import ArFSDAO.

Variable c : Client.

Lemma syncParent_disabled (getDrive : string -> result ArFSDrive)
    (s : CreateFolderSettings) :
  syncParentFolderId s = Some false ->
  syncParent c getDrive s = Ok (parentFolderId s).
Proof.
  intros H. unfold syncParent. rewrite H, andb_false_r. reflexivity.
Qed.

Lemma syncParent_mismatch (getDrive : string -> result ArFSDrive)
    (s : CreateFolderSettings) (p actualDriveId : string) :
  syncParentFolderId s <> Some false ->
  parentFolderId s = Some p -> truthy p = true ->
  getDriveIdForFolderId c p = Ok actualDriveId ->
  actualDriveId <> driveId s ->
  syncParent c getDrive s = Throw (mismatch (driveId s) actualDriveId).
Proof.
  intros Hsync Hp Ht Hlook Hne. unfold syncParent, given.
  rewrite Hp, Ht, Hlook. cbn [bind andb].
  apply String.eqb_neq in Hne. rewrite Hne.
  destruct (syncParentFolderId s) as [[|]|]; try reflexivity.
  now elim Hsync.
Qed.

Lemma syncParent_reparents (getDrive : string -> result ArFSDrive)
    (s : CreateFolderSettings) (drive : ArFSDrive) :
  syncParentFolderId s <> Some false ->
  given (parentFolderId s) = false ->
  getDrive (driveId s) = Ok drive ->
  truthy (rootFolderId drive) = true ->
  syncParent c getDrive s = Ok (Some (rootFolderId drive)).
Proof.
  intros Hsync Hp Hdrive Hroot. unfold syncParent.
  rewrite Hp, Hdrive. cbn [bind andb]. rewrite Hroot.
  destruct (syncParentFolderId s) as [[|]|]; try reflexivity.
  now elim Hsync.
Qed.

(** Whatever parent [writeFolder] is given is the parent of the prototype
    of the one transaction it has prepared, if any. *)
Lemma writeFolder_parent (s : CreateFolderSettings) (rs : RewardSettings)
    (p : option string) :
  snd (writeFolder c s rs p) = []
  \/ writtenParent (snd (writeFolder c s rs p)) = Some p.
Proof.
  unfold writeFolder.
  destruct (prepareArFSObjectTransaction c _ rs) as [t|e]; [|now left].
  right. destruct (negb (dryRun c)); [|reflexivity].
  destruct (uploadToCompletion c t); reflexivity.
Qed.

(** C4 (amended). With syncParentFolderId enabled (the default), a supplied
    non-empty parent whose looked-up drive ID differs from the stated one
    makes createPublicFolder and createPrivateFolder throw the mismatch
    error with no transaction prepared or uploaded; with no parent supplied
    and a drive that has a root folder, the folder is written with that
    root folder as parent.  With syncParentFolderId disabled neither the
    lookup nor the reparenting takes place. *)
Theorem createFolder_sync_guard (s : CreateFolderSettings) :
  (syncParentFolderId s <> Some false ->
     (forall p actualDriveId,
        parentFolderId s = Some p -> truthy p = true ->
        getDriveIdForFolderId c p = Ok actualDriveId ->
        actualDriveId <> driveId s ->
        createPublicFolder c s
          = (Throw (mismatch (driveId s) actualDriveId), [])
        /\ createPrivateFolder c s
          = (Throw (mismatch (driveId s) actualDriveId), []))
     /\ (forall drive,
           given (parentFolderId s) = false ->
           getPublicDrive c (driveId s) = Ok drive ->
           truthy (rootFolderId drive) = true ->
           createPublicFolder c s
             = writeFolder c s (rewardSettings s) (Some (rootFolderId drive))
           /\ (snd (createPublicFolder c s) = []
               \/ writtenParent (snd (createPublicFolder c s))
                  = Some (Some (rootFolderId drive))))
     /\ (forall drive,
           given (parentFolderId s) = false ->
           getPrivateDrive c (driveId s) (driveKey s) = Ok drive ->
           truthy (rootFolderId drive) = true ->
           createPrivateFolder c s
             = writeFolder c s (mkReward None None)
                 (Some (rootFolderId drive))
           /\ (snd (createPrivateFolder c s) = []
               \/ writtenParent (snd (createPrivateFolder c s))
                  = Some (Some (rootFolderId drive)))))
  /\
  (syncParentFolderId s = Some false ->
     createPublicFolder c s
       = writeFolder c s (rewardSettings s) (parentFolderId s)
     /\ createPrivateFolder c s
       = writeFolder c s (mkReward None None) (parentFolderId s)).
Proof.
  split.
  - intros Hsync. repeat split.
    + unfold createPublicFolder.
      now rewrite (syncParent_mismatch _ s p actualDriveId).
    + unfold createPrivateFolder.
      now rewrite (syncParent_mismatch _ s p actualDriveId).
    + unfold createPublicFolder.
      now rewrite (syncParent_reparents _ s drive).
    + unfold createPublicFolder.
      rewrite (syncParent_reparents _ s drive) by assumption.
      apply writeFolder_parent.
    + unfold createPrivateFolder.
      now rewrite (syncParent_reparents _ s drive).
    + unfold createPrivateFolder.
      rewrite (syncParent_reparents _ s drive) by assumption.
      apply writeFolder_parent.
  - intros Hsync. unfold createPublicFolder, createPrivateFolder.
    now rewrite !syncParent_disabled.
Qed.

End CreateFolder.

(** C4, as stated, fails when syncParentFolderId is false: the parent "P"
    belongs to drive "D2", the folder is nevertheless written into drive
    "D"; and with no parent given the folder is written without a parent
    although the drive has the root folder "R". *)
Lemma createFolder_unsynced_counterexample :
  ArFSDAO.getDriveIdForFolderId demoClient "P" = Ok "D2"
  /\ ArFSDAO.createPublicFolder demoClient
       (demoSettings (Some "P") (Some false))
     = (Ok (ArFSDAO.mkFolderResult "tx-F-new" "42" "F-new"),
        [ArFSDAO.Prepared
           (ArFSDAO.mkFolderMeta "photos" 1600000000 "D" "F-new" (Some "P"))
           (ArFSDAO.mkTrx "tx-F-new" "42");
         ArFSDAO.Uploaded (ArFSDAO.mkTrx "tx-F-new" "42")])
  /\ ArFSDAO.getPublicDrive demoClient "D"
     = Ok (ArFSDAO.mkDrive "D" "drive" "R")
  /\ ArFSDAO.writtenParent
       (snd (ArFSDAO.createPublicFolder demoClient
               (demoSettings None (Some false))))
     = Some None.
Proof. repeat split. Qed.

Lemma createFolder_sync_guard_witness :
  ArFSDAO.createPublicFolder demoClient (demoSettings (Some "P") None)
    = (Throw (ArFSDAO.mismatch "D" "D2"), [])
  /\ ArFSDAO.writtenParent
       (snd (ArFSDAO.createPublicFolder demoClient (demoSettings None None)))
     = Some (Some "R")
  /\ ArFSDAO.writtenParent
       (snd (ArFSDAO.createPrivateFolder demoClient
               (demoSettings None (Some true))))
     = Some (Some "R")
  /\ ArFSDAO.createPublicFolder demoClient
       (demoSettings (Some "P") (Some false))
     = ArFSDAO.writeFolder demoClient (demoSettings (Some "P") (Some false))
         (ArFSDAO.mkReward None None) (Some "P").
Proof.
  split; [|split; [|split]].
  - refine (proj1 (proj1 (proj1 (createFolder_sync_guard demoClient
              (demoSettings (Some "P") None)) _) "P" "D2" _ _ _ _));
      first [reflexivity | discriminate].
  - destruct (proj2 (proj1 (proj2 (proj1 (createFolder_sync_guard demoClient
              (demoSettings None None)) ltac:(discriminate)))
              (ArFSDAO.mkDrive "D" "drive" "R") eq_refl eq_refl eq_refl))
      as [H|H]; [discriminate H | exact H].
  - destruct (proj2 (proj2 (proj2 (proj1 (createFolder_sync_guard demoClient
              (demoSettings None (Some true))) ltac:(discriminate)))
              (ArFSDAO.mkDrive "D" "drive" "R") eq_refl eq_refl eq_refl))
      as [H|H]; [discriminate H | exact H].
  - exact (proj1 (proj2 (createFolder_sync_guard demoClient
              (demoSettings (Some "P") (Some false))) eq_refl)).
Defined.

(** ** Chunked upload with progress *)

Section ChunkedUpload.
Import ArFSDAO.

(** The run on an uploader that is already complete. *)
Lemma send_complete (script : list (option Uploader)) (u : Uploader) :
  isComplete u = true ->
  sendChunkedUploadWithProgress script u = Some (mkRun (Ok tt) [] 0 u).
Proof. intros H. destruct script; simpl; rewrite H; reflexivity. Qed.

Lemma last_default_irrelevant (l : list Uploader) (x d d' : Uploader) :
  last (x :: l) d = last (x :: l) d'.
Proof.
  revert x. induction l as [|y l IH]; intros x; [reflexivity|].
  change (last (y :: l) d = last (y :: l) d'). apply IH.
Qed.

Lemma last_after_chunk (done : list Uploader) (u u' : Uploader) :
  last done u' = last (u' :: done) u.
Proof.
  destruct done as [|x done]; [reflexivity|].
  change (last (x :: done) u' = last (x :: done) u).
  apply last_default_irrelevant.
Qed.

(** The shape of every run that ends. *)
Lemma send_ends_shape
    (script : list (option Uploader)) (u : Uploader) (r : UploadRun)
    (Hrun : sendChunkedUploadWithProgress script u = Some r) :
  outcome r = Ok tt
  /\ (isComplete u = true -> console r = [] /\ chunkSteps r = 0 /\ final r = u)
  /\ exists (done : list Uploader) (rest : list (option Uploader)),
       script = map Some done ++ rest
       /\ console r = map progressOf done
       /\ final r = last done u
       /\ Forall (fun x => isComplete x = false) (removelast (u :: done))
       /\ ((isComplete (final r) = true /\ chunkSteps r = List.length done)
           \/ (isComplete (final r) = false
               /\ (exists rest', rest = None :: rest')
               /\ chunkSteps r = S (List.length done))).
Proof.
  revert u r Hrun.
  induction script as [|a script IH]; intros u r Hrun.
  - simpl in Hrun. destruct (isComplete u) eqn:Hc; [|discriminate].
    injection Hrun as <-. cbn. repeat split.
    exists [], []. cbn. repeat split; auto.
  - simpl in Hrun. destruct (isComplete u) eqn:Hc.
    + injection Hrun as <-. cbn. repeat split.
      exists [], (a :: script). cbn. repeat split; auto.
    + destruct a as [u'|].
      * destruct (sendChunkedUploadWithProgress script u') as [r'|] eqn:Hr';
          [|discriminate].
        injection Hrun as <-. cbn [outcome console chunkSteps final].
        destruct (IH u' r' Hr')
          as (Hout & _ & done & rest & Hs & Hcon & Hfin & Hall & Hend).
        split; [exact Hout|]. split; [discriminate|].
        exists (u' :: done), rest.
        split; [cbn; now rewrite Hs|].
        split; [cbn; now rewrite Hcon|].
        split; [rewrite Hfin; apply last_after_chunk|].
        split.
        { change (removelast (u :: u' :: done))
            with (u :: removelast (u' :: done)).
          constructor; assumption. }
        cbn [List.length].
        destruct Hend as [[H1 H2]|(H1 & H2 & H3)]; [left | right];
          repeat split; auto.
      * injection Hrun as <-. cbn. split; [reflexivity|].
        split; [discriminate|].
        exists [], (None :: script). cbn. repeat split; auto.
        right. repeat split; eauto.
Qed.

(** A null answer after the chunks [done] stops the loop at once. *)
Lemma send_stops_on_null (rest : list (option Uploader)) :
  forall (done : list Uploader) (u : Uploader),
    Forall (fun x => isComplete x = false) (u :: done) ->
    sendChunkedUploadWithProgress (map Some done ++ None :: rest) u
    = Some (mkRun (Ok tt) (map progressOf done) (S (List.length done))
              (last done u)).
Proof.
  induction done as [|u' done IH]; intros u Hall;
    inversion Hall as [|x l Hu Hrest]; subst.
  - cbn. now rewrite Hu.
  - cbn [map app sendChunkedUploadWithProgress]. rewrite Hu.
    rewrite (IH u' Hrest). cbn [outcome console chunkSteps final List.length].
    now rewrite (last_after_chunk done u u').
Qed.

(** The chunks [done], the last of which completes the upload, end the
    loop. *)
Lemma send_completes (rest : list (option Uploader)) :
  forall (done : list Uploader) (u : Uploader),
    Forall (fun x => isComplete x = false) (removelast (u :: done)) ->
    isComplete (last done u) = true ->
    sendChunkedUploadWithProgress (map Some done ++ rest) u
    = Some (mkRun (Ok tt) (map progressOf done) (List.length done)
              (last done u)).
Proof.
  induction done as [|u' done IH]; intros u Hall Hlast.
  - cbn [map app last List.length] in *. now apply send_complete.
  - change (removelast (u :: u' :: done))
      with (u :: removelast (u' :: done)) in Hall.
    inversion Hall as [|x l Hu Hrest]; subst.
    rewrite <- (last_after_chunk done u u') in Hlast.
    cbn [map app sendChunkedUploadWithProgress]. rewrite Hu.
    rewrite (IH u' Hrest Hlast).
    cbn [outcome console chunkSteps final List.length].
    now rewrite (last_after_chunk done u u').
Qed.

(** C6 (amended). sendChunkedUploadWithProgress never throws on account of
    the chunks.  When the uploader answers null after the chunks [done],
    none of which completed the upload, the loop stops at once: the method
    returns normally, with the upload incomplete, after one progress line
    per chunk of [done] and one more chunk call, whatever the uploader
    would have answered next.  When the last chunk of [done] completes the
    upload, it returns after one progress line per chunk, in order, each
    showing the uploader right after that chunk, and makes no further
    call; on an uploader that is already complete it makes no call and
    logs nothing.  Every run that ends is of one of these two kinds. *)
Theorem sendChunkedUploadWithProgress_run (u : Uploader) :
  (forall (done : list Uploader) (rest : list (option Uploader)),
     Forall (fun x => isComplete x = false) (u :: done) ->
     sendChunkedUploadWithProgress (map Some done ++ None :: rest) u
     = Some (mkRun (Ok tt) (map progressOf done) (S (List.length done))
               (last done u)))
  /\ (forall (done : list Uploader) (rest : list (option Uploader)),
        Forall (fun x => isComplete x = false) (removelast (u :: done)) ->
        isComplete (last done u) = true ->
        sendChunkedUploadWithProgress (map Some done ++ rest) u
        = Some (mkRun (Ok tt) (map progressOf done) (List.length done)
                  (last done u)))
  /\ (forall script : list (option Uploader),
        isComplete u = true ->
        sendChunkedUploadWithProgress script u = Some (mkRun (Ok tt) [] 0 u))
  /\ (forall (script : list (option Uploader)) (r : UploadRun),
        sendChunkedUploadWithProgress script u = Some r ->
        outcome r = Ok tt
        /\ exists (done : list Uploader) (rest : list (option Uploader)),
             script = map Some done ++ rest
             /\ console r = map progressOf done
             /\ final r = last done u
             /\ Forall (fun x => isComplete x = false)
                       (removelast (u :: done))
             /\ ((isComplete (final r) = true
                  /\ chunkSteps r = List.length done)
                 \/ (isComplete (final r) = false
                     /\ (exists rest', rest = None :: rest')
                     /\ chunkSteps r = S (List.length done)))).
Proof.
  split; [intros done rest; apply send_stops_on_null|].
  split; [intros done rest; apply send_completes|].
  split; [intros script; apply send_complete|].
  intros script r Hrun.
  destruct (send_ends_shape script u r Hrun) as (Hout & _ & Hshape).
  split; assumption.
Qed.

End ChunkedUpload.

(** C6, as stated, fails on a null chunk: after one chunk of two the
    uploader answers null; the method returns normally, exactly as a
    completed upload does, with the upload still incomplete. *)
Lemma sendChunkedUpload_null_counterexample :
  ArFSDAO.sendChunkedUploadWithProgress [Some chunk1; None] chunk0
  = Some (ArFSDAO.mkRun (Ok tt) [ArFSDAO.mkLine 50 1 2] 2 chunk1)
  /\ ArFSDAO.isComplete chunk1 = false.
Proof. split; reflexivity. Qed.

Lemma sendChunkedUploadWithProgress_run_witness :
  ArFSDAO.sendChunkedUploadWithProgress [Some chunk1; None; Some chunk2]
    chunk0
  = Some (ArFSDAO.mkRun (Ok tt) [ArFSDAO.mkLine 50 1 2] 2 chunk1)
  /\ ArFSDAO.sendChunkedUploadWithProgress [Some chunk1; Some chunk2] chunk0
     = Some (ArFSDAO.mkRun (Ok tt)
               [ArFSDAO.mkLine 50 1 2; ArFSDAO.mkLine 100 2 2] 2 chunk2).
Proof.
  destruct (sendChunkedUploadWithProgress_run chunk0)
    as (Hnull & Hcomplete & _).
  split.
  - apply (Hnull [chunk1] [Some chunk2]).
    repeat constructor.
  - apply (Hcomplete [chunk1; chunk2] []).
    + repeat constructor.
    + reflexivity.
Defined.

(** ** Folder hierarchy: sub-trees *)

Section SubTree.
Import Hierarchy.

Lemma keys_set {V : Type} (d : dict V) (k : string) (v : V) (x : string) :
  In x (keys (set d k v)) <-> x = k \/ In x (keys d).
Proof.
  induction d as [|[k' v'] d IH]; simpl.
  - intuition.
  - destruct (String.eqb_spec k k') as [->|Hne]; simpl.
    + intuition.
    + rewrite IH. intuition.
Qed.

Lemma keys_fold_set {A V : Type} (f : A -> string) (g : A -> V)
    (l : list A) (acc : dict V) (x : string) :
  In x (keys (fold_left (fun a n => set a (f n) (g n)) l acc))
  <-> In x (keys acc) \/ In x (map f l).
Proof.
  revert acc. induction l as [|n l IH]; intros acc; simpl.
  - intuition.
  - rewrite IH, keys_set. intuition.
Qed.


(** C1. On the hierarchy of R, A under R and B under A, subTreeOf(R) has
    the folder IDs R and A only: B descends from R (through A) and is not
    in the result.  nodeAndChildrenOf collects the node and the nodes of
    its children array, and goes no deeper. *)
Theorem subTreeOf_stops_at_children :
  exists h h',
    newFromEntities 3 chainRAB = Some h
    /\ subTreeOf h "R" = Ok h'
    /\ allFolderIDs h' = ["R"; "A"]
    /\ isDescendantOf h "A" "R"
    /\ isDescendantOf h "B" "R"
    /\ ~ In "B" (allFolderIDs h').
Proof.
  eexists. eexists. split; [reflexivity|]. split; [reflexivity|].
  split; [reflexivity|].
  assert (HA : isChildOf
                 (mkHierarchy (entityMapOf chainRAB)
                    [("R", Parentless 0 "R");
                     ("A", ChildOf 1 "A" (Parentless 0 "R"));
                     ("B", ChildOf 2 "B" (ChildOf 1 "A" (Parentless 0 "R")))]
                    [[ChildOf 1 "A" (Parentless 0 "R")];
                     [ChildOf 2 "B" (ChildOf 1 "A" (Parentless 0 "R"))]; []])
                 "A" "R").
  { eexists. eexists. repeat split. }
  split; [apply desc_child; exact HA|].
  split.
  - eapply desc_step; [|apply desc_child; exact HA].
    eexists. eexists. repeat split.
  - simpl. intros [H|[H|[]]]; discriminate H.
Qed.

End SubTree.

(** ** Folder hierarchy: termination of the construction *)

Section Construction.
Import Hierarchy.

(** One call of setupNodesWithEntity returns once the recursion on the
    parent entity has. *)
Lemma setup_after_parent (fuel : nat) (entity : ArFSFileOrFolderEntity)
    (m : dict (option ArFSFileOrFolderEntity)) (b : build) :
  (forall p, entityOf m (parentFolderId entity) = Some p ->
             exists b1, setupNodesWithEntity fuel p m b = Some b1) ->
  exists b', setupNodesWithEntity (S fuel) entity m b = Some b'.
Proof.
  intros Hrec. cbn [setupNodesWithEntity].
  destruct (negb (includes (keys (nodeMap b)) (entityId entity)));
    [|eexists; reflexivity].
  assert (Hlinked : exists b1,
            (if negb (includes (keys (nodeMap b)) (parentFolderId entity))
             then match entityOf m (parentFolderId entity) with
                  | Some parentFolderEntity =>
                      setupNodesWithEntity fuel parentFolderEntity m b
                  | None => Some b
                  end
             else Some b) = Some b1).
  { destruct (negb _); [|eexists; reflexivity].
    destruct (entityOf m (parentFolderId entity)) as [p|];
      [apply Hrec; reflexivity | eexists; reflexivity]. }
  destruct Hlinked as [b1 ->].
  destruct (get (nodeMap b1) (parentFolderId entity)); eexists; reflexivity.
Qed.

Lemma setup_terminates (n : nat) :
  forall (entity : ArFSFileOrFolderEntity)
         (m : dict (option ArFSFileOrFolderEntity)) (b : build),
    chainEnds n m (parentFolderId entity) = true ->
    exists b', setupNodesWithEntity (S n) entity m b = Some b'.
Proof.
  induction n as [|n IH]; intros entity m b Hends;
    apply setup_after_parent; intros p Hp; simpl in Hends; rewrite Hp in Hends.
  - discriminate.
  - apply IH. exact Hends.
Qed.

Lemma setupAll_terminates (n : nat)
    (m : dict (option ArFSFileOrFolderEntity)) :
  forall (entities : list ArFSFileOrFolderEntity) (b : build),
    forallb (fun e => chainEnds n m (parentFolderId e)) entities = true ->
    exists b', setupAll (S n) entities m b = Some b'.
Proof.
  induction entities as [|e entities IH]; intros b Hall.
  - eexists; reflexivity.
  - simpl in Hall. apply andb_prop in Hall as [He Hrest].
    destruct (setup_terminates n e m b He) as [b1 Hb1].
    cbn [setupAll]. rewrite Hb1. apply IH. exact Hrest.
Qed.

(** A folder that is not linked yet and whose parent ID has neither a node
    nor an entity becomes a parentless node: a local root. *)
Lemma setup_local_root (fuel : nat) (entity : ArFSFileOrFolderEntity)
    (m : dict (option ArFSFileOrFolderEntity)) (b : build) :
  includes (keys (nodeMap b)) (entityId entity) = false ->
  includes (keys (nodeMap b)) (parentFolderId entity) = false ->
  entityOf m (parentFolderId entity) = None ->
  setupNodesWithEntity (S fuel) entity m b
  = Some (mkBuild
            (set (nodeMap b) (entityId entity)
                 (Parentless (List.length (nodes b)) (entityId entity)))
            (nodes b ++ [[]])).
Proof.
  intros Hid Hpid Hent. cbn [setupNodesWithEntity].
  rewrite Hid, Hpid, Hent. cbn [negb].
  apply includes_false, get_None in Hpid. rewrite Hpid. reflexivity.
Qed.

(** With no node yet, a call on an entity whose ancestor chain never ends
    does not return, whatever the depth allowed to the recursion. *)
Lemma setup_diverges (m : dict (option ArFSFileOrFolderEntity)) (fuel : nat) :
  forall entity : ArFSFileOrFolderEntity,
    (forall n, chainEnds n m (parentFolderId entity) = false) ->
    setupNodesWithEntity fuel entity m (mkBuild [] []) = None.
Proof.
  induction fuel as [|fuel IH]; intros entity Hloop; [reflexivity|].
  cbn [setupNodesWithEntity nodeMap keys map includes existsb negb].
  pose proof (Hloop 0%nat) as H0. cbn [chainEnds] in H0.
  destruct (entityOf m (parentFolderId entity)) as [p|] eqn:Hp;
    [|discriminate].
  rewrite IH; [reflexivity|].
  intros n. specialize (Hloop (S n)). cbn [chainEnds] in Hloop.
  now rewrite Hp in Hloop.
Qed.

(** C2 (amended). For entities whose IDs and parent IDs are ordinary keys:
    when the ancestor chain of every entity, followed through the entity
    map, ends within [n] parent steps at an ID that has no entity,
    newFromEntities returns, its recursion never being deeper than [n + 1]
    calls; a folder met with no node yet, whose parent ID has neither a
    node nor an entity, becomes a local root; and when the ancestor chain
    of the first entity never ends, newFromEntities does not return,
    whatever depth is allowed to the recursion. *)
Theorem newFromEntities_terminates_on_ending_chains
    (entities : list ArFSFileOrFolderEntity)
    (Hplain : ordinaryIds entities = true) :
  (forall n : nat,
     forallb (fun e => chainEnds n (entityMapOf entities) (parentFolderId e))
             entities = true ->
     exists h, newFromEntities (S n) entities = Some h)
  /\ (forall (fuel : nat) (entity : ArFSFileOrFolderEntity) (b : build),
        ordinary (entityId entity) = true ->
        ordinary (parentFolderId entity) = true ->
        includes (keys (nodeMap b)) (entityId entity) = false ->
        includes (keys (nodeMap b)) (parentFolderId entity) = false ->
        entityOf (entityMapOf entities) (parentFolderId entity) = None ->
        setupNodesWithEntity (S fuel) entity (entityMapOf entities) b
        = Some (mkBuild
                  (set (nodeMap b) (entityId entity)
                       (Parentless (List.length (nodes b)) (entityId entity)))
                  (nodes b ++ [[]])))
  /\ (forall (first : ArFSFileOrFolderEntity)
             (rest : list ArFSFileOrFolderEntity),
        entities = first :: rest ->
        (forall n, chainEnds n (entityMapOf entities) (parentFolderId first)
                   = false) ->
        forall fuel, newFromEntities fuel entities = None).
Proof.
  split; [|split].
  - intros n Hends. unfold newFromEntities.
    destruct (setupAll_terminates n (entityMapOf entities) entities
                (mkBuild [] []) Hends) as [b' ->].
    eexists; reflexivity.
  - intros fuel entity b _ _. apply setup_local_root.
  - intros first rest Hfirst Hloop fuel. unfold newFromEntities.
    subst entities. cbn [setupAll].
    now rewrite (setup_diverges _ fuel first Hloop).
Qed.

(** On the two-folder cycle no call ever returns, whatever the fuel. *)
Lemma setup_cycle_diverges (fuel : nat) :
  setupNodesWithEntity fuel (folder "A" "B" "a") (entityMapOf cycleAB)
    (mkBuild [] []) = None
  /\ setupNodesWithEntity fuel (folder "B" "A" "b") (entityMapOf cycleAB)
       (mkBuild [] []) = None.
Proof.
  induction fuel as [|fuel [IHa IHb]]; [split; reflexivity|].
  split.
  - change (match setupNodesWithEntity fuel (folder "B" "A" "b")
                    (entityMapOf cycleAB) (mkBuild [] []) with
            | None => None
            | Some b1 =>
                match get (nodeMap b1) "B" with
                | Some parentNode =>
                    let (node, st) := newNode (nodes b1) "A" (Some parentNode)
                    in Some (mkBuild (set (nodeMap b1) "A" node)
                               (push st (ref parentNode) node))
                | None =>
                    let (rootNode, st) := newNode (nodes b1) "A" None in
                    Some (mkBuild (set (nodeMap b1) "A" rootNode) st)
                end
            end = None).
    now rewrite IHb.
  - change (match setupNodesWithEntity fuel (folder "A" "B" "a")
                    (entityMapOf cycleAB) (mkBuild [] []) with
            | None => None
            | Some b1 =>
                match get (nodeMap b1) "A" with
                | Some parentNode =>
                    let (node, st) := newNode (nodes b1) "B" (Some parentNode)
                    in Some (mkBuild (set (nodeMap b1) "B" node)
                               (push st (ref parentNode) node))
                | None =>
                    let (rootNode, st) := newNode (nodes b1) "B" None in
                    Some (mkBuild (set (nodeMap b1) "B" rootNode) st)
                end
            end = None).
    now rewrite IHa.
Qed.

End Construction.

(** C2, as stated, fails on a cycle: for two folders naming each other as
    parent, newFromEntities never returns, with any bound on the depth of
    the recursion. *)
Lemma newFromEntities_cycle_counterexample :
  ~ exists fuel h, Hierarchy.newFromEntities fuel cycleAB = Some h.
Proof.
  intros (fuel & h & H). unfold Hierarchy.newFromEntities in H.
  destruct fuel as [|fuel]; [discriminate H|].
  cbn [cycleAB Hierarchy.setupAll] in H.
  rewrite (proj1 (setup_cycle_diverges (S fuel))) in H. discriminate H.
Qed.

(** On the two-folder cycle no ancestor chain ends. *)
Lemma cycleAB_never_ends (n : nat) :
  Hierarchy.chainEnds n (Hierarchy.entityMapOf cycleAB) "A" = false
  /\ Hierarchy.chainEnds n (Hierarchy.entityMapOf cycleAB) "B" = false.
Proof.
  induction n as [|n [IHa IHb]]; [split; reflexivity|].
  split.
  - change (Hierarchy.chainEnds n (Hierarchy.entityMapOf cycleAB) "B"
            = false). exact IHb.
  - change (Hierarchy.chainEnds n (Hierarchy.entityMapOf cycleAB) "A"
            = false). exact IHa.
Qed.

Lemma newFromEntities_terminates_on_ending_chains_witness :
  (exists h, Hierarchy.newFromEntities 3 chainRAB = Some h)
  /\ Hierarchy.setupNodesWithEntity 1 (folder "R" "root folder" "root")
       (Hierarchy.entityMapOf chainRAB) (Hierarchy.mkBuild [] [])
     = Some (Hierarchy.mkBuild [("R", Hierarchy.Parentless 0 "R")] [[]])
  /\ forall fuel, Hierarchy.newFromEntities fuel cycleAB = None.
Proof.
  destruct (newFromEntities_terminates_on_ending_chains chainRAB eq_refl)
    as (Hreturns & Hroot & _).
  split; [exact (Hreturns 2%nat eq_refl)|]. split.
  - exact (Hroot 0%nat (folder "R" "root folder" "root")
             (Hierarchy.mkBuild [] []) eq_refl eq_refl eq_refl eq_refl
             eq_refl).
  - exact (proj2 (proj2 (newFromEntities_terminates_on_ending_chains cycleAB
                           eq_refl))
             _ _ eq_refl (fun n => proj2 (cycleAB_never_ends n))).
Defined.

(** ** Folder hierarchy: the three paths of a decorated entity *)

Section Paths.
Import Hierarchy.

Lemma append_assoc (a b c : string) : ((a ++ b) ++ c = a ++ (b ++ c))%string.
Proof. induction a as [|ch a IH]; simpl; [reflexivity | now rewrite IH]. Qed.

Lemma segments_not_nil (s : string) : segments s <> [].
Proof.
  induction s as [|ch s IH]; simpl; [discriminate|].
  destruct (Ascii.eqb ch "/"); [discriminate|].
  destruct (segments s); discriminate.
Qed.

Lemma segments_slashFree (a : string) :
  slashFree a = true -> segments a = [a].
Proof.
  induction a as [|ch a IH]; simpl; [reflexivity|].
  intros H. apply andb_prop in H as [Hc Ha].
  apply negb_true_iff in Hc. rewrite Hc, (IH Ha). reflexivity.
Qed.

Lemma segments_app_slash (a b : string) :
  slashFree a = true ->
  segments (a ++ String "/" b) = a :: segments b.
Proof.
  induction a as [|ch a IH]; simpl; [reflexivity|].
  intros H. apply andb_prop in H as [Hc Ha].
  apply negb_true_iff in Hc. rewrite Hc, (IH Ha). reflexivity.
Qed.

Lemma join_cons (x y : string) (l : list string) :
  join (x :: y :: l) = (x ++ String "/" (join (y :: l)))%string.
Proof. reflexivity. Qed.

Lemma join_snoc (l : list string) (x : string) :
  l <> [] -> join (l ++ [x]) = (join l ++ String "/" x)%string.
Proof.
  induction l as [|a l IH]; [congruence|]. intros _.
  destruct l as [|b l]; [reflexivity|].
  change ((a :: b :: l) ++ [x]) with (a :: (b :: l) ++ [x]).
  change ((b :: l) ++ [x]) with (b :: l ++ [x]).
  rewrite join_cons. change (b :: l ++ [x]) with ((b :: l) ++ [x]).
  rewrite IH by discriminate.
  rewrite join_cons, append_assoc. reflexivity.
Qed.

Lemma segments_join (l : list string) :
  l <> [] -> forallb slashFree l = true -> segments (join l) = l.
Proof.
  induction l as [|a l IH]; [congruence|]. intros _ H.
  simpl in H. apply andb_prop in H as [Ha Hl].
  destruct l as [|b l].
  - apply segments_slashFree, Ha.
  - rewrite join_cons, segments_app_slash by exact Ha.
    rewrite IH by (discriminate || exact Hl). reflexivity.
Qed.

(** The segments of ["/" ++ parts.join("/")] are the empty string before
    the leading slash, then the parts, when no part holds a slash. *)
Lemma segments_rooted (l : list string) :
  l <> [] -> forallb slashFree l = true ->
  segments ("/" ++ join l) = "" :: l.
Proof.
  intros Hne H. change ("/" ++ join l)%string with (String "/" (join l)).
  cbn [segments]. rewrite Ascii.eqb_refl, segments_join by assumption.
  reflexivity.
Qed.

(** A path to a folder, then the entity's own part. *)
Lemma slashed_then (l : list string) (x : string) :
  l <> [] -> (slashed l ++ x = "/" ++ join (l ++ [x]))%string.
Proof.
  intros Hne. unfold slashed. rewrite join_snoc by exact Hne.
  rewrite !append_assoc. reflexivity.
Qed.

Lemma mapM_entities {B : Type} (m : dict (option ArFSFileOrFolderEntity))
    (g : ArFSFileOrFolderEntity -> B) (ns : list FolderTreeNode)
    (ys : list B) :
  mapM (fun n => match entityOf m (folderId n) with
                 | Some e => Ok (g e)
                 | None => Throw TypeError
                 end) ns = Ok ys ->
  exists line,
    Forall2 (fun n e => entityOf m (folderId n) = Some e) ns line
    /\ ys = map g line.
Proof.
  revert ys. induction ns as [|n ns IH]; intros ys H; simpl in H.
  - injection H as <-. exists []. split; [constructor | reflexivity].
  - destruct (entityOf m (folderId n)) as [e|] eqn:He; [|discriminate].
    cbn [bind] in H.
    destruct (mapM _ ns) as [ys'|] eqn:Hys; [|discriminate].
    cbn [bind] in H. injection H as <-.
    destruct (IH ys' eq_refl) as (line & HF & ->).
    exists (e :: line). split; [constructor; assumption | reflexivity].
Qed.

Lemma line_unique (m : dict (option ArFSFileOrFolderEntity))
    (ns : list FolderTreeNode) (l1 l2 : list ArFSFileOrFolderEntity) :
  Forall2 (fun n e => entityOf m (folderId n) = Some e) ns l1 ->
  Forall2 (fun n e => entityOf m (folderId n) = Some e) ns l2 ->
  l1 = l2.
Proof.
  intros H1. revert l2. induction H1 as [|n e ns l1 He _ IH]; intros l2 H2.
  - inversion H2. reflexivity.
  - inversion H2 as [|n' e' ns' l2' He' H2' E1 E2]; subst.
    rewrite He in He'. injection He' as <-. f_equal. apply IH, H2'.
Qed.

Lemma nodesInPathToFolder_not_nil (rootId : string) (n : FolderTreeNode) :
  nodesInPathToFolder rootId n <> [].
Proof.
  destruct n as [r f|r f p]; simpl; [discriminate|].
  destruct (negb (String.eqb f rootId)); discriminate.
Qed.

Lemma olderFirstNodes_not_nil (h : FolderHierarchy) (fid : string)
    (ns : list FolderTreeNode) :
  olderFirstNodes h fid = Ok (Some ns) -> ns <> [].
Proof.
  unfold olderFirstNodes. destruct (rootNode h) as [root|]; [|discriminate].
  cbn [bind]. destruct (parent root); [discriminate|].
  destruct (String.eqb fid "root folder"); [discriminate|].
  destruct (get (folderIdToNodeMap h) fid) as [n|]; [|discriminate].
  intros H. injection H as <-. intros Hnil.
  apply (f_equal (@rev _)) in Hnil. rewrite rev_involutive in Hnil.
  exact (nodesInPathToFolder_not_nil _ _ Hnil).
Qed.

(** The shape of the three paths: one part per node of the walk from the
    root to the parent folder, then the entity's own part. *)
Lemma withPaths_shape (h : FolderHierarchy) (entity : ArFSFileOrFolderEntity)
    (d : ArFSWithPath) :
  ArFSPublicFileOrFolderWithPaths entity h = Ok d ->
  exists (ns : list FolderTreeNode) (line : list ArFSFileOrFolderEntity),
    Forall2 (fun n e => entityOf (folderIdToEntityMap h) (folderId n) = Some e)
            ns line
    /\ path d = ("/" ++ join (map name line ++ [name entity]))%string
    /\ txIdPath d = ("/" ++ join (map txId line ++ [txId entity]))%string
    /\ entityIdPath d
       = ("/" ++ join (map folderId ns ++ [entityId entity]))%string.
Proof.
  unfold ArFSPublicFileOrFolderWithPaths, pathToFolderId, txPathToFolderId,
    entityPathToFolderId.
  destruct (olderFirstNodes h (parentFolderId entity)) as [[ns|]|] eqn:Hwalk;
    cbn [bind]; [| |discriminate].
  - pose proof (olderFirstNodes_not_nil _ _ _ Hwalk) as Hne.
    destruct (mapM _ ns) as [names|] eqn:Hnames; [|discriminate].
    cbn [bind].
    destruct (mapM (fun n => match entityOf _ (folderId n) with
                             | Some e => Ok (txId e)
                             | None => Throw TypeError
                             end) ns) as [txs|] eqn:Htxs; [|discriminate].
    cbn [bind]. intros H. injection H as <-.
    destruct (mapM_entities _ _ _ _ Hnames) as (line & HF & ->).
    destruct (mapM_entities _ _ _ _ Htxs) as (line' & HF' & ->).
    rewrite (line_unique _ _ _ _ HF' HF).
    assert (Hline : line <> []).
    { intros ->. inversion HF. subst. now apply Hne. }
    exists ns, line. cbn [path txIdPath entityIdPath].
    split; [exact HF|].
    split; [|split].
    + apply (slashed_then (map name line) (name entity)).
      destruct line; [congruence | discriminate].
    + apply (slashed_then (map txId line) (txId entity)).
      destruct line; [congruence | discriminate].
    + apply (slashed_then (map folderId ns) (entityId entity)).
      destruct ns; [congruence | discriminate].
  - intros H. injection H as <-. exists [], [].
    split; [constructor|]. repeat split.
Qed.

(** C9 (amended). The three paths of a decorated entity are built over one
    walk: part i of the entity-ID path is the folder ID of the i-th node of
    the walk, and part i of the name and transaction-ID paths is the name
    and the transaction ID of the entity registered under that folder ID;
    the last part of each path is the entity's own.  Whenever no part of a
    path holds a slash, the '/'-separated segments of that path are the
    empty segment before the leading slash followed by exactly these
    parts; when this is so for all three paths they have the same number
    of segments. *)
Theorem withPaths_segments_correspond
    (h : FolderHierarchy) (entity : ArFSFileOrFolderEntity) (d : ArFSWithPath)
    (Hd : ArFSPublicFileOrFolderWithPaths entity h = Ok d) :
  exists (ns : list FolderTreeNode) (line : list ArFSFileOrFolderEntity),
    Forall2 (fun n e => entityOf (folderIdToEntityMap h) (folderId n) = Some e)
            ns line
    /\ path d = ("/" ++ join (map name line ++ [name entity]))%string
    /\ txIdPath d = ("/" ++ join (map txId line ++ [txId entity]))%string
    /\ entityIdPath d
       = ("/" ++ join (map folderId ns ++ [entityId entity]))%string
    /\ (forallb slashFree (map name line ++ [name entity]) = true ->
        segments (path d) = "" :: map name line ++ [name entity])
    /\ (forallb slashFree (map txId line ++ [txId entity]) = true ->
        segments (txIdPath d) = "" :: map txId line ++ [txId entity])
    /\ (forallb slashFree (map folderId ns ++ [entityId entity]) = true ->
        segments (entityIdPath d)
        = "" :: map folderId ns ++ [entityId entity])
    /\ (forallb slashFree (map name line ++ [name entity]) = true ->
        forallb slashFree (map txId line ++ [txId entity]) = true ->
        forallb slashFree (map folderId ns ++ [entityId entity]) = true ->
        List.length (segments (path d)) = List.length (segments (txIdPath d))
        /\ List.length (segments (txIdPath d))
           = List.length (segments (entityIdPath d))).
Proof.
  destruct (withPaths_shape h entity d Hd) as (ns & line & HF & Hp & Ht & Hi).
  assert (Snoc : forall (l : list string) x, l ++ [x] <> []).
  { intros l x. destruct l; discriminate. }
  assert (Sp : forallb slashFree (map name line ++ [name entity]) = true ->
               segments (path d) = "" :: map name line ++ [name entity]).
  { intros H. rewrite Hp. apply segments_rooted; [apply Snoc | exact H]. }
  assert (St : forallb slashFree (map txId line ++ [txId entity]) = true ->
               segments (txIdPath d) = "" :: map txId line ++ [txId entity]).
  { intros H. rewrite Ht. apply segments_rooted; [apply Snoc | exact H]. }
  assert (Si : forallb slashFree (map folderId ns ++ [entityId entity]) = true ->
               segments (entityIdPath d)
               = "" :: map folderId ns ++ [entityId entity]).
  { intros H. rewrite Hi. apply segments_rooted; [apply Snoc | exact H]. }
  exists ns, line. repeat (split; [assumption|]).
  intros H1 H2 H3. rewrite (Sp H1), (St H2), (Si H3).
  cbn [List.length]. rewrite !length_app, !length_map.
  rewrite (Forall2_length HF). split; reflexivity.
Qed.

End Paths.

(** C9, as stated, fails when a name holds a slash: under the root folder
    R named "a/b" the file X gets the name path "/a/b/x.txt" of four
    segments, and ID and transaction-ID paths of three. *)
Lemma withPaths_slash_counterexample :
  exists h d,
    Hierarchy.newFromEntities 1 slashedRoot = Some h
    /\ Hierarchy.ArFSPublicFileOrFolderWithPaths (folder "X" "R" "x.txt") h
       = Ok d
    /\ Hierarchy.path d = "/a/b/x.txt"
    /\ Hierarchy.entityIdPath d = "/R/X"
    /\ Hierarchy.txIdPath d = "/tx-R/tx-X"
    /\ List.length (Hierarchy.segments (Hierarchy.path d)) = 4%nat
    /\ List.length (Hierarchy.segments (Hierarchy.entityIdPath d)) = 3%nat
    /\ List.length (Hierarchy.segments (Hierarchy.txIdPath d)) = 3%nat.
Proof. eexists. eexists. repeat split. Qed.

Lemma withPaths_segments_correspond_witness :
  exists h d,
    Hierarchy.newFromEntities 3 chainRAB = Some h
    /\ Hierarchy.ArFSPublicFileOrFolderWithPaths (folder "X" "B" "x.txt") h
       = Ok d
    /\ Hierarchy.segments (Hierarchy.path d) = [""; "root"; "a"; "b"; "x.txt"]
    /\ Hierarchy.segments (Hierarchy.entityIdPath d) = [""; "R"; "A"; "B"; "X"]
    /\ exists ns line,
         Forall2 (fun n e =>
                    Hierarchy.entityOf (Hierarchy.folderIdToEntityMap h)
                      (Hierarchy.folderId n) = Some e) ns line
         /\ Hierarchy.path d
            = ("/" ++ Hierarchy.join
                        (map Hierarchy.name line ++ ["x.txt"]))%string.
Proof.
  eexists. eexists. split; [reflexivity|]. split; [reflexivity|].
  split; [reflexivity|]. split; [reflexivity|].
  match goal with
  | |- context [Hierarchy.folderIdToEntityMap ?h] =>
      match goal with
      | |- context [Hierarchy.path ?d] =>
          destruct (withPaths_segments_correspond h (folder "X" "B" "x.txt")
                      d eq_refl) as (ns & line & HF & Hp & _)
      end
  end.
  exists ns, line. split; [exact HF | exact Hp].
Defined.

(** ** Token holder selection *)


Lemma sumZ_set_bound (d : dict Z) (k : string) (x v : Z) :
  get d k = Some x ->
  sumZ (map snd (set d k v)) = (sumZ (map snd d) - x + v)%Z.
Proof.
  induction d as [|[k' v'] d IH]; simpl; [discriminate|].
  destruct (String.eqb_spec k k') as [->|Hk]; simpl.
  - intros E. injection E as ->. lia.
  - intros E. rewrite (IH E). lia.
Qed.

Lemma sumZ_set_fresh (d : dict Z) (k : string) (v : Z) :
  get d k = None ->
  sumZ (map snd (set d k v)) = (sumZ (map snd d) + v)%Z.
Proof.
  intros H. apply get_None in H. rewrite set_fresh by exact H.
  rewrite map_app. unfold sumZ. rewrite fold_right_app. simpl.
  induction (map snd d) as [|y l IH]; simpl; lia.
Qed.

Section Staking.
Import ArDriveCommunityOracle.

Variable v : dict (list VaultEntry).

Lemma fold_balances (b : dict Z) (l : list (string * Z)) (t0 : Z) :
  (forall k x, In (k, x) l -> get b k = Some x) ->
  fold_left (fun total addr =>
               match get b addr with
               | Some x => (total + x)%Z
               | None => total
               end) (map fst l) t0
  = (t0 + sumZ (map snd l))%Z.
Proof.
  revert t0. induction l as [|[k x] l IH]; intros t0 H; simpl.
  - lia.
  - rewrite (H k x) by now left. rewrite IH; [lia|].
    intros k' x' Hin. apply H. now right.
Qed.

Lemma sumOfBalances_sum (b : dict Z) :
  uniqueKeys (keys b) = true -> sumOfBalances b = sumZ (map snd b).
Proof.
  intros H. unfold sumOfBalances, keys. rewrite fold_balances; [lia|].
  intros k x. now apply get_binding.
Qed.

Lemma foldVault_total (acc : Z * dict Z) (k : string) :
  fst acc = sumZ (map snd (snd acc)) ->
  fst (foldVault v acc k) = sumZ (map snd (snd (foldVault v acc k))).
Proof.
  destruct acc as [total b]. unfold foldVault. simpl. intros ->.
  destruct (get v k) as [[|e es]|]; simpl; try reflexivity.
  destruct (get b k) as [x|] eqn:Hx.
  - rewrite (sumZ_set_bound _ _ x) by exact Hx. lia.
  - now rewrite sumZ_set_fresh.
Qed.

Lemma foldVault_unique (acc : Z * dict Z) (k : string) :
  uniqueKeys (keys (snd acc)) = true ->
  uniqueKeys (keys (snd (foldVault v acc k))) = true.
Proof.
  destruct acc as [total b]. unfold foldVault. simpl. intros H.
  destruct (get v k) as [[|e es]|]; simpl; try exact H.
  destruct (get b k); now apply uniqueKeys_set.
Qed.

Lemma staking_invariants (ks : list string) :
  forall acc : Z * dict Z,
    fst acc = sumZ (map snd (snd acc)) ->
    uniqueKeys (keys (snd acc)) = true ->
    let r := fold_left (foldVault v) ks acc in
    fst r = sumZ (map snd (snd r)) /\ uniqueKeys (keys (snd r)) = true.
Proof.
  induction ks as [|k ks IH]; intros acc Ht Hu; simpl; [now split|].
  apply IH; [now apply foldVault_total | now apply foldVault_unique].
Qed.




(** Building the weighted table from a table with unique keys maps every
    binding to its weight, in place. *)
Lemma uniqueKeys_app_notin (l1 l2 : list string) (k : string) :
  uniqueKeys (l1 ++ k :: l2) = true -> ~ In k l1.
Proof.
  induction l1 as [|x l1 IH]; simpl; [tauto|].
  intros H. apply andb_prop in H as [Hx Hl].
  apply negb_true_iff, includes_false in Hx.
  intros [->|Hin]; [|now apply IH].
  apply Hx. rewrite in_app_iff. right. now left.
Qed.

Lemma fold_weights (b : dict Z) (g : Z -> number) (l : list (string * Z)) :
  (forall k x, In (k, x) l -> get b k = Some x) ->
  forall w0 : dict number,
    uniqueKeys (keys w0 ++ map fst l) = true ->
    fold_left (fun weighted addr =>
                 match get b addr with
                 | Some x => set weighted addr (g x)
                 | None => weighted
                 end) (map fst l) w0
    = w0 ++ map (fun kx => (fst kx, g (snd kx))) l.
Proof.
  intros Hb. induction l as [|[k x] l IH]; intros w0 Hu; simpl.
  - now rewrite app_nil_r.
  - rewrite (Hb k x) by now left.
    rewrite set_fresh by (eapply uniqueKeys_app_notin; exact Hu).
    rewrite IH.
    + now rewrite <- app_assoc.
    + intros k' x' Hin. apply Hb. now right.
    + unfold keys. rewrite map_app, <- app_assoc. exact Hu.
Qed.

End Staking.

Section Weights.
Import ArDriveCommunityOracle.

Lemma weightedOf_map (c : Contract) :
  uniqueKeys (keys (balances c)) = true ->
  weightedOf c
  = map (fun kx => (fst kx, divide (snd kx) (fst (staked c))))
        (snd (staked c)).
Proof.
  intros Hb. unfold weightedOf.
  assert (Hu : uniqueKeys (keys (snd (staked c))) = true).
  { apply staking_invariants; [now apply sumOfBalances_sum | exact Hb]. }
  destruct (staked c) as [total b]. cbn [fst snd] in *.
  unfold keys at 1. rewrite fold_weights; [reflexivity | | exact Hu].
  intros k x. now apply get_binding.
Qed.






Lemma get_map_weight (b : dict Z) (g : Z -> number) (a : string) :
  get (map (fun kx => (fst kx, g (snd kx))) b) a = option_map g (get b a).
Proof.
  induction b as [|[k x] b IH]; simpl; [reflexivity|].
  destruct (String.eqb a k); [reflexivity | exact IH].
Qed.

End Weights.

Section SelectTokenHolder.
Import ArDriveCommunityOracle.

Variable weightedRandom : dict number -> option string.

(** The sampler draws from the table it is given. *)
Hypothesis weightedRandom_draws :
  forall (t : dict number) (a : string),
    weightedRandom t = Some a -> In a (keys t).



End SelectTokenHolder.



(** ** Folder hierarchy: what the construction keeps *)

Section EntityMap.
Import Hierarchy.

Lemma find_app {A : Type} (p : A -> bool) (l1 l2 : list A) :
  find p (l1 ++ l2)
  = match find p l1 with Some x => Some x | None => find p l2 end.
Proof.
  induction l1 as [|x l1 IH]; simpl; [reflexivity|].
  destruct (p x); [reflexivity | exact IH].
Qed.

Lemma get_fold_set {A V : Type} (f : A -> string) (g : A -> V)
    (l : list A) :
  forall (acc : dict V) (x : string),
    get (fold_left (fun a n => set a (f n) (g n)) l acc) x
    = match find (fun n => String.eqb (f n) x) (rev l) with
      | Some n => Some (g n)
      | None => get acc x
      end.
Proof.
  induction l as [|n l IH]; intros acc x; [reflexivity|].
  cbn [fold_left rev]. rewrite IH, find_app.
  destruct (find _ (rev l)); [reflexivity|].
  cbn [find]. destruct (String.eqb_spec (f n) x) as [<-|Hne].
  - apply get_set_same.
  - apply get_set_other. congruence.
Qed.

Lemma uniqueKeys_fold_set {A V : Type} (f : A -> string) (g : A -> V)
    (l : list A) :
  forall acc : dict V,
    uniqueKeys (keys acc) = true ->
    uniqueKeys (keys (fold_left (fun a n => set a (f n) (g n)) l acc)) = true.
Proof.
  induction l as [|n l IH]; intros acc H; [exact H|].
  cbn [fold_left]. apply IH. now apply uniqueKeys_set.
Qed.

(** The entity registered under an ID is the last one of the list that
    carries it. *)
Lemma entityOf_entityMapOf (entities : list ArFSFileOrFolderEntity)
    (x : string) :
  entityOf (entityMapOf entities) x
  = find (fun e => String.eqb (entityId e) x) (rev entities).
Proof.
  unfold entityOf, entityMapOf.
  rewrite (get_fold_set entityId (fun e => Some e)).
  destruct (find _ (rev entities)); reflexivity.
Qed.

Lemma entityOf_keyed (entities : list ArFSFileOrFolderEntity)
    (k : string) (e : ArFSFileOrFolderEntity) :
  entityOf (entityMapOf entities) k = Some e ->
  In e entities /\ entityId e = k.
Proof.
  rewrite entityOf_entityMapOf. intros H. apply find_some in H as [Hin He].
  apply in_rev in Hin. apply String.eqb_eq in He. now split.
Qed.

Lemma keys_entityMapOf (entities : list ArFSFileOrFolderEntity)
    (x : string) :
  In x (keys (entityMapOf entities))
  <-> exists e, In e entities /\ entityId e = x.
Proof.
  unfold entityMapOf.
  rewrite (keys_fold_set entityId (fun e => Some e)). simpl.
  rewrite in_map_iff. split.
  - intros [[]|(e & He & Hin)]. exists e. now split.
  - intros (e & Hin & He). right. exists e. now split.
Qed.

Lemma entityOf_registered (entities : list ArFSFileOrFolderEntity)
    (x : string) :
  In x (keys (entityMapOf entities)) ->
  entityOf (entityMapOf entities) x <> None.
Proof.
  intros H. apply keys_entityMapOf in H as (e & Hin & He).
  rewrite entityOf_entityMapOf.
  destruct (find _ (rev entities)) eqn:Hf; [discriminate|].
  apply in_rev in Hin. apply (find_none _ _ Hf e) in Hin.
  subst x. now rewrite String.eqb_refl in Hin.
Qed.

Lemma newFromEntities_maps (fuel : nat)
    (entities : list ArFSFileOrFolderEntity) (h : FolderHierarchy) :
  newFromEntities fuel entities = Some h ->
  folderIdToEntityMap h = entityMapOf entities
  /\ exists b,
       setupAll fuel entities (entityMapOf entities) (mkBuild [] []) = Some b
       /\ folderIdToNodeMap h = nodeMap b /\ heap h = nodes b.
Proof.
  unfold newFromEntities.
  destruct (setupAll fuel entities _ _) as [b|]; [|discriminate].
  intros H. injection H as <-. split; [reflexivity|].
  exists b. repeat split.
Qed.

(** X1. For entities whose IDs and parent IDs are ordinary keys: once
    newFromEntities has returned, allFolderIDs lists exactly the entity IDs
    of the input, each once, and the entity the map answers for an
    ordinary ID is the last entity of the input carrying it, or none. *)
Theorem newFromEntities_folder_ids (fuel : nat)
    (entities : list ArFSFileOrFolderEntity) (h : FolderHierarchy)
    (Hplain : ordinaryIds entities = true)
    (Hbuilt : newFromEntities fuel entities = Some h) :
  (forall x, In x (allFolderIDs h)
             <-> exists e, In e entities /\ entityId e = x)
  /\ uniqueKeys (allFolderIDs h) = true
  /\ (forall x, ordinary x = true ->
                entityOf (folderIdToEntityMap h) x
                = find (fun e => String.eqb (entityId e) x) (rev entities)).
Proof.
  destruct (newFromEntities_maps _ _ _ Hbuilt) as [Hm _].
  unfold allFolderIDs. rewrite Hm. split; [|split].
  - apply keys_entityMapOf.
  - unfold entityMapOf.
    now apply (uniqueKeys_fold_set entityId (fun e => Some e)).
  - intros x _. apply entityOf_entityMapOf.
Qed.

End EntityMap.

Lemma newFromEntities_folder_ids_witness :
  exists h,
    Hierarchy.newFromEntities 3 chainRAB = Some h
    /\ (In "B" (Hierarchy.allFolderIDs h)
        <-> exists e, In e chainRAB /\ Hierarchy.entityId e = "B")
    /\ uniqueKeys (Hierarchy.allFolderIDs h) = true.
Proof.
  eexists. split; [reflexivity|].
  match goal with
  | |- context [Hierarchy.allFolderIDs ?h] =>
      destruct (newFromEntities_folder_ids 3 chainRAB h eq_refl eq_refl)
        as (Hids & Huniq & _)
  end.
  split; [apply Hids | exact Huniq].
Defined.

Section BuildInvariant.
Import Hierarchy.

Variable entities : list ArFSFileOrFolderEntity.
Variable m : dict (option ArFSFileOrFolderEntity).

Hypothesis m_keyed :
  forall k e, entityOf m k = Some e -> In e entities /\ entityId e = k.
Hypothesis m_registered :
  forall e, In e entities -> entityOf m (entityId e) <> None.

Lemma chainKnown_mono (nm nm' : dict FolderTreeNode) (n : FolderTreeNode) :
  (forall x, In x (keys nm) -> In x (keys nm')) ->
  chainKnown nm m n -> chainKnown nm' m n.
Proof.
  intros Hsub. induction n as [r f|r f p IH]; simpl.
  - intros (H1 & H2 & _). repeat split; auto.
  - intros (H1 & H2 & H3). repeat split; auto.
Qed.

Lemma nth_snoc_empty (st : store) (r : nat) (c : FolderTreeNode) :
  In c (nth r (st ++ [[]]) []) -> In c (nth r st []).
Proof.
  destruct (Nat.lt_ge_cases r (List.length st)) as [Hlt|Hge].
  - now rewrite app_nth1.
  - rewrite app_nth2 by exact Hge.
    destruct (r - List.length st)%nat as [|[|k]]; intros [].
Qed.

Lemma nth_push (st : store) :
  forall (r r' : nat) (n c : FolderTreeNode),
    In c (nth r (push st r' n) []) ->
    In c (nth r st []) \/ (r = r' /\ c = n).
Proof.
  induction st as [|cs st IH]; intros r r' n c H.
  - now left.
  - destruct r' as [|r']; destruct r as [|r]; simpl in H |- *.
    + apply in_app_iff in H as [H|[<-|[]]]; [now left | now right].
    + now left.
    + now left.
    + destruct (IH r r' n c H) as [Hin|[-> ->]]; [now left | now right].
Qed.

(** The last step of setupNodesWithEntity keeps the invariant. *)
Lemma attach_kept (b1 b' : build) (entity : ArFSFileOrFolderEntity) :
  kept entities m b1 ->
  In entity entities ->
  (get (nodeMap b1) (parentFolderId entity) = None ->
   entityOf m (parentFolderId entity) = None) ->
  match get (nodeMap b1) (parentFolderId entity) with
  | Some parentNode =>
      let (node, st) :=
        newNode (nodes b1) (entityId entity) (Some parentNode) in
      Some (mkBuild (set (nodeMap b1) (entityId entity) node)
                    (push st (ref parentNode) node))
  | None =>
      let (rootNode, st) := newNode (nodes b1) (entityId entity) None in
      Some (mkBuild (set (nodeMap b1) (entityId entity) rootNode) st)
  end = Some b' ->
  kept entities m b'
  /\ In (entityId entity) (keys (nodeMap b'))
  /\ (forall x, In x (keys (nodeMap b1)) -> In x (keys (nodeMap b'))).
Proof.
  intros [Hmap Hstore] Hin Hroot Hb'.
  assert (Hgrow : forall (n : FolderTreeNode) x,
             In x (keys (nodeMap b1)) ->
             In x (keys (set (nodeMap b1) (entityId entity) n))).
  { intros n x Hx. apply keys_set. now right. }
  assert (Hnew : forall n : FolderTreeNode,
             In (entityId entity)
                (keys (set (nodeMap b1) (entityId entity) n))).
  { intros n. apply keys_set. now left. }
  assert (Hold : forall (n n0 : FolderTreeNode) k,
             k <> entityId entity ->
             get (set (nodeMap b1) (entityId entity) n) k = Some n0 ->
             linked entities m k n0
             /\ chainKnown (set (nodeMap b1) (entityId entity) n) m n0).
  { intros n n0 k Hk Hget. rewrite get_set_other in Hget by exact Hk.
    destruct (Hmap k n0 Hget) as [Hl Hc]. split; [exact Hl|].
    eapply chainKnown_mono; [apply Hgrow | exact Hc]. }
  destruct (get (nodeMap b1) (parentFolderId entity)) as [parentNode|] eqn:Hp;
    cbn in Hb'; injection Hb' as <-; unfold kept; cbn [nodeMap nodes].
  - destruct (Hmap _ _ Hp) as [[Hfid _] Hchain].
    split; [split|split; [apply Hnew | apply Hgrow]].
    + intros k n0 Hget.
      destruct (string_dec k (entityId entity)) as [->|Hk];
        [|now apply (Hold _ n0 k)].
      rewrite get_set_same in Hget. injection Hget as <-. split.
      * split; [reflexivity|]. exists entity. repeat split; auto.
      * cbn. split; [apply Hnew|]. split; [now apply m_registered|].
        eapply chainKnown_mono; [apply Hgrow | exact Hchain].
    + intros r c Hc. apply nth_push in Hc as [Hc|[-> ->]].
      * apply nth_snoc_empty in Hc. now apply Hstore.
      * exists parentNode. now split.
  - split; [split|split; [apply Hnew | apply Hgrow]].
    + intros k n0 Hget.
      destruct (string_dec k (entityId entity)) as [->|Hk];
        [|now apply (Hold _ n0 k)].
      rewrite get_set_same in Hget. injection Hget as <-. split.
      * split; [reflexivity|]. exists entity. repeat split; auto.
        cbn. now apply Hroot.
      * cbn. split; [apply Hnew|]. split; [now apply m_registered | exact I].
    + intros r c Hc. apply nth_snoc_empty in Hc. now apply Hstore.
Qed.

Lemma setup_kept (fuel : nat) :
  forall (entity : ArFSFileOrFolderEntity) (b b' : build),
    In entity entities ->
    kept entities m b ->
    setupNodesWithEntity fuel entity m b = Some b' ->
    kept entities m b'
    /\ In (entityId entity) (keys (nodeMap b'))
    /\ (forall x, In x (keys (nodeMap b)) -> In x (keys (nodeMap b'))).
Proof.
  induction fuel as [|fuel IH]; intros entity b b' Hin Hb Hrun;
    [discriminate|].
  cbn [setupNodesWithEntity] in Hrun.
  destruct (includes (keys (nodeMap b)) (entityId entity)) eqn:Hid;
    cbn [negb] in Hrun.
  { injection Hrun as <-. apply includes_In in Hid. auto. }
  destruct (includes (keys (nodeMap b)) (parentFolderId entity)) eqn:Hpid;
    cbn [negb] in Hrun.
  - (* the parent is linked already *)
    apply attach_kept in Hrun; auto.
    intros Hnone. apply includes_In in Hpid.
    apply get_None in Hnone. contradiction.
  - destruct (entityOf m (parentFolderId entity)) as [pe|] eqn:Hpe.
    + (* the parent entity is resolved first *)
      destruct (setupNodesWithEntity fuel pe m b) as [b1|] eqn:Hrec;
        [|discriminate].
      destruct (m_keyed _ _ Hpe) as [Hpin Hpk].
      destruct (IH pe b b1 Hpin Hb Hrec) as (Hb1 & Hpe1 & Hsub1).
      apply attach_kept in Hrun; auto.
      * destruct Hrun as (Hk & Hi & Hsub).
        split; [exact Hk|]. split; [exact Hi|].
        intros x Hx. apply Hsub, Hsub1, Hx.
      * intros Hnone. apply get_None in Hnone. rewrite <- Hpk in Hnone.
        contradiction.
    + apply attach_kept in Hrun; auto.
Qed.

Lemma setupAll_kept (fuel : nat) :
  forall (l : list ArFSFileOrFolderEntity) (b b' : build),
    (forall e, In e l -> In e entities) ->
    kept entities m b ->
    setupAll fuel l m b = Some b' ->
    kept entities m b'
    /\ (forall e, In e l -> In (entityId e) (keys (nodeMap b')))
    /\ (forall x, In x (keys (nodeMap b)) -> In x (keys (nodeMap b'))).
Proof.
  induction l as [|e l IH]; intros b b' Hl Hb Hrun.
  - injection Hrun as <-. split; [exact Hb|]. split; [intros e []|auto].
  - cbn [setupAll] in Hrun.
    destruct (setupNodesWithEntity fuel e m b) as [b1|] eqn:H1;
      [|discriminate].
    destruct (setup_kept fuel e b b1 (Hl e (or_introl eq_refl)) Hb H1)
      as (Hb1 & He & Hsub1).
    destruct (IH b1 b' (fun x Hx => Hl x (or_intror Hx)) Hb1 Hrun)
      as (Hb' & Hall & Hsub).
    split; [exact Hb'|]. split.
    + intros x [<-|Hx]; auto.
    + intros x Hx. apply Hsub, Hsub1, Hx.
Qed.

End BuildInvariant.

Section Built.
Import Hierarchy.

Lemma kept_empty (entities : list ArFSFileOrFolderEntity)
    (m : dict (option ArFSFileOrFolderEntity)) :
  kept entities m (mkBuild [] []).
Proof.
  split.
  - intros k n H. discriminate H.
  - intros r c H. destruct r; destruct H.
Qed.

(** What holds of every hierarchy newFromEntities returns. *)
Lemma newFromEntities_kept (fuel : nat)
    (entities : list ArFSFileOrFolderEntity) (h : FolderHierarchy) :
  newFromEntities fuel entities = Some h ->
  folderIdToEntityMap h = entityMapOf entities
  /\ kept entities (entityMapOf entities)
          (mkBuild (folderIdToNodeMap h) (heap h))
  /\ (forall e, In e entities -> In (entityId e) (keys (folderIdToNodeMap h))).
Proof.
  intros Hbuilt.
  destruct (newFromEntities_maps _ _ _ Hbuilt) as (Hm & b & Hall & Hn & Hs).
  split; [exact Hm|]. rewrite Hn, Hs.
  destruct (setupAll_kept entities (entityMapOf entities)
              (entityOf_keyed entities)
              (fun e He => entityOf_registered entities (entityId e)
                             (proj2 (keys_entityMapOf entities (entityId e))
                                    (ex_intro _ e (conj He eq_refl))))
              fuel entities (mkBuild [] []) b (fun e He => He)
              (kept_empty _ _) Hall) as (Hk & Hids & _).
  destruct b as [nm st]. split; [exact Hk | exact Hids].
Qed.

(** The node map of a hierarchy newFromEntities returns binds exactly the
    entity IDs of the input. *)
Lemma built_node_keys (fuel : nat)
    (entities : list ArFSFileOrFolderEntity) (h : FolderHierarchy) :
  newFromEntities fuel entities = Some h ->
  forall x, In x (keys (folderIdToNodeMap h)) <-> In x (allFolderIDs h).
Proof.
  intros Hbuilt.
  destruct (newFromEntities_kept _ _ _ Hbuilt) as (Hm & [Hmap _] & Hids).
  cbn [nodeMap] in Hmap.
  intros x. unfold allFolderIDs. rewrite Hm, keys_entityMapOf. split.
  - intros Hx.
    destruct (get (folderIdToNodeMap h) x) as [n|] eqn:Hn;
      [|apply get_None in Hn; contradiction].
    destruct (Hmap x n Hn) as [[_ (e & He & Hk & _)] _].
    exists e. now split.
  - intros (e & He & <-). now apply Hids.
Qed.

(** Entities of a list without two equal IDs are told apart by their ID. *)
Lemma same_id_same_entity (entities : list ArFSFileOrFolderEntity) :
  NoDup (map entityId entities) ->
  forall a b, In a entities -> In b entities -> entityId a = entityId b ->
              a = b.
Proof.
  induction entities as [|x l IH]; intros Hnd a b Ha Hb Hid; [destruct Ha|].
  cbn [map] in Hnd. inversion Hnd as [|y l' Hnotin Hrest]; subst.
  destruct Ha as [<-|Ha], Hb as [<-|Hb].
  - reflexivity.
  - elim Hnotin. rewrite Hid. now apply in_map.
  - elim Hnotin. rewrite <- Hid. now apply in_map.
  - now apply IH.
Qed.

(** X2. For entities whose IDs and parent IDs are ordinary keys: in every
    hierarchy newFromEntities returns, the node map binds exactly the
    folder IDs of allFolderIDs; the node bound to an ID carries that ID
    and was created for an input entity carrying that ID, which is the
    entity the map keeps for the ID when no two input entities share an
    ID; the node is parentless only when the parent ID of that entity has
    no entity, and otherwise its parent node carries that parent ID. *)
Theorem newFromEntities_links_nodes (fuel : nat)
    (entities : list ArFSFileOrFolderEntity) (h : FolderHierarchy)
    (Hplain : ordinaryIds entities = true)
    (Hbuilt : newFromEntities fuel entities = Some h) :
  (forall x, In x (keys (folderIdToNodeMap h)) <-> In x (allFolderIDs h))
  /\ (forall k n,
        get (folderIdToNodeMap h) k = Some n ->
        folderId n = k
        /\ exists e,
             In e entities /\ entityId e = k
             /\ (NoDup (map entityId entities) ->
                 entityOf (folderIdToEntityMap h) k = Some e)
             /\ match parent n with
                | None =>
                    entityOf (folderIdToEntityMap h) (parentFolderId e) = None
                | Some p => folderId p = parentFolderId e
                end).
Proof.
  split; [now apply (built_node_keys fuel entities)|].
  destruct (newFromEntities_kept _ _ _ Hbuilt) as (Hm & [Hmap _] & _).
  cbn [nodeMap] in Hmap.
  intros k n Hn. rewrite Hm.
  destruct (Hmap k n Hn) as [[Hfid (e & He & Hk & Hparent)] _].
  split; [exact Hfid|]. exists e.
  split; [exact He|]. split; [exact Hk|]. split; [|exact Hparent].
  intros Hnodup.
  destruct (entityOf (entityMapOf entities) k) as [e'|] eqn:He'.
  - destruct (entityOf_keyed _ _ _ He') as [Hin' Hk'].
    f_equal. apply (same_id_same_entity entities Hnodup); congruence.
  - elim (entityOf_registered entities k); [|exact He'].
    apply keys_entityMapOf. exists e. now split.
Qed.


End Built.

Lemma newFromEntities_links_nodes_witness :
  exists h,
    Hierarchy.newFromEntities 3 chainRAB = Some h
    /\ (In "A" (keys (Hierarchy.folderIdToNodeMap h))
        <-> In "A" (Hierarchy.allFolderIDs h))
    /\ forall n, get (Hierarchy.folderIdToNodeMap h) "B" = Some n ->
                 Hierarchy.folderId n = "B".
Proof.
  eexists. split; [reflexivity|].
  match goal with
  | |- context [Hierarchy.allFolderIDs ?h] =>
      destruct (newFromEntities_links_nodes 3 chainRAB h eq_refl eq_refl)
        as (Hkeys & Hnodes)
  end.
  split; [apply Hkeys|]. intros n Hn. apply (Hnodes "B" n Hn).
Defined.


(** ** Folder hierarchy: when the path methods return *)

Section PathsDefined.
Import Hierarchy.

Lemma climb_parentless (nm : dict FolderTreeNode)
    (m : dict (option ArFSFileOrFolderEntity)) (n : FolderTreeNode) :
  chainKnown nm m n -> parent (climb nm n) = None.
Proof.
  induction n as [r f|r f p IH]; intros H; [reflexivity|].
  destruct H as (_ & _ & Hp). cbn [climb].
  destruct (get nm (folderId p)) eqn:Hg; [now apply IH|].
  apply get_None in Hg. exfalso. apply Hg. destruct p; apply Hp.
Qed.

Lemma walk_known (nm : dict FolderTreeNode)
    (m : dict (option ArFSFileOrFolderEntity)) (rootId : string)
    (n x : FolderTreeNode) :
  chainKnown nm m n -> In x (nodesInPathToFolder rootId n) ->
  entityOf m (folderId x) <> None.
Proof.
  induction n as [r f|r f p IH]; intros H Hx.
  - destruct Hx as [<-|[]]. apply H.
  - cbn [nodesInPathToFolder] in Hx.
    destruct (negb (String.eqb f rootId)).
    + destruct Hx as [<-|Hx]; [apply H | apply IH; [apply H | exact Hx]].
    + destruct Hx as [<-|[]]. apply H.
Qed.

Lemma mapM_returns {B : Type} (m : dict (option ArFSFileOrFolderEntity))
    (g : ArFSFileOrFolderEntity -> B) (ns : list FolderTreeNode) :
  (forall x, In x ns -> entityOf m (folderId x) <> None) ->
  exists ys,
    mapM (fun n => match entityOf m (folderId n) with
                   | Some e => Ok (g e)
                   | None => Throw TypeError
                   end) ns = Ok ys.
Proof.
  induction ns as [|n ns IH]; intros H; [eexists; reflexivity|].
  destruct IH as [ys Hys]; [intros x Hx; apply H; now right|].
  cbn [mapM]. destruct (entityOf m (folderId n)) as [e|] eqn:He.
  - cbn [bind]. rewrite Hys. eexists; reflexivity.
  - elim (H n (or_introl eq_refl) He).
Qed.

(** When the path methods return, on a hierarchy built from a non-empty
    input. *)
Lemma built_paths (fuel : nat)
    (entities : list ArFSFileOrFolderEntity) (h : FolderHierarchy)
    (Hbuilt : newFromEntities fuel entities = Some h)
    (Hsome : entities <> []) :
  (exists root, rootNode h = Ok root /\ parent root = None)
  /\ pathToFolderId h "root folder" = Ok "/"
  /\ entityPathToFolderId h "root folder" = Ok "/"
  /\ txPathToFolderId h "root folder" = Ok "/"
  /\ (forall fid, In fid (allFolderIDs h) ->
        exists p i t,
          pathToFolderId h fid = Ok p
          /\ entityPathToFolderId h fid = Ok i
          /\ txPathToFolderId h fid = Ok t)
  /\ (forall fid, ordinary fid = true ->
        fid <> "root folder" -> ~ In fid (allFolderIDs h) ->
        pathToFolderId h fid = Throw TypeError
        /\ entityPathToFolderId h fid = Throw TypeError
        /\ txPathToFolderId h fid = Throw TypeError).
Proof.
  destruct (newFromEntities_kept _ _ _ Hbuilt) as (Hm & [Hmap _] & Hids).
  pose proof (built_node_keys _ _ _ Hbuilt) as Hkeys.
  cbn [nodeMap] in Hmap.
  assert (Hroot : exists root, rootNode h = Ok root /\ parent root = None).
  { unfold rootNode.
    destruct (keys (folderIdToEntityMap h)) as [|k0 ks] eqn:Hk.
    - destruct entities as [|e0 es]; [congruence|].
      assert (Hin : In (entityId e0) (keys (folderIdToEntityMap h))).
      { rewrite Hm. apply keys_entityMapOf.
        exists e0. split; [now left | reflexivity]. }
      rewrite Hk in Hin. destruct Hin.
    - assert (Hin : In k0 (keys (folderIdToNodeMap h))).
      { apply Hkeys. unfold allFolderIDs. rewrite Hk. now left. }
      destruct (get (folderIdToNodeMap h) k0) as [n0|] eqn:Hn0;
        [|apply get_None in Hn0; contradiction].
      eexists. split; [reflexivity|].
      eapply climb_parentless. apply (Hmap k0 n0 Hn0). }
  destruct Hroot as (root & Hr & Hp).
  split; [exists root; now split|].
  unfold pathToFolderId, entityPathToFolderId, txPathToFolderId,
    olderFirstNodes. rewrite Hr. cbn [bind]. rewrite Hp.
  split; [reflexivity|]. split; [reflexivity|]. split; [reflexivity|]. split.
  - intros fid Hfid. apply Hkeys in Hfid.
    destruct (get (folderIdToNodeMap h) fid) as [n|] eqn:Hn;
      [|apply get_None in Hn; contradiction].
    destruct (String.eqb fid "root folder"); [repeat eexists|].
    cbn [bind].
    assert (Hall : forall x,
               In x (rev (nodesInPathToFolder (folderId root) n)) ->
               entityOf (folderIdToEntityMap h) (folderId x) <> None).
    { intros x Hx. apply in_rev in Hx. rewrite Hm.
      eapply walk_known; [apply (Hmap fid n Hn) | exact Hx]. }
    destruct (mapM_returns (folderIdToEntityMap h) name _ Hall) as [ns ->].
    destruct (mapM_returns (folderIdToEntityMap h) txId _ Hall) as [ts ->].
    repeat eexists.
  - intros fid _ Hne Hout. apply String.eqb_neq in Hne. rewrite Hne.
    assert (Hg : get (folderIdToNodeMap h) fid = None).
    { apply get_None. intros Hin. apply Hout, Hkeys, Hin. }
    rewrite Hg. repeat split.
Qed.

(** X4. For entities whose IDs and parent IDs are ordinary keys: in a
    hierarchy newFromEntities returns for a non-empty input, the root node
    is parentless, so no path method raises the sub-tree error; the
    sentinel "root folder" resolves to "/"; each of the three path methods
    returns a path for every folder ID of the hierarchy, and throws a
    TypeError for any other ordinary ID. *)
Theorem built_paths_defined (fuel : nat)
    (entities : list ArFSFileOrFolderEntity) (h : FolderHierarchy)
    (Hplain : ordinaryIds entities = true)
    (Hbuilt : newFromEntities fuel entities = Some h)
    (Hsome : entities <> []) :
  (exists root, rootNode h = Ok root /\ parent root = None)
  /\ pathToFolderId h "root folder" = Ok "/"
  /\ entityPathToFolderId h "root folder" = Ok "/"
  /\ txPathToFolderId h "root folder" = Ok "/"
  /\ (forall fid, In fid (allFolderIDs h) ->
        exists p i t,
          pathToFolderId h fid = Ok p
          /\ entityPathToFolderId h fid = Ok i
          /\ txPathToFolderId h fid = Ok t)
  /\ (forall fid, ordinary fid = true ->
        fid <> "root folder" -> ~ In fid (allFolderIDs h) ->
        pathToFolderId h fid = Throw TypeError
        /\ entityPathToFolderId h fid = Throw TypeError
        /\ txPathToFolderId h fid = Throw TypeError).
Proof. exact (built_paths fuel entities h Hbuilt Hsome). Qed.

(** X5. For entities whose IDs and parent IDs are ordinary keys: the
    constructor of a decorated entity, against a hierarchy newFromEntities
    returned for a non-empty input, returns when the parent folder ID of
    the entity is the sentinel "root folder" or a folder ID of the
    hierarchy; for any other ordinary parent ID (an orphan of the listing)
    it throws a TypeError. *)
Theorem decorate_returns_iff_parent_known (fuel : nat)
    (entities : list ArFSFileOrFolderEntity) (h : FolderHierarchy)
    (entity : ArFSFileOrFolderEntity)
    (Hplain : ordinaryIds entities = true)
    (Hbuilt : newFromEntities fuel entities = Some h)
    (Hsome : entities <> []) :
  (parentFolderId entity = "root folder"
   \/ In (parentFolderId entity) (allFolderIDs h) ->
   exists d, ArFSPublicFileOrFolderWithPaths entity h = Ok d)
  /\ (ordinary (parentFolderId entity) = true ->
      parentFolderId entity <> "root folder" ->
      ~ In (parentFolderId entity) (allFolderIDs h) ->
      ArFSPublicFileOrFolderWithPaths entity h = Throw TypeError).
Proof.
  destruct (built_paths _ _ _ Hbuilt Hsome)
    as (_ & Hs1 & Hs2 & Hs3 & Hin & Hout).
  unfold ArFSPublicFileOrFolderWithPaths. split.
  - intros [Hs|Hk].
    + rewrite Hs, Hs1, Hs2, Hs3. eexists; reflexivity.
    + destruct (Hin _ Hk) as (p & i & t & -> & -> & ->).
      eexists; reflexivity.
  - intros Hord Hne Hk. destruct (Hout _ Hord Hne Hk) as (-> & _).
    reflexivity.
Qed.

(** X6. For entities whose IDs and parent IDs are ordinary keys: the root
    node of a hierarchy newFromEntities returns is missing exactly when
    the input was empty: rootNode then throws a TypeError, and so do the
    three path methods for every argument, the sentinel "root folder"
    included, and subTreeOf for every ordinary argument; there is no
    folder ID. *)
Theorem rootNode_throws_iff_empty (fuel : nat)
    (entities : list ArFSFileOrFolderEntity) (h : FolderHierarchy)
    (Hplain : ordinaryIds entities = true)
    (Hbuilt : newFromEntities fuel entities = Some h) :
  ((exists e, rootNode h = Throw e) <-> entities = [])
  /\ (entities = [] ->
      allFolderIDs h = []
      /\ rootNode h = Throw TypeError
      /\ forall fid,
           (ordinary fid = true -> subTreeOf h fid = Throw TypeError)
           /\ pathToFolderId h fid = Throw TypeError
           /\ entityPathToFolderId h fid = Throw TypeError
           /\ txPathToFolderId h fid = Throw TypeError).
Proof.
  assert (Hempty : entities = [] ->
            allFolderIDs h = []
            /\ rootNode h = Throw TypeError
            /\ forall fid,
                 (ordinary fid = true -> subTreeOf h fid = Throw TypeError)
                 /\ pathToFolderId h fid = Throw TypeError
                 /\ entityPathToFolderId h fid = Throw TypeError
                 /\ txPathToFolderId h fid = Throw TypeError).
  { intros ->. destruct fuel; cbn in Hbuilt; injection Hbuilt as <-;
      repeat split. }
  split; [|exact Hempty]. split.
  - intros [e He]. destruct entities as [|x l]; [reflexivity|].
    destruct (built_paths _ _ _ Hbuilt) as ((root & Hroot & _) & _);
      [discriminate|]. rewrite Hroot in He. discriminate.
  - intros Hnil. exists TypeError. now apply Hempty.
Qed.

End PathsDefined.

Lemma rootNode_throws_iff_empty_witness :
  exists h,
    Hierarchy.newFromEntities 0 [] = Some h
    /\ Hierarchy.rootNode h = Throw TypeError
    /\ Hierarchy.pathToFolderId h "root folder" = Throw TypeError.
Proof.
  eexists. split; [reflexivity|].
  match goal with
  | |- context [Hierarchy.rootNode ?h] =>
      destruct (proj2 (rootNode_throws_iff_empty 0 [] h eq_refl eq_refl)
                  eq_refl)
        as (_ & Hroot & Hall)
  end.
  split; [exact Hroot|]. apply (Hall "root folder").
Defined.

Lemma built_paths_defined_witness :
  exists h,
    Hierarchy.newFromEntities 3 chainRAB = Some h
    /\ Hierarchy.pathToFolderId h "root folder" = Ok "/"
    /\ Hierarchy.pathToFolderId h "B" = Ok "/root/a/b/"
    /\ Hierarchy.pathToFolderId h "Z" = Throw TypeError.
Proof.
  eexists. split; [reflexivity|].
  match goal with
  | |- Hierarchy.pathToFolderId ?h _ = _ /\ _ =>
      destruct (built_paths_defined 3 chainRAB h eq_refl eq_refl
                  ltac:(discriminate)) as (_ & Hs & _ & _ & _ & Hout)
  end.
  split; [exact Hs|]. split; [reflexivity|].
  apply Hout; [reflexivity | discriminate |].
  simpl. intros [H|[H|[H|[]]]]; discriminate H.
Defined.

Lemma decorate_returns_iff_parent_known_witness :
  exists h,
    Hierarchy.newFromEntities 3 chainRAB = Some h
    /\ Hierarchy.ArFSPublicFileOrFolderWithPaths (folder "X" "Z" "x.txt") h
       = Throw TypeError
    /\ exists d,
         Hierarchy.ArFSPublicFileOrFolderWithPaths
           (folder "R" "root folder" "root") h = Ok d.
Proof.
  eexists. split; [reflexivity|].
  match goal with
  | |- Hierarchy.ArFSPublicFileOrFolderWithPaths _ ?h = _ /\ _ =>
      pose proof (fun e => decorate_returns_iff_parent_known 3 chainRAB h e
                             eq_refl eq_refl ltac:(discriminate)) as H
  end.
  split.
  - apply (proj2 (H (folder "X" "Z" "x.txt")));
      [reflexivity | discriminate |].
    simpl. intros [E|[E|[E|[]]]]; discriminate E.
  - apply (proj1 (H (folder "R" "root folder" "root"))). now left.
Defined.

(** ** Folder hierarchy: paths along the tree, and sub-tree views *)

Section PathSteps.
Import Hierarchy.

Lemma mapM_snoc {A B : Type} (f : A -> result B) (l : list A) (x : A) :
  mapM f (l ++ [x])
  = (ys <- mapM f l ;; y <- f x ;; Ok (ys ++ [y])).
Proof.
  induction l as [|a l IH]; cbn [mapM app bind].
  - destruct (f x); reflexivity.
  - destruct (f a) as [b|]; [|reflexivity]. cbn [bind]. rewrite IH.
    destruct (mapM f l) as [ys|]; [|reflexivity]. cbn [bind].
    destruct (f x); reflexivity.
Qed.

Lemma mapM_length {A B : Type} (f : A -> result B) (l : list A)
    (ys : list B) :
  mapM f l = Ok ys -> List.length ys = List.length l.
Proof.
  revert ys. induction l as [|a l IH]; intros ys H; cbn [mapM] in H.
  - now injection H as <-.
  - destruct (f a); [|discriminate]. cbn [bind] in H.
    destruct (mapM f l) as [ys'|]; [|discriminate]. cbn [bind] in H.
    injection H as <-. cbn. now rewrite (IH ys').
Qed.

Lemma slashed_snoc (l : list string) (x : string) :
  l <> [] -> slashed (l ++ [x]) = (slashed l ++ x ++ "/")%string.
Proof.
  intros Hne. unfold slashed. rewrite join_snoc by exact Hne.
  rewrite !append_assoc. reflexivity.
Qed.

Variable h : FolderHierarchy.
Variable root : FolderTreeNode.

Hypothesis root_found : rootNode h = Ok root.
Hypothesis root_parentless : parent root = None.

(** X7. In a hierarchy whose root node is parentless, the path of a
    parentless folder is its name between two slashes, and likewise its ID
    and its transaction ID for the other two paths. *)
Theorem path_of_parentless_folder (fid : string) (r : nat) (f : string)
    (e : ArFSFileOrFolderEntity)
    (Hfid : fid <> "root folder")
    (Hnode : get (folderIdToNodeMap h) fid = Some (Parentless r f))
    (He : entityOf (folderIdToEntityMap h) f = Some e) :
  pathToFolderId h fid = Ok ("/" ++ name e ++ "/")%string
  /\ entityPathToFolderId h fid = Ok ("/" ++ f ++ "/")%string
  /\ txPathToFolderId h fid = Ok ("/" ++ txId e ++ "/")%string.
Proof.
  apply String.eqb_neq in Hfid.
  unfold pathToFolderId, entityPathToFolderId, txPathToFolderId,
    olderFirstNodes.
  rewrite root_found. cbn [bind]. rewrite root_parentless, Hfid, Hnode.
  cbn [bind nodesInPathToFolder rev app mapM folderId map].
  rewrite He. repeat split.
Qed.

(** X8. In a hierarchy whose root node is parentless, the path of a folder
    whose node has a parent, and which does not carry the root's ID, is the
    path of the parent folder followed by the folder's name and a slash,
    provided the parent's ID is bound to that parent node; likewise for
    the ID and transaction-ID paths.  One path fails exactly when the
    other does. *)
Theorem path_extends_parent_path (fid : string) (r : nat) (f : string)
    (p : FolderTreeNode) (e : ArFSFileOrFolderEntity)
    (Hfid : fid <> "root folder")
    (Hpid : folderId p <> "root folder")
    (Hnode : get (folderIdToNodeMap h) fid = Some (ChildOf r f p))
    (Hnotroot : f <> folderId root)
    (Hparent : get (folderIdToNodeMap h) (folderId p) = Some p)
    (He : entityOf (folderIdToEntityMap h) f = Some e) :
  pathToFolderId h fid
  = (pp <- pathToFolderId h (folderId p) ;; Ok (pp ++ name e ++ "/")%string)
  /\ entityPathToFolderId h fid
     = (pp <- entityPathToFolderId h (folderId p) ;;
        Ok (pp ++ f ++ "/")%string)
  /\ txPathToFolderId h fid
     = (pp <- txPathToFolderId h (folderId p) ;;
        Ok (pp ++ txId e ++ "/")%string).
Proof.
  apply String.eqb_neq in Hfid, Hpid, Hnotroot.
  unfold pathToFolderId, entityPathToFolderId, txPathToFolderId,
    olderFirstNodes.
  rewrite root_found. cbn [bind].
  rewrite root_parentless, Hfid, Hpid, Hnode, Hparent. cbn [bind].
  cbn [nodesInPathToFolder]. rewrite Hnotroot. cbn [negb rev].
  assert (Hne : rev (nodesInPathToFolder (folderId root) p) <> []).
  { intros H. apply (f_equal (@rev _)) in H. rewrite rev_involutive in H.
    exact (nodesInPathToFolder_not_nil _ _ H). }
  rewrite !mapM_snoc, map_app. cbn [folderId map]. rewrite He.
  split; [|split].
  - destruct (mapM _ (rev (nodesInPathToFolder (folderId root) p)))
      as [ys|] eqn:Hys; [|reflexivity].
    cbn [bind]. rewrite slashed_snoc; [reflexivity|].
    intros ->. apply mapM_length in Hys. cbn in Hys.
    destruct (rev (nodesInPathToFolder (folderId root) p));
      [congruence | discriminate].
  - cbn [bind]. rewrite slashed_snoc; [reflexivity|].
    destruct (rev (nodesInPathToFolder (folderId root) p));
      [congruence | discriminate].
  - destruct (mapM _ (rev (nodesInPathToFolder (folderId root) p)))
      as [ys|] eqn:Hys; [|reflexivity].
    cbn [bind]. rewrite slashed_snoc; [reflexivity|].
    intros ->. apply mapM_length in Hys. cbn in Hys.
    destruct (rev (nodesInPathToFolder (folderId root) p));
      [congruence | discriminate].
Qed.

End PathSteps.

Section SubTreeView.
Import Hierarchy.

Lemma fold_set_head {A V : Type} (f : A -> string) (g : A -> V)
    (l : list A) :
  forall (k : string) (v : V) (acc : dict V),
    exists v' rest,
      fold_left (fun a n => set a (f n) (g n)) l ((k, v) :: acc)
      = (k, v') :: rest.
Proof.
  induction l as [|n l IH]; intros k v acc; [eexists; eexists; reflexivity|].
  cbn [fold_left set]. destruct (String.eqb (f n) k); apply IH.
Qed.

Lemma find_none_all {A : Type} (p : A -> bool) (l : list A) :
  (forall x, In x l -> p x = false) -> find p l = None.
Proof.
  induction l as [|a l IH]; intros H; [reflexivity|].
  cbn [find]. rewrite (H a (or_introl eq_refl)).
  apply IH. intros x Hx. apply H. now right.
Qed.

(** X9. The sub-tree hierarchy of a folder whose node has a parent is a
    view no path can be computed from: when the IDs of the parent and of
    the nodes collected are ordinary keys, and neither the parent's ID nor
    a second node with the folder's own ID is among the nodes collected,
    each of the three path methods throws the sub-tree error for every
    argument, the sentinel "root folder" included. *)
Theorem subtree_view_refuses_paths (h : FolderHierarchy) (F : string)
    (n p : FolderTreeNode)
    (Hnode : get (folderIdToNodeMap h) F = Some n)
    (Hfid : folderId n = F)
    (Hparent : parent n = Some p)
    (Hplain : forallb ordinary
                (folderId p :: map folderId (nodeAndChildrenOf h n)) = true)
    (Hout : ~ In (folderId p) (map folderId (nodeAndChildrenOf h n)))
    (Hone : ~ In F (map folderId (children (heap h) n))) :
  exists h',
    subTreeOf h F = Ok h'
    /\ rootNode h' = Ok n
    /\ forall x,
         pathToFolderId h' x
         = Throw (Error "Can't compute paths from sub-tree")
         /\ entityPathToFolderId h' x
            = Throw (Error "Can't compute paths from sub-tree")
         /\ txPathToFolderId h' x
            = Throw (Error "Can't compute paths from sub-tree").
Proof.
  unfold subTreeOf. rewrite Hnode. eexists. split; [reflexivity|].
  assert (Hroot : rootNode
            (mkHierarchy
               (fold_left
                  (fun acc node =>
                     set acc (folderId node)
                       (entityOf (folderIdToEntityMap h) (folderId node)))
                  (nodeAndChildrenOf h n) [])
               (fold_left (fun acc node => set acc (folderId node) node)
                  (nodeAndChildrenOf h n) [])
               (heap h)) = Ok n).
  { unfold rootNode. cbn [folderIdToEntityMap folderIdToNodeMap].
    unfold nodeAndChildrenOf at 1. cbn [app fold_left set].
    destruct (fold_set_head folderId
                (fun node => entityOf (folderIdToEntityMap h) (folderId node))
                (children (heap h) n) (folderId n)
                (entityOf (folderIdToEntityMap h) (folderId n)) [])
      as (v' & rest & ->).
    cbn [keys map fst].
    rewrite (get_fold_set folderId (fun node => node)).
    unfold nodeAndChildrenOf. cbn [app rev]. rewrite find_app.
    rewrite find_none_all.
    - cbn [find]. rewrite String.eqb_refl.
      destruct n as [r f|r f q]; [discriminate Hparent|].
      injection Hparent as ->. cbn [climb].
      destruct (get _ (folderId p)) eqn:Hg; [|reflexivity].
      apply get_Some_In in Hg.
      apply (keys_fold_set folderId (fun node => node)) in Hg
        as [[]|Hg].
      now elim Hout.
    - intros x Hx. apply in_rev in Hx. apply String.eqb_neq.
      intros E. apply Hone. rewrite <- Hfid, <- E. now apply in_map. }
  split; [exact Hroot|].
  intros x. unfold pathToFolderId, entityPathToFolderId, txPathToFolderId,
    olderFirstNodes.
  rewrite Hroot. cbn [bind]. rewrite Hparent. repeat split.
Qed.

End SubTreeView.

Lemma path_of_parentless_folder_witness :
  exists h,
    Hierarchy.newFromEntities 3 chainRAB = Some h
    /\ Hierarchy.pathToFolderId h "R" = Ok "/root/"
    /\ Hierarchy.entityPathToFolderId h "R" = Ok "/R/".
Proof.
  eexists. split; [reflexivity|].
  match goal with
  | |- Hierarchy.pathToFolderId ?h _ = _ /\ _ =>
      destruct (path_of_parentless_folder h (Hierarchy.Parentless 0 "R")
                  eq_refl eq_refl "R" 0 "R" (folder "R" "root folder" "root")
                  ltac:(discriminate) eq_refl eq_refl) as (Hp & Hi & _)
  end.
  split; [exact Hp | exact Hi].
Defined.

Lemma path_extends_parent_path_witness :
  exists h,
    Hierarchy.newFromEntities 3 chainRAB = Some h
    /\ Hierarchy.pathToFolderId h "B"
       = (pp <- Hierarchy.pathToFolderId h "A" ;; Ok (pp ++ "b" ++ "/")%string)
    /\ Hierarchy.pathToFolderId h "B" = Ok "/root/a/b/".
Proof.
  eexists. split; [reflexivity|].
  match goal with
  | |- Hierarchy.pathToFolderId ?h _ = _ /\ _ =>
      destruct (path_extends_parent_path h (Hierarchy.Parentless 0 "R")
                  eq_refl eq_refl "B" 2 "B"
                  (Hierarchy.ChildOf 1 "A" (Hierarchy.Parentless 0 "R"))
                  (folder "B" "A" "b")
                  ltac:(discriminate) ltac:(discriminate) eq_refl
                  ltac:(discriminate) eq_refl eq_refl) as (Hp & _)
  end.
  split; [exact Hp | reflexivity].
Defined.

Lemma subtree_view_refuses_paths_witness :
  exists h,
    Hierarchy.newFromEntities 3 chainRAB = Some h
    /\ exists h',
         Hierarchy.subTreeOf h "A" = Ok h'
         /\ Hierarchy.pathToFolderId h' "B"
            = Throw (Error "Can't compute paths from sub-tree")
         /\ Hierarchy.pathToFolderId h' "root folder"
            = Throw (Error "Can't compute paths from sub-tree").
Proof.
  eexists. split; [reflexivity|].
  match goal with
  | |- exists h', Hierarchy.subTreeOf ?h _ = _ /\ _ =>
      destruct (subtree_view_refuses_paths h "A"
                  (Hierarchy.ChildOf 1 "A" (Hierarchy.Parentless 0 "R"))
                  (Hierarchy.Parentless 0 "R") eq_refl eq_refl eq_refl
                  eq_refl)
        as (h0 & Hsub & _ & Hthrows)
  end.
  - simpl. intros [H|[H|[]]]; discriminate H.
  - simpl. intros [H|[]]; discriminate H.
  - exists h0. split; [exact Hsub|].
    split; [apply (Hthrows "B") | apply (Hthrows "root folder")].
Defined.

(** ** Upload loops *)

Section UploadLoop.
Import ArFSDAO.

(** The shape of every run of the loop that ends. *)
Lemma uploadChunks_shape
    (script : list (result Uploader)) (u : Uploader)
    (r : result Uploader) (n : nat)
    (Hrun : uploadChunks script u = Some (r, n)) :
  exists (done : list Uploader) (rest : list (result Uploader)),
    script = map Ok done ++ rest
    /\ Forall (fun x => isComplete x = false) (removelast (u :: done))
    /\ match r with
       | Ok u' =>
           u' = last done u /\ isComplete u' = true
           /\ n = List.length done
       | Throw e =>
           isComplete (last done u) = false
           /\ (exists rest', rest = Throw e :: rest')
           /\ n = S (List.length done)
       end.
Proof.
  revert u r n Hrun.
  induction script as [|a script IH]; intros u r n Hrun; simpl in Hrun.
  - destruct (isComplete u) eqn:Hc; [|discriminate].
    injection Hrun as <- <-. exists [], []. cbn. repeat split; auto.
  - destruct (isComplete u) eqn:Hc.
    + injection Hrun as <- <-. exists [], (a :: script).
      cbn. repeat split; auto.
    + destruct a as [u'|e].
      * destruct (uploadChunks script u') as [[r' n']|] eqn:Hr';
          [|discriminate].
        injection Hrun as <- <-.
        destruct (IH u' r' n' Hr') as (done & rest & Hs & Hall & Hend).
        exists (u' :: done), rest.
        split; [cbn; now rewrite Hs|].
        split.
        { change (removelast (u :: u' :: done))
            with (u :: removelast (u' :: done)).
          constructor; assumption. }
        rewrite <- (last_after_chunk done u u'). cbn [List.length].
        destruct r' as [u''|e']; intuition.
      * injection Hrun as <- <-. exists [], (Throw e :: script).
        cbn. repeat split; eauto.
Qed.

(** A rejected call after the chunks [done] ends the loop by throwing. *)
Lemma uploadChunks_throws (e : exn) (rest : list (result Uploader)) :
  forall (done : list Uploader) (u : Uploader),
    Forall (fun x => isComplete x = false) (u :: done) ->
    uploadChunks (map Ok done ++ Throw e :: rest) u
    = Some (Throw e, S (List.length done)).
Proof.
  induction done as [|u' done IH]; intros u Hall;
    inversion Hall as [|x l Hu Hrest]; subst.
  - cbn. now rewrite Hu.
  - cbn [map app uploadChunks]. rewrite Hu.
    now rewrite (IH u' Hrest).
Qed.

(** The chunks [done], the last of which completes the upload, end the
    loop. *)
Lemma uploadChunks_completes (rest : list (result Uploader)) :
  forall (done : list Uploader) (u : Uploader),
    Forall (fun x => isComplete x = false) (removelast (u :: done)) ->
    isComplete (last done u) = true ->
    uploadChunks (map Ok done ++ rest) u
    = Some (Ok (last done u), List.length done).
Proof.
  induction done as [|u' done IH]; intros u Hall Hlast.
  - cbn [map app last List.length] in *.
    destruct rest; cbn; now rewrite Hlast.
  - change (removelast (u :: u' :: done))
      with (u :: removelast (u' :: done)) in Hall.
    inversion Hall as [|x l Hu Hrest]; subst.
    rewrite <- (last_after_chunk done u u') in Hlast.
    cbn [map app uploadChunks]. rewrite Hu.
    rewrite (IH u' Hrest Hlast). cbn [List.length].
    now rewrite (last_after_chunk done u u').
Qed.

(** X10. The loop [while (!isComplete) uploadChunk()] of the folder,
    metadata and drive uploads: when a chunk call is rejected after the
    chunks [done], none of which completed the upload, the loop ends by
    throwing that rejection, after one call per chunk and the rejected
    one; when the last chunk of [done] completes the upload the loop
    returns with that uploader after exactly one call per chunk, and makes
    no call on an uploader that is already complete.  Every run that ends
    is of one of these two kinds: it returns normally only with a complete
    uploader. *)
Theorem uploadChunks_ends (u : Uploader) :
  (forall (done : list Uploader) (e : exn) (rest : list (result Uploader)),
     Forall (fun x => isComplete x = false) (u :: done) ->
     uploadChunks (map Ok done ++ Throw e :: rest) u
     = Some (Throw e, S (List.length done)))
  /\ (forall (done : list Uploader) (rest : list (result Uploader)),
        Forall (fun x => isComplete x = false) (removelast (u :: done)) ->
        isComplete (last done u) = true ->
        uploadChunks (map Ok done ++ rest) u
        = Some (Ok (last done u), List.length done))
  /\ (forall (script : list (result Uploader)) (r : result Uploader)
             (n : nat),
        uploadChunks script u = Some (r, n) ->
        exists (done : list Uploader) (rest : list (result Uploader)),
          script = map Ok done ++ rest
          /\ Forall (fun x => isComplete x = false) (removelast (u :: done))
          /\ match r with
             | Ok u' =>
                 u' = last done u /\ isComplete u' = true
                 /\ n = List.length done
             | Throw e =>
                 isComplete (last done u) = false
                 /\ (exists rest', rest = Throw e :: rest')
                 /\ n = S (List.length done)
             end).
Proof.
  split; [intros done e rest; apply uploadChunks_throws|].
  split; [intros done rest; apply uploadChunks_completes|].
  intros script r n. apply uploadChunks_shape.
Qed.

End UploadLoop.

Lemma uploadChunks_ends_witness :
  ArFSDAO.uploadChunks [Ok chunk1; Ok chunk2] chunk0 = Some (Ok chunk2, 2%nat)
  /\ ArFSDAO.uploadChunks [Ok chunk1; Throw TypeError; Ok chunk2] chunk0
     = Some (Throw TypeError, 2%nat).
Proof.
  destruct (uploadChunks_ends chunk0) as (Hthrow & Hcomplete & _).
  split.
  - apply (Hcomplete [chunk1; chunk2] []).
    + repeat constructor.
    + reflexivity.
  - apply (Hthrow [chunk1] TypeError [Ok chunk2]).
    repeat constructor.
Defined.

(** ** Folder data items and drives *)

Section DataItems.
Import ArFSDAO.

Variable DataItem : Type.
Variable c : Client.
Variable prepareItem : FolderMetaDataPrototype -> result DataItem.

(** X11. createPublicFolderDataItem checks a supplied parent against the
    gateway whatever syncParentFolderId says: a mismatching drive ID throws
    the mismatch error and no data item is prepared, and a matching one
    yields a data item with that parent.  With no parent and
    syncParentFolderId false it prepares a parentless folder without any
    lookup. *)
Theorem createPublicFolderDataItem_checks_parent
    (folderName driveId : string) (sync : option bool) :
  (forall p actualDriveId,
     truthy p = true ->
     getDriveIdForFolderId c p = Ok actualDriveId ->
     createPublicFolderDataItem c prepareItem folderName driveId (Some p) sync
     = if String.eqb actualDriveId driveId
       then (item <-
               prepareItem
                 (mkFolderMeta folderName (unixTimeNow c) driveId (uuidv4 c)
                    (Some p)) ;;
             Ok (item, uuidv4 c))
       else Throw (mismatch driveId actualDriveId))
  /\ (forall parent,
        given parent = false ->
        createPublicFolderDataItem c prepareItem folderName driveId parent
          (Some false)
        = (item <-
             prepareItem
               (mkFolderMeta folderName (unixTimeNow c) driveId (uuidv4 c)
                  parent) ;;
           Ok (item, uuidv4 c))).
Proof.
  split.
  - intros p actualDriveId Hp Hlook. unfold createPublicFolderDataItem, given.
    rewrite Hp, Hlook. cbn [bind].
    destruct (String.eqb actualDriveId driveId); reflexivity.
  - intros parent Hp. unfold createPublicFolderDataItem. rewrite Hp.
    reflexivity.
Qed.

End DataItems.

Lemma createPublicFolderDataItem_checks_parent_witness :
  ArFSDAO.createPublicFolderDataItem demoClient
    (fun m => Ok (ArFSDAO.metaParentFolderId m)) "photos" "D" (Some "P")
    (Some false)
  = Throw (ArFSDAO.mismatch "D" "D2")
  /\ ArFSDAO.createPublicFolderDataItem demoClient
       (fun m => Ok (ArFSDAO.metaParentFolderId m)) "photos" "D" None
       (Some false)
     = Ok (None, "F-new").
Proof.
  destruct (createPublicFolderDataItem_checks_parent (option string)
              demoClient (fun m => Ok (ArFSDAO.metaParentFolderId m))
              "photos" "D" (Some false)) as [Hcheck Hnone].
  split.
  - exact (Hcheck "P" "D2" eq_refl eq_refl).
  - exact (Hnone None eq_refl).
Defined.

Section Drives.
Import ArFSDAO.

(** What a folder write that succeeds has done, in order. *)
Lemma writeFolder_effects (c : Client) (s : CreateFolderSettings)
    (rs : RewardSettings) (p : option string)
    (root : ArFSCreateFolderResult) (effects : list Effect) :
  writeFolder c s rs p = (Ok root, effects) ->
  folderId root = uuidv4 c
  /\ exists t,
       prepareArFSObjectTransaction c
         (mkFolderMeta (folderData s) (unixTimeNow c) (driveId s) (uuidv4 c)
            p) rs = Ok t
       /\ folderTrxId root = trxId t
       /\ folderTrxReward root = trxReward t
       /\ effects
          = Prepared
              (mkFolderMeta (folderData s) (unixTimeNow c) (driveId s)
                 (uuidv4 c) p) t
            :: (if dryRun c then [] else [Uploaded t]).
Proof.
  unfold writeFolder.
  destruct (prepareArFSObjectTransaction c _ rs) as [t|e]; [|discriminate].
  destruct (dryRun c); cbn [negb].
  - intros H. injection H as <- <-. split; [reflexivity|].
    exists t. repeat split.
  - destruct (uploadToCompletion c t); [|discriminate].
    intros H. injection H as <- <-. split; [reflexivity|].
    exists t. repeat split.
Qed.

(** X12. createPublicDrive never consults the gateway: its result is the
    same on any gateway.  When it succeeds, the drive carries the first
    fresh ID and the root folder the second, and what it did is, in this
    order: the root folder transaction was prepared without a parent, in
    that drive, and uploaded; then the drive transaction was prepared,
    its metadata naming that root folder, and uploaded.  In a dry run the
    two uploads are left out.  When it throws, no drive transaction has
    been uploaded, though the root folder may have been. *)
Theorem createPublicDrive_writes_root_first
    (c : Client) (w : DriveWriter) (driveName : string)
    (driveRewards rootRewards : RewardSettings) :
  (forall post' buildPublic buildPrivate,
     createPublicDrive (onGateway c post' buildPublic buildPrivate) w
       driveName driveRewards rootRewards
     = createPublicDrive c w driveName driveRewards rootRewards)
  /\ (forall res effects,
        createPublicDrive c w driveName driveRewards rootRewards
        = (Ok res, effects) ->
        newDriveId res = freshDriveId w
        /\ newRootFolderId res = uuidv4 c
        /\ exists fm ft dm dt,
             rootFolderTrxId res = trxId ft /\ driveTrxId res = trxId dt
             /\ metaFolderData fm = driveName
             /\ metaDriveId fm = freshDriveId w
             /\ metaFolderId fm = uuidv4 c
             /\ metaParentFolderId fm = None
             /\ driveMetaData dm = PublicDriveData driveName (uuidv4 c)
             /\ driveMetaDriveId dm = freshDriveId w
             /\ effects
                = if dryRun c
                  then [OfRootFolder (Prepared fm ft); DrivePrepared dm dt]
                  else [OfRootFolder (Prepared fm ft);
                        OfRootFolder (Uploaded ft);
                        DrivePrepared dm dt; DriveUploaded dt])
  /\ (forall e effects,
        createPublicDrive c w driveName driveRewards rootRewards
        = (Throw e, effects) ->
        forall t, ~ In (DriveUploaded t) effects).
Proof.
  split; [|split].
  - intros post' buildPublic buildPrivate.
    unfold createPublicDrive, createPublicFolder.
    rewrite !syncParent_disabled by reflexivity. reflexivity.
  - intros res effects. unfold createPublicDrive, createPublicFolder.
    rewrite syncParent_disabled by reflexivity.
    cbn [parentFolderId rewardSettings].
    destruct (writeFolder c _ _ _) as [[root|e] effs] eqn:Hw;
      [|discriminate].
    destruct (writeFolder_effects _ _ _ _ _ _ Hw)
      as (Hid & ft & _ & Hft & _ & Heffs).
    cbn [folderData driveId] in Heffs.
    destruct (prepareDriveTransaction w _ driveRewards) as [dt|e];
      [|discriminate].
    rewrite Hid, Heffs.
    destruct (dryRun c) eqn:Hdry; cbn [negb].
    + intros H. injection H as <- <-. cbn.
      split; [reflexivity|]. split; [reflexivity|].
      exists (mkFolderMeta driveName (unixTimeNow c) (freshDriveId w)
                (uuidv4 c) None), ft,
             (mkDriveMeta (PublicDriveData driveName (uuidv4 c))
                (unixTimeNow c) (freshDriveId w)), dt.
      split; [exact Hft|]. repeat (split; [reflexivity|]). reflexivity.
    + destruct (uploadToCompletion c dt); [|discriminate].
      intros H. injection H as <- <-. cbn.
      split; [reflexivity|]. split; [reflexivity|].
      exists (mkFolderMeta driveName (unixTimeNow c) (freshDriveId w)
                (uuidv4 c) None), ft,
             (mkDriveMeta (PublicDriveData driveName (uuidv4 c))
                (unixTimeNow c) (freshDriveId w)), dt.
      split; [exact Hft|]. repeat (split; [reflexivity|]). reflexivity.
  - intros e effects. unfold createPublicDrive.
    assert (Hfolder : forall effs t,
               ~ In (DriveUploaded t) (map OfRootFolder effs)).
    { intros effs t Hin. apply in_map_iff in Hin as (x & Hx & _).
      discriminate Hx. }
    destruct (createPublicFolder c _) as [[root|e0] effs].
    + destruct (prepareDriveTransaction w _ driveRewards) as [dt|e1].
      * destruct (negb (dryRun c)).
        -- destruct (uploadToCompletion c dt); [discriminate|].
           intros H. injection H as _ <-. intros t Hin.
           apply in_app_or in Hin as [Hin|[Hin|[]]];
             [now apply (Hfolder effs t) | discriminate Hin].
        -- discriminate.
      * intros H. injection H as _ <-. apply Hfolder.
    + intros H. injection H as _ <-. apply Hfolder.
Qed.

(** X13. createPrivateDrive sends the drive transaction with one chunk
    call and does not look at the uploader afterwards: its result is the
    same whatever state that chunk leaves the uploader in, complete or
    not.  When it succeeds it returns the drive key and drive ID it was
    given and the root folder's fresh ID, and what it did is, in this
    order: the root folder transaction was prepared and uploaded, the
    drive transaction was prepared, and exactly one chunk of it was sent;
    in a dry run the upload and the chunk are left out. *)
Theorem createPrivateDrive_sends_one_chunk
    (c : Client) (w : DriveWriter) (driveName driveKey driveId : string)
    (driveRewards rootRewards : RewardSettings) :
  (forall after after',
     fst (createPrivateDrive c (leavingUploader w after) driveName driveKey
            driveId driveRewards rootRewards)
     = fst (createPrivateDrive c (leavingUploader w after') driveName driveKey
              driveId driveRewards rootRewards))
  /\ (forall res effects,
        createPrivateDrive c w driveName driveKey driveId driveRewards
          rootRewards = (Ok res, effects) ->
        newDriveKey res = Some driveKey
        /\ newDriveId res = driveId
        /\ newRootFolderId res = uuidv4 c
        /\ exists fm ft dm dt,
             rootFolderTrxId res = trxId ft /\ driveTrxId res = trxId dt
             /\ metaDriveId fm = driveId
             /\ metaFolderId fm = uuidv4 c
             /\ metaParentFolderId fm = None
             /\ driveMetaDriveId dm = driveId
             /\ if dryRun c
                then effects
                     = [OfRootFolder (Prepared fm ft); DrivePrepared dm dt]
                else exists after,
                       uploadOneChunk w dt = Ok after
                       /\ effects
                          = [OfRootFolder (Prepared fm ft);
                             OfRootFolder (Uploaded ft);
                             DrivePrepared dm dt;
                             DriveChunkSent dt after]).
Proof.
  split.
  - intros after after'. unfold createPrivateDrive, leavingUploader.
    cbn [encryptFolderData encryptDriveData prepareDriveTransaction
         uploadOneChunk].
    destruct (encryptFolderData w driveName driveKey); [|reflexivity].
    destruct (createPrivateFolder c _) as [[root|e] effs]; [|reflexivity].
    destruct (encryptDriveData w _ _ _); [|reflexivity].
    destruct (prepareDriveTransaction w _ _); [|reflexivity].
    destruct (negb (dryRun c)); reflexivity.
  - intros res effects. unfold createPrivateDrive, createPrivateFolder.
    destruct (encryptFolderData w driveName driveKey) as [fd|];
      [|discriminate].
    rewrite syncParent_disabled by reflexivity.
    cbn [parentFolderId rewardSettings].
    destruct (writeFolder c _ _ _) as [[root|e] effs] eqn:Hw;
      [|discriminate].
    destruct (writeFolder_effects _ _ _ _ _ _ Hw)
      as (Hid & ft & _ & Hft & _ & Heffs).
    cbn [folderData ArFSDAO.driveId] in Heffs.
    destruct (encryptDriveData w _ _ _) as [dd|]; [|discriminate].
    destruct (prepareDriveTransaction w _ _) as [dt|]; [|discriminate].
    rewrite Heffs.
    destruct (dryRun c) eqn:Hdry; cbn [negb].
    + intros H. injection H as <- <-.
      cbn [newDriveKey newDriveId newRootFolderId rootFolderTrxId
           driveTrxId].
      split; [reflexivity|]. split; [reflexivity|]. split; [exact Hid|].
      eexists. exists ft. eexists. exists dt.
      split; [exact Hft|]. split; [reflexivity|].
      split; [|split; [|split; [|split; [|reflexivity]]]]; reflexivity.
    + destruct (uploadOneChunk w dt) as [after|] eqn:Hup; [|discriminate].
      intros H. injection H as <- <-.
      cbn [newDriveKey newDriveId newRootFolderId rootFolderTrxId
           driveTrxId].
      split; [reflexivity|]. split; [reflexivity|]. split; [exact Hid|].
      eexists. exists ft. eexists. exists dt.
      split; [exact Hft|]. split; [reflexivity|].
      split; [|split; [|split; [|split; [|exists after; split;
                                  [exact Hup | reflexivity]]]]];
        reflexivity.
Qed.

End Drives.

Lemma createPublicDrive_writes_root_first_witness :
  exists res effects,
    ArFSDAO.createPublicDrive demoClient demoWriter "holiday"
      (ArFSDAO.mkReward None None) (ArFSDAO.mkReward None None)
    = (Ok res, effects)
    /\ ArFSDAO.newDriveId res = "D-new"
    /\ ArFSDAO.newRootFolderId res = "F-new"
    /\ exists ft dt fm dm,
         effects
         = [ArFSDAO.OfRootFolder (ArFSDAO.Prepared fm ft);
            ArFSDAO.OfRootFolder (ArFSDAO.Uploaded ft);
            ArFSDAO.DrivePrepared dm dt; ArFSDAO.DriveUploaded dt].
Proof.
  eexists. eexists. split; [reflexivity|].
  match goal with
  | |- ArFSDAO.newDriveId ?res = _ /\ _ =>
      destruct (proj1 (proj2 (createPublicDrive_writes_root_first demoClient
                  demoWriter "holiday" (ArFSDAO.mkReward None None)
                  (ArFSDAO.mkReward None None))) res _ eq_refl)
        as (Hd & Hr & fm & ft & dm & dt & Heffs)
  end.
  split; [exact Hd|]. split; [exact Hr|].
  exists ft, dt, fm, dm.
  exact (proj2 (proj2 (proj2 (proj2 (proj2 (proj2 (proj2 (proj2 Heffs)))))))).
Defined.

Lemma createPrivateDrive_sends_one_chunk_witness :
  exists res effects,
    ArFSDAO.createPrivateDrive demoClient demoWriter "holiday" "key" "D-1"
      (ArFSDAO.mkReward None None) (ArFSDAO.mkReward None None)
    = (Ok res, effects)
    /\ ArFSDAO.newDriveKey res = Some "key"
    /\ In (ArFSDAO.DriveChunkSent (ArFSDAO.mkTrx "tx-D-1" "77") chunk1)
          effects
    /\ ArFSDAO.isComplete chunk1 = false.
Proof.
  eexists. eexists. split; [reflexivity|].
  match goal with
  | |- ArFSDAO.newDriveKey ?res = _ /\ _ =>
      destruct (proj2 (createPrivateDrive_sends_one_chunk demoClient
                  demoWriter "holiday" "key" "D-1"
                  (ArFSDAO.mkReward None None)
                  (ArFSDAO.mkReward None None)) res _ eq_refl)
        as (Hk & _)
  end.
  split; [exact Hk|]. split; [|reflexivity].
  simpl. auto 10.
Defined.

(** ** Paging through the gateway *)

Section PagingLoop.
Import ArFSDAO.

Variable E : Type.
Variable postPage : string -> result Page.
Variable build : GQLNodeInterface -> result E.

Lemma buildAll_app (l1 l2 : list GQLEdgeInterface) (xs ys : list E) :
  buildAll build l1 = Ok xs -> buildAll build l2 = Ok ys ->
  buildAll build (l1 ++ l2) = Ok (xs ++ ys).
Proof.
  revert xs. induction l1 as [|e l1 IH]; intros xs H1 H2; cbn in H1 |- *.
  - now injection H1 as <-.
  - destruct (build (node e)) as [x|]; [|discriminate]. cbn [bind] in *.
    destruct (buildAll build l1) as [xs'|]; [|discriminate].
    cbn [bind] in *. injection H1 as <-.
    now rewrite (IH xs' eq_refl H2).
Qed.

(** X14. When the paging loop returns a list, the gateway served a first
    run of pages that announce a next page and then one that does not; the
    first query was made at the starting cursor and each later one at the
    cursor of the last edge seen so far; and the list is what was there,
    followed by the entities built from the edges of these pages, in
    order of arrival. *)
Theorem pageLoop_collects_pages (fuel : nat) :
  forall (cursor0 : string) (all0 all : list E),
    pageLoop fuel postPage build cursor0 all0 = Some (Ok all) ->
    exists (pages : list Page) (lastPage : Page) (built : list E),
      served postPage cursor0 (pages ++ [lastPage])
      /\ Forall (fun p => hasNextPage p = true) pages
      /\ hasNextPage lastPage = false
      /\ buildAll build (List.concat (map pageEdges (pages ++ [lastPage])))
         = Ok built
      /\ all = all0 ++ built
      /\ (List.length pages < fuel)%nat.
Proof.
  induction fuel as [|fuel IH]; intros cursor0 all0 all Hrun;
    [discriminate|].
  cbn [pageLoop] in Hrun.
  destruct (postPage cursor0) as [page|] eqn:Hpost; [|discriminate].
  destruct (buildAll build (pageEdges page)) as [items|] eqn:Hitems;
    [|discriminate].
  destruct (hasNextPage page) eqn:Hnext.
  - destruct (IH _ _ _ Hrun)
      as (pages & lastPage & built & Hserved & Hall & Hlast & Hbuilt & -> & Hn).
    exists (page :: pages), lastPage, (items ++ built).
    split; [cbn; split; assumption|].
    split; [constructor; assumption|].
    split; [exact Hlast|].
    split; [cbn; now apply buildAll_app|].
    split; [now rewrite app_assoc | cbn; lia].
  - injection Hrun as <-. exists [], page, items.
    cbn. rewrite app_nil_r. repeat split; auto. lia.
Qed.

(** X15. The cursor moves only with the edges of a page: at a cursor where
    the gateway answers an empty page that announces a next page, the loop
    repeats the same query and never returns, whatever the number of
    queries allowed. *)
Theorem pageLoop_spins_on_empty_page (cursor0 : string)
    (Hempty : postPage cursor0 = Ok (mkPage [] true)) :
  forall (fuel : nat) (all0 : list E),
    pageLoop fuel postPage build cursor0 all0 = None.
Proof.
  induction fuel as [|fuel IH]; intros all0; [reflexivity|].
  cbn [pageLoop]. rewrite Hempty. cbn. apply IH.
Qed.

End PagingLoop.

Lemma pageLoop_collects_pages_witness :
  ArFSDAO.getAllPaged 5 demoPages demoBuild (fun _ _ _ => true) false
  = Some (Ok ["tx-1"; "tx-2"; "tx-3"])
  /\ exists pages lastPage,
       served demoPages "" (pages ++ [lastPage])
       /\ ArFSDAO.hasNextPage lastPage = false.
Proof.
  split; [reflexivity|].
  destruct (pageLoop_collects_pages string demoPages demoBuild 5 "" []
              ["tx-1"; "tx-2"; "tx-3"] eq_refl)
    as (pages & lastPage & built & Hserved & _ & Hlast & _).
  exists pages, lastPage. split; assumption.
Defined.

Lemma pageLoop_spins_on_empty_page_witness :
  ArFSDAO.pageLoop 7 demoPages demoBuild "c9" ["tx-0"] = None.
Proof.
  exact (pageLoop_spins_on_empty_page string demoPages demoBuild "c9"
           eq_refl 7%nat ["tx-0"]).
Defined.

(** ** Signing and boosting a transaction *)

Section Boost.
Import ArFSDAO Signing.

(** X16. A transaction prepareArFSObjectTransaction returns was created by
    createTransaction with the reward attribute of the settings, and
    carries the protocol tags, which start with App-Name, App-Version and
    ArFS and do not depend on the caller's tags, and then the caller's
    tags, which replace none of them.  Its reward is the reward of the
    created transaction unless a fee multiple above 1 is set: then it is
    Math.ceil of reward times multiple, computed on doubles, and a Boost
    tag holding the multiple follows the ArFS tag.  A multiple that is not
    above 1, NaN included, changes nothing. *)
Theorem prepareArFSObjectTransaction_boost (s : Signer)
    (objectMetaData : ArFSObjectMetadataPrototype) (rs : RewardSettings)
    (otherTags : list GQLTagInterface) (t : SignedTransaction)
    (Hok : prepareArFSObjectTransaction s objectMetaData rs otherTags = Ok t) :
  exists (created : Z) (protocol : list (string * TagValue)),
    createTransaction s (objectData objectMetaData) (rewardAttributeOf rs)
    = Ok created
    /\ signedTags t
       = (protocol
            ++ map (fun g => (tagName g, Text (tagValue g))) otherTags)%list
    /\ (forall otherTags' t',
          prepareArFSObjectTransaction s objectMetaData rs otherTags' = Ok t' ->
          signedTags t'
          = (protocol
               ++ map (fun g => (tagName g, Text (tagValue g)))
                      otherTags')%list)
    /\ firstn 3 protocol
       = [("App-Name", Text (appName s)); ("App-Version", Text (appVersion s));
          ("ArFS", Text (arfsVersion s))]
    /\ match feeMultiple rs with
       | Some m =>
           if Double.ltb (Double.ofZ 1) m
           then signedReward t
                = Printed (Double.ceil (Double.mul (Double.ofZ created) m))
                /\ skipn 3 protocol
                   = (("Boost", Numeral m) :: objectTags objectMetaData)%list
           else signedReward t = Winston created
                /\ skipn 3 protocol = objectTags objectMetaData
       | None =>
           signedReward t = Winston created
           /\ skipn 3 protocol = objectTags objectMetaData
       end.
Proof.
  unfold prepareArFSObjectTransaction in Hok |- *.
  destruct (createTransaction s _ _) as [created|] eqn:Hcreated;
    [|discriminate].
  cbn [bind] in Hok |- *.
  destruct (assertProtectedTags s objectMetaData otherTags); [|discriminate].
  cbn [bind] in Hok.
  destruct (sign s _ _ _); [|discriminate].
  cbn [bind] in Hok. injection Hok as <-. cbn [signedTags signedReward].
  exists created,
    (([("App-Name", Text (appName s)); ("App-Version", Text (appVersion s));
       ("ArFS", Text (arfsVersion s))]
        ++ match boostOf rs with
           | Some m => [("Boost", Numeral m)]
           | None => []
           end) ++ objectTags objectMetaData)%list.
  split; [reflexivity|]. split; [reflexivity|]. split.
  { intros otherTags' t'.
    destruct (assertProtectedTags s objectMetaData otherTags');
      [|discriminate].
    cbn [bind]. destruct (sign s _ _ _); [|discriminate].
    cbn [bind]. intros H. injection H as <-. reflexivity. }
  split; [reflexivity|].
  unfold boostOf. destruct (feeMultiple rs) as [m|].
  - destruct (Double.ltb (Double.ofZ 1) m); split; reflexivity.
  - split; reflexivity.
Qed.

End Boost.

(** A created reward of 50 winston under a multiple of 1.1: the double
    product lies above 55, and the reward becomes 56. *)
Lemma prepareArFSObjectTransaction_boost_witness :
  exists t protocol,
    Signing.prepareArFSObjectTransaction demoSigner
      (Signing.mkPrototype "{}" [("Entity-Type", Signing.Text "folder")])
      (ArFSDAO.mkReward None (Some (Double.div (Double.ofZ 11) (Double.ofZ 10))))
      [ArFSDAO.mkTag "Caller" "x"] = Ok t
    /\ Signing.signedReward t = Signing.Printed (Double.ofZ 56)
    /\ Signing.signedTags t
       = (protocol ++ [("Caller", Signing.Text "x")])%list
    /\ firstn 3 protocol
       = [("App-Name", Signing.Text "ArDrive-CLI");
          ("App-Version", Signing.Text "2.0");
          ("ArFS", Signing.Text "0.11")].
Proof.
  eexists.
  destruct (prepareArFSObjectTransaction_boost demoSigner
              (Signing.mkPrototype "{}" [("Entity-Type", Signing.Text "folder")])
              (ArFSDAO.mkReward None
                 (Some (Double.div (Double.ofZ 11) (Double.ofZ 10))))
              [ArFSDAO.mkTag "Caller" "x"] _ eq_refl)
    as (created & protocol & Hcreated & Htags & _ & Hfirst & Hboost).
  exists protocol. split; [reflexivity|].
  split; [reflexivity|]. split; [exact Htags | exact Hfirst].
Defined.

(** ** File upload: what is submitted and what is reported *)

Section UploadReport.
Import ArDrive.

Variable d : Deps.

(** X17. An upload starts its submissions only after the wallet check has
    accepted the total price, and then starts all three of them, data,
    metadata and tip, in this order; in every other case, whether a lookup
    or preparation step threw or the check refused, nothing is submitted
    and the upload throws.  A successful upload has always started all
    three. *)
Theorem upload_submits_all_or_nothing
    (parentFolderId filePath password : string)
    (destinationFileName : option string) :
  (forall r started,
     uploadPublicFile d parentFolderId filePath destinationFileName
     = (r, started) ->
     (started = [] /\ exists e, r = Throw e)
     \/ exists f commTipTrx,
          quotePublic d parentFolderId filePath destinationFileName
          = Ok (f, commTipTrx)
          /\ walletHasBalance d
               (totalWinstonPrice (dataTrx f) commTipTrx (metaDataTrx f))
             = true
          /\ started = [ChunkUpload (dataTrx f); ChunkUpload (metaDataTrx f);
                        TipTransfer commTipTrx])
  /\ (forall r started,
        uploadPrivateFile d parentFolderId filePath password
          destinationFileName = (r, started) ->
        (started = [] /\ exists e, r = Throw e)
        \/ exists f commTipTrx,
             quotePrivate d parentFolderId filePath password
               destinationFileName = Ok (f, commTipTrx)
             /\ walletHasBalance d
                  (totalWinstonPrice (dataTrx f) commTipTrx (metaDataTrx f))
                = true
             /\ started = [ChunkUpload (dataTrx f);
                           ChunkUpload (metaDataTrx f);
                           TipTransfer commTipTrx]).
Proof.
  split; intros r started.
  - unfold uploadPublicFile.
    destruct (quotePublic _ _ _ _) as [[f tip]|e].
    + destruct (walletHasBalance d _) eqn:Hw; cbn [negb].
      * unfold submitAll.
        destruct (_ <- uploadByChunk d (dataTrx f) ;; _);
          intros H; injection H as <- <-; right; exists f, tip; auto.
      * intros H. injection H as <- <-. left. eauto.
    + intros H. injection H as <- <-. left. eauto.
  - unfold uploadPrivateFile.
    destruct (quotePrivate _ _ _ _ _) as [[f tip]|e].
    + destruct (walletHasBalance d _) eqn:Hw; cbn [negb].
      * unfold submitAll.
        destruct (_ <- uploadByChunk d (dataTrx f) ;; _);
          intros H; injection H as <- <-; right; exists f, tip; auto.
      * intros H. injection H as <- <-. left. eauto.
    + intros H. injection H as <- <-. left. eauto.
Qed.

Lemma fees_of_three {V : Type} (k1 k2 k3 : string) (v1 v2 v3 : V) :
  k1 <> k2 -> k3 <> k1 -> k3 <> k2 ->
  get (set (set (set [] k1 v1) k2 v2) k3 v3) k2 = Some v2
  /\ get (set (set (set [] k1 v1) k2 v2) k3 v3) k1 = Some v1
  /\ keys (set (set (set [] k1 v1) k2 v2) k3 v3) = [k1; k2; k3].
Proof.
  intros H1 H2 H3. split; [|split].
  - rewrite get_set_other by congruence. apply get_set_same.
  - rewrite get_set_other by congruence.
    rewrite get_set_other by congruence. apply get_set_same.
  - cbn [set]. apply String.eqb_neq in H1.
    rewrite String.eqb_sym in H1. rewrite H1. cbn [set].
    apply String.eqb_neq in H2, H3. rewrite H2. cbn [set]. rewrite H3.
    reflexivity.
Qed.

Lemma fees_of_two {V : Type} (k1 k2 : string) (v1 v2 : V) :
  k1 <> k2 ->
  get (set (set [] k1 v1) k2 v2) k1 = Some v1
  /\ keys (set (set [] k1 v1) k2 v2) = [k1; k2].
Proof.
  intros H1. split.
  - rewrite get_set_other by congruence. apply get_set_same.
  - cbn [set]. apply String.eqb_neq in H1.
    rewrite String.eqb_sym in H1. rewrite H1. reflexivity.
Qed.

(** X18. A successful private upload reports a fee for each of its three
    transactions, the number read from the reward of that transaction, and
    with three distinct transaction IDs these are all its fees; the price
    that was checked against the wallet is their sum in double arithmetic,
    added in the order data, tip, metadata.  A successful public upload
    reports the data and metadata fees only: the tip transaction it
    submitted is not among the keys of its fees, although its reward was
    part of the price that was checked.  Both report one tip, with the ID,
    target and quantity of the tip transaction. *)
Theorem upload_reports_fees
    (parentFolderId filePath password : string)
    (destinationFileName : option string) :
  (forall r started,
     uploadPrivateFile d parentFolderId filePath password destinationFileName
     = (Ok r, started) ->
     exists f tip,
       quotePrivate d parentFolderId filePath password destinationFileName
       = Ok (f, tip)
       /\ tips r = [mkTipData (id tip) (target tip) (quantity tip)]
       /\ get (fees r) (id tip) = Some (Double.ofZ (reward tip))
       /\ (id (metaDataTrx f) <> id (dataTrx f) ->
           id tip <> id (metaDataTrx f) -> id tip <> id (dataTrx f) ->
           (forall k, In k (keys (fees r))
                      <-> k = id (dataTrx f) \/ k = id (metaDataTrx f)
                          \/ k = id tip)
           /\ exists feeData feeTip feeMeta,
                get (fees r) (id (dataTrx f)) = Some feeData
                /\ get (fees r) (id tip) = Some feeTip
                /\ get (fees r) (id (metaDataTrx f)) = Some feeMeta
                /\ feeData = Double.ofZ (reward (dataTrx f))
                /\ feeMeta = Double.ofZ (reward (metaDataTrx f))
                /\ totalWinstonPrice (dataTrx f) tip (metaDataTrx f)
                   = Double.add (Double.add feeData feeTip) feeMeta))
  /\ (forall r started,
        uploadPublicFile d parentFolderId filePath destinationFileName
        = (Ok r, started) ->
        exists f tip,
          quotePublic d parentFolderId filePath destinationFileName
          = Ok (f, tip)
          /\ tips r = [mkTipData (id tip) (target tip) (quantity tip)]
          /\ get (fees r) (id (dataTrx f))
             = Some (Double.ofZ (reward (dataTrx f)))
          /\ (id (metaDataTrx f) <> id (dataTrx f) ->
              id tip <> id (metaDataTrx f) -> id tip <> id (dataTrx f) ->
              ~ In (id tip) (keys (fees r))
              /\ exists feeData feeMeta,
                   get (fees r) (id (dataTrx f)) = Some feeData
                   /\ get (fees r) (id (metaDataTrx f)) = Some feeMeta
                   /\ totalWinstonPrice (dataTrx f) tip (metaDataTrx f)
                      = Double.add
                          (Double.add feeData (Double.ofZ (reward tip)))
                          feeMeta)).
Proof.
  split; intros r started.
  - unfold uploadPrivateFile.
    destruct (quotePrivate _ _ _ _ _) as [[f tip]|e]; [|discriminate].
    destruct (negb _); [discriminate|].
    destruct (submitAll _ _ _ _) as [[u|e] s]; [|discriminate].
    intros H. injection H as <- _. exists f, tip.
    split; [reflexivity|]. split; [reflexivity|].
    assert (Htip : get (set (set (set [] (id (metaDataTrx f))
                                     (fee (metaDataTrx f)))
                                (id (dataTrx f)) (fee (dataTrx f)))
                           (id tip) (fee tip)) (id tip)
                   = Some (Double.ofZ (reward tip)))
      by apply get_set_same.
    split; [exact Htip|].
    intros H1 H2 H3.
    destruct (fees_of_three (id (metaDataTrx f)) (id (dataTrx f)) (id tip)
                (fee (metaDataTrx f)) (fee (dataTrx f)) (fee tip)
                H1 H2 H3) as (Hd & Hm & Hkeys).
    split.
    + intros k.
      change (In k (keys (set (set (set [] (id (metaDataTrx f))
                                        (fee (metaDataTrx f)))
                                   (id (dataTrx f)) (fee (dataTrx f)))
                              (id tip) (fee tip)))
              <-> k = id (dataTrx f) \/ k = id (metaDataTrx f)
                  \/ k = id tip).
      rewrite Hkeys. cbn [In]. intuition congruence.
    + exists (fee (dataTrx f)), (fee tip), (fee (metaDataTrx f)).
      split; [exact Hd|]. split; [exact Htip|]. split; [exact Hm|].
      repeat split.
  - unfold uploadPublicFile.
    destruct (quotePublic _ _ _ _) as [[f tip]|e]; [|discriminate].
    destruct (negb _); [discriminate|].
    destruct (submitAll _ _ _ _) as [[u|e] s]; [|discriminate].
    intros H. injection H as <- _. exists f, tip.
    split; [reflexivity|]. split; [reflexivity|].
    assert (Hd : get (set (set [] (id (metaDataTrx f)) (fee (metaDataTrx f)))
                        (id (dataTrx f)) (fee (dataTrx f))) (id (dataTrx f))
                 = Some (Double.ofZ (reward (dataTrx f))))
      by apply get_set_same.
    split; [exact Hd|].
    intros H1 H2 H3.
    destruct (fees_of_two (id (metaDataTrx f)) (id (dataTrx f))
                (fee (metaDataTrx f)) (fee (dataTrx f)) H1)
      as (Hm & Hkeys).
    split.
    + change (~ In (id tip)
                 (keys (set (set [] (id (metaDataTrx f))
                                 (fee (metaDataTrx f)))
                            (id (dataTrx f)) (fee (dataTrx f))))).
      rewrite Hkeys. cbn [In]. intuition congruence.
    + exists (fee (dataTrx f)), (fee (metaDataTrx f)).
      split; [exact Hd|]. split; [exact Hm|]. reflexivity.
Qed.

End UploadReport.

Lemma upload_submits_all_or_nothing_witness :
  (exists f tip,
     ArDrive.quotePublic (demoDeps 1000) "P" "/tmp/x.txt" None = Ok (f, tip)
     /\ snd (ArDrive.uploadPublicFile (demoDeps 1000) "P" "/tmp/x.txt" None)
        = [ArDrive.ChunkUpload (ArDrive.dataTrx f);
           ArDrive.ChunkUpload (ArDrive.metaDataTrx f);
           ArDrive.TipTransfer tip])
  /\ snd (ArDrive.uploadPublicFile (demoDeps 1000) "nowhere" "/tmp/x.txt" None)
     = [].
Proof.
  pose proof (fun p =>
    proj1 (upload_submits_all_or_nothing (demoDeps 1000) p "/tmp/x.txt" "pw"
             None)) as H.
  split.
  - destruct (H "P" _ _ eq_refl) as [[E _]|(f & tip & Hq & _ & Hs)].
    + discriminate E.
    + exists f, tip. split; [exact Hq | exact Hs].
  - destruct (H "nowhere" _ _ eq_refl) as [[E _]|(f & tip & Hq & _)].
    + exact E.
    + discriminate Hq.
Defined.

Lemma upload_reports_fees_witness :
  exists r started,
    ArDrive.uploadPrivateFile (demoDeps 1000) "P" "/tmp/x.txt" "pw" None
    = (Ok r, started)
    /\ keys (ArDrive.fees r) = ["tx-meta"; "tx-data"; "tx-tip"]
    /\ get (ArDrive.fees r) "tx-tip" = Some (Double.ofZ 5).
Proof.
  eexists. eexists. split; [reflexivity|]. split; [reflexivity|].
  match goal with
  | |- get (ArDrive.fees ?r) _ = _ =>
      destruct (proj1 (upload_reports_fees (demoDeps 1000) "P" "/tmp/x.txt"
                         "pw" None) r _ eq_refl)
        as (f & tip & Hq & _ & Hfee & _)
  end.
  injection Hq as <- <-. exact Hfee.
Defined.

(** ** Community tip and weights: bounds *)

Section TipBounds.
Import ArDriveCommunityOracle.
Local Open Scope Q_scope.

(** X19. For a tip rate that is not negative the tip grows with the cost:
    a dearer upload never tips less; and once cost times rate / 100 reaches
    the minimum tip, the tip is that product. *)
Theorem getCommunityARTip_monotone (communityTipValue cost1 cost2 : Q)
    (Hrate : 0 <= communityTipValue) (Hcost : cost1 <= cost2) :
  getCommunityARTip communityTipValue cost1
  <= getCommunityARTip communityTipValue cost2
  /\ (minArDriveCommunityARTip <= cost2 * (communityTipValue / 100) ->
      getCommunityARTip communityTipValue cost2
      == cost2 * (communityTipValue / 100)).
Proof.
  unfold getCommunityARTip. cbv zeta. split.
  - apply Q.max_le_compat_r.
    assert (H0 : 0 <= communityTipValue / 100).
    { apply Qle_shift_div_l; [reflexivity | lra]. }
    assert (H1 : 0 <= (cost2 - cost1) * (communityTipValue / 100)).
    { apply Qmult_le_0_compat; [lra | exact H0]. }
    lra.
  - intros H. now apply Q.max_l.
Qed.

End TipBounds.

Lemma getCommunityARTip_monotone_witness :
  (ArDriveCommunityOracle.getCommunityARTip 15 1
   <= ArDriveCommunityOracle.getCommunityARTip 15 2)%Q
  /\ (ArDriveCommunityOracle.getCommunityARTip 15 2 == 30 # 100)%Q.
Proof.
  destruct (getCommunityARTip_monotone 15 1 2) as [Hle Heq].
  - discriminate.
  - discriminate.
  - split; [exact Hle|]. rewrite Heq; [reflexivity | discriminate].
Defined.

Section WeightBounds.
Import ArDriveCommunityOracle.

Lemma get_In {V : Type} (d : dict V) (k : string) (v : V) :
  get d k = Some v -> In (k, v) d.
Proof.
  induction d as [|[k' v'] d IH]; simpl; [discriminate|].
  destruct (String.eqb_spec k k') as [->|Hne].
  - intros H. injection H as ->. now left.
  - intros H. right. now apply IH.
Qed.

Lemma Forall_set (P : Z -> Prop) (d : dict Z) (k : string) (v : Z) :
  P v -> Forall (fun kx => P (snd kx)) d ->
  Forall (fun kx => P (snd kx)) (set d k v).
Proof.
  intros Hv. induction d as [|[k' v'] d IH]; intros H; simpl.
  - constructor; [exact Hv | constructor].
  - inversion H as [|? ? H1 H2]; subst.
    destruct (String.eqb k k'); constructor; auto.
Qed.

Lemma fold_add_nonneg (l : list Z) :
  forall acc : Z,
    (0 <= acc)%Z -> Forall (fun x => 0 <= x)%Z l ->
    (0 <= fold_left Z.add l acc)%Z.
Proof.
  induction l as [|x l IH]; intros acc Ha Hl; [exact Ha|].
  inversion Hl; subst. cbn [fold_left]. apply IH; [lia | assumption].
Qed.

Lemma vaultBalanceOf_nonneg (entries : list VaultEntry) :
  forallb (fun e => (0 <=? balance e)%Z) entries = true ->
  (0 <= vaultBalanceOf entries)%Z.
Proof.
  intros H. unfold vaultBalanceOf. apply fold_add_nonneg; [lia|].
  apply Forall_forall. intros x Hx. apply in_map_iff in Hx as (e & <- & He).
  rewrite forallb_forall in H. apply Z.leb_le, H, He.
Qed.

Lemma staked_nonneg (c : Contract) :
  nonNegative c = true ->
  Forall (fun kx => 0 <= snd kx)%Z (snd (staked c)).
Proof.
  unfold nonNegative. intros H. apply andb_prop in H as [Hb Hv].
  assert (Hvault : forall a entries,
             get (vault c) a = Some entries ->
             (0 <= vaultBalanceOf entries)%Z).
  { intros a entries Hg. apply vaultBalanceOf_nonneg.
    rewrite forallb_forall in Hv. apply (Hv (a, entries)).
    now apply get_In. }
  unfold staked.
  assert (Hstart : Forall (fun kx => 0 <= snd kx)%Z
                     (snd (sumOfBalances (balances c), balances c))).
  { apply Forall_forall. intros kx Hkx. rewrite forallb_forall in Hb.
    apply Z.leb_le, Hb, Hkx. }
  revert Hstart.
  generalize (sumOfBalances (balances c), balances c).
  induction (keys (vault c)) as [|k ks IH]; intros acc Hacc; [exact Hacc|].
  cbn [fold_left]. apply IH.
  destruct acc as [total b]. unfold foldVault. cbn [snd] in Hacc |- *.
  destruct (get (vault c) k) as [[|e es]|] eqn:Hg; cbn [snd]; try exact Hacc.
  pose proof (Hvault k _ Hg) as Hnn.
  destruct (get b k) as [x|] eqn:Hx.
  - apply (Forall_set (fun z => 0 <= z)%Z); [|exact Hacc].
    apply get_In in Hx. rewrite Forall_forall in Hacc.
    specialize (Hacc _ Hx). cbn in Hacc. lia.
  - apply (Forall_set (fun z => 0 <= z)%Z); assumption.
Qed.

Lemma sumZ_nonneg (l : list Z) :
  Forall (fun y => 0 <= y)%Z l -> (0 <= sumZ l)%Z.
Proof.
  unfold sumZ. induction 1 as [|y l Hy _ IH]; cbn [fold_right]; lia.
Qed.

Lemma sumZ_bounds (l : list Z) (x : Z) :
  Forall (fun y => 0 <= y)%Z l -> In x l -> (0 <= x <= sumZ l)%Z.
Proof.
  induction l as [|y l IH]; intros Hl Hin; [destruct Hin|].
  inversion Hl as [|? ? Hy Hl']; subst.
  pose proof (sumZ_nonneg l Hl') as Hsum.
  change (sumZ (y :: l)) with (y + sumZ l)%Z.
  destruct Hin as [->|Hin]; [lia|].
  specialize (IH Hl' Hin). lia.
Qed.

(** X20. For a contract whose tables are JS objects with ordinary
    addresses as keys, whose balances and vault balances are not negative
    and whose holdings do not all vanish, every weight of the table
    selectTokenHolder builds is a finite number between 0 and 1 (in exact
    arithmetic). *)
Theorem weights_between_zero_and_one (c : Contract)
    (Hb : uniqueKeys (keys (balances c)) = true)
    (Hv : uniqueKeys (keys (vault c)) = true)
    (Hplain : ordinaryAddresses c = true)
    (Hnn : nonNegative c = true)
    (Htotal : fst (staked c) <> 0%Z) :
  forall (a : string) (weight : number),
    get (weightedOf c) a = Some weight ->
    exists q, weight = Fin q /\ (0 <= q)%Q /\ (q <= 1)%Q.
Proof.
  intros a weight Hw.
  assert (Hsum : fst (staked c) = sumZ (map snd (snd (staked c)))).
  { apply staking_invariants; [now apply sumOfBalances_sum | exact Hb]. }
  rewrite (weightedOf_map c Hb) in Hw.
  rewrite (get_map_weight _ (fun x => divide x (fst (staked c)))) in Hw.
  destruct (get (snd (staked c)) a) as [x|] eqn:Hx; [|discriminate].
  cbn in Hw. injection Hw as <-.
  assert (Hbound : (0 <= x <= fst (staked c))%Z).
  { rewrite Hsum. apply sumZ_bounds.
    - pose proof (staked_nonneg c Hnn) as H.
      apply Forall_forall. intros y Hy.
      apply in_map_iff in Hy as (kx & <- & Hkx).
      rewrite Forall_forall in H. now apply H.
    - apply get_In in Hx. now apply (in_map snd) in Hx. }
  unfold divide. destruct (Z.eqb_spec (fst (staked c)) 0); [contradiction|].
  eexists. split; [reflexivity|].
  assert (Hpos : (0 < inject_Z (fst (staked c)))%Q).
  { change 0%Q with (inject_Z 0). rewrite <- Zlt_Qlt. lia. }
  split.
  - apply Qle_shift_div_l; [exact Hpos|].
    setoid_replace (0 * inject_Z (fst (staked c)))%Q with (inject_Z 0)
      by ring.
    rewrite <- Zle_Qle. lia.
  - apply Qle_shift_div_r; [exact Hpos|].
    setoid_replace (1 * inject_Z (fst (staked c)))%Q
      with (inject_Z (fst (staked c))) by ring.
    rewrite <- Zle_Qle. lia.
Qed.

End WeightBounds.

Lemma weights_between_zero_and_one_witness :
  exists q,
    get (ArDriveCommunityOracle.weightedOf demoContract) "B"
    = Some (ArDriveCommunityOracle.Fin q)
    /\ (0 <= q)%Q /\ (q <= 1)%Q.
Proof.
  destruct (weights_between_zero_and_one demoContract eq_refl eq_refl
              eq_refl eq_refl ltac:(discriminate) "B" _ eq_refl)
    as (q & Hq & H0 & H1).
  exists q. split; [|split; assumption].
  now rewrite <- Hq.
Defined.

(** ** Output path resolution *)

Section OutputPathProps.
Import OutputPath.

(** X21. getOutputFilePathAndName returns the resolved path alone exactly
    for an existing directory; it returns the parent directory and the
    base name for an existing file, and otherwise whenever the parent
    directory exists and is a directory, be the destination missing or
    something that is neither file nor directory.  What it throws is the
    failure of statSync on the parent, or the not-a-directory error for a
    parent that is no directory: its own message about a destination that
    is neither folder nor file never reaches the caller. *)
Theorem getOutputFilePathAndName_outcomes (fs : FileSystem)
    (destOutputPath : string) :
  let resolved := resolve fs destOutputPath in
  let dir := dirname fs resolved in
  let base := basename fs resolved in
  match getOutputFilePathAndName fs destOutputPath with
  | Ok (p, None) =>
      p = resolved
      /\ exists st, statSync fs resolved = Ok st /\ isDirectory st = true
  | Ok (p, Some n) =>
      p = dir /\ n = base
      /\ ((exists st, statSync fs resolved = Ok st
                      /\ isDirectory st = false /\ isFile st = true)
          \/ ((forall st, statSync fs resolved = Ok st ->
                          isDirectory st = false /\ isFile st = false)
              /\ exists pst, statSync fs dir = Ok pst
                             /\ isDirectory pst = true))
  | Throw e =>
      (forall st, statSync fs resolved = Ok st ->
                  isDirectory st = false /\ isFile st = false)
      /\ (statSync fs dir = Throw e
          \/ (e = notADirectory dir /\ e <> notFolderNorFile
              /\ exists pst, statSync fs dir = Ok pst
                             /\ isDirectory pst = false))
  end.
Proof.
  cbv zeta. unfold getOutputFilePathAndName.
  assert (Hparent :
    forall P : Prop,
      P ->
      match
        outputParentPathStats <-
          statSync fs (dirname fs (resolve fs destOutputPath)) ;;
        if isDirectory outputParentPathStats
        then Ok (dirname fs (resolve fs destOutputPath),
                 Some (basename fs (resolve fs destOutputPath)))
        else Throw (notADirectory (dirname fs (resolve fs destOutputPath)))
      with
      | Ok (p, None) => False
      | Ok (p, Some n) =>
          p = dirname fs (resolve fs destOutputPath)
          /\ n = basename fs (resolve fs destOutputPath)
          /\ P
          /\ exists pst,
               statSync fs (dirname fs (resolve fs destOutputPath)) = Ok pst
               /\ isDirectory pst = true
      | Throw e =>
          P
          /\ (statSync fs (dirname fs (resolve fs destOutputPath)) = Throw e
              \/ (e = notADirectory (dirname fs (resolve fs destOutputPath))
                  /\ e <> notFolderNorFile
                  /\ exists pst,
                       statSync fs (dirname fs (resolve fs destOutputPath))
                       = Ok pst
                       /\ isDirectory pst = false))
      end).
  { intros P HP.
    destruct (statSync fs (dirname fs (resolve fs destOutputPath)))
      as [pst|e] eqn:Hp; cbn [bind].
    - destruct (isDirectory pst) eqn:Hd.
      + repeat split; auto. exists pst. now split.
      + split; [exact HP|]. right. split; [reflexivity|].
        split; [discriminate|]. exists pst. now split.
    - split; [exact HP|]. now left. }
  destruct (statSync fs (resolve fs destOutputPath)) as [st|e] eqn:Hs;
    cbn [bind].
  - destruct (isDirectory st) eqn:Hd.
    + split; [reflexivity|]. exists st. now split.
    + destruct (isFile st) eqn:Hf.
      * repeat split. left. exists st. now repeat split.
      * specialize (Hparent
          (forall st0, Ok st = Ok st0 ->
                       isDirectory st0 = false /\ isFile st0 = false)).
        destruct (_ <- statSync fs _ ;; _) as [[p [n|]]|e'].
        -- destruct Hparent as (-> & -> & HP & Hpst).
           { intros st0 E. injection E as <-. now split. }
           repeat split. right. split; assumption.
        -- destruct Hparent. intros st0 E. injection E as <-. now split.
        -- apply Hparent. intros st0 E. injection E as <-. now split.
  - specialize (Hparent
      (forall st0, Throw e = Ok st0 ->
                   isDirectory st0 = false /\ isFile st0 = false)).
    destruct (_ <- statSync fs _ ;; _) as [[p [n|]]|e'].
    + destruct Hparent as (-> & -> & HP & Hpst); [discriminate|].
      repeat split. right. split; assumption.
    + destruct Hparent. discriminate.
    + apply Hparent. discriminate.
Qed.

End OutputPathProps.

(** ** The tx-status command *)

Section TxStatusProps.
Import TxStatus.

(** X22. The tx-status command reports a transaction found in the mempool
    as pending, with success, without asking for its status.  Otherwise it
    exits with the error code exactly when the status has no confirmed
    part or a block height of 0, and reports it mined exactly when its
    confirmations reach the threshold, 15 unless given: a threshold of 0 is
    kept as given and reports every confirmed transaction as mined. *)
Theorem txStatus_outcomes (mempool : list string)
    (getStatus : string -> result (option Confirmed))
    (txId : string) (confirmations : option nat) :
  (In txId mempool ->
   forall getStatus',
     action (Ok mempool) getStatus' txId confirmations
     = Ok (Pending, SUCCESS_EXIT_CODE))
  /\ (~ In txId mempool ->
      forall report code,
        action (Ok mempool) getStatus txId confirmations = Ok (report, code) ->
        (code = ERROR_EXIT_CODE
         <-> getStatus txId = Ok None
             \/ exists st, getStatus txId = Ok (Some st)
                           /\ block_height st = 0%nat)
        /\ (code = ERROR_EXIT_CODE <-> report = NotFound)
        /\ (forall st, getStatus txId = Ok (Some st) ->
                       block_height st <> 0%nat ->
              (match confirmations with Some n => n | None => 15%nat end
               <= number_of_confirmations st)%nat ->
              report = Mined (block_height st) (number_of_confirmations st))
        /\ (forall st, getStatus txId = Ok (Some st) ->
                       block_height st <> 0%nat ->
              (number_of_confirmations st
               < match confirmations with Some n => n | None => 15%nat end)%nat ->
              report
              = Confirming (block_height st) (number_of_confirmations st))).
Proof.
  split.
  - intros Hin getStatus'. unfold action. cbn [bind].
    apply includes_In in Hin. now rewrite Hin.
  - intros Hout report code. unfold action. cbn [bind].
    apply includes_false in Hout. rewrite Hout.
    destruct (getStatus txId) as [[st|]|e]; cbn [bind]; [| |discriminate].
    + destruct (Nat.eqb_spec (block_height st) 0) as [Hz|Hnz].
      * intros H. injection H as <- <-. repeat split; auto.
        -- intros _. right. exists st. now split.
        -- intros st' E. injection E as <-. contradiction.
        -- intros st' E. injection E as <-. contradiction.
      * destruct (Nat.leb_spec
                    (match confirmations with Some n => n | None => 15%nat end)
                    (number_of_confirmations st)) as [Hle|Hlt];
          intros H; injection H as <- <-.
        -- repeat split; try discriminate.
           ++ intros [E|(st' & E & Hz)]; [discriminate E|].
              injection E as <-. contradiction.
           ++ intros st' E _ _. now injection E as <-.
           ++ intros st' E _ Hlt. injection E as <-. lia.
        -- repeat split; try discriminate.
           ++ intros [E|(st' & E & Hz)]; [discriminate E|].
              injection E as <-. contradiction.
           ++ intros st' E _ Hle. injection E as <-. lia.
           ++ intros st' E _ _. now injection E as <-.
    + intros H. injection H as <- <-. repeat split; auto; discriminate.
Qed.

End TxStatusProps.

Lemma txStatus_outcomes_witness :
  TxStatus.action (Ok ["tx-7"]) (fun _ => Throw TypeError) "tx-7" None
  = Ok (TxStatus.Pending, TxStatus.SUCCESS_EXIT_CODE)
  /\ TxStatus.action (Ok ["tx-7"])
       (fun _ => Ok (Some (TxStatus.mkConfirmed 900 3))) "tx-8" (Some 0%nat)
     = Ok (TxStatus.Mined 900 3, TxStatus.SUCCESS_EXIT_CODE).
Proof.
  split.
  - apply (proj1 (txStatus_outcomes ["tx-7"] (fun _ => Throw TypeError)
                    "tx-7" None)).
    now left.
  - destruct (proj2 (txStatus_outcomes ["tx-7"]
                (fun _ => Ok (Some (TxStatus.mkConfirmed 900 3))) "tx-8"
                (Some 0%nat))
              ltac:(simpl; intros [H|[]]; discriminate H) _ _ eq_refl)
      as (_ & _ & Hmined & _).
    reflexivity.
Defined.

Section FileUploadProps.
Import ArFSDAO.

Lemma sendFile_blind (c : Client) (w : FileWriter)
    (script : list (option Uploader)) (dataTrx : Transaction)
    (before : list FileEffect)
    (metaFor : string -> result (FileMetaDataPrototype * option string))
    (rs : RewardSettings) r effects r' effects'
    (Hrun : sendFile c w dataTrx before metaFor rs = Some (r, effects))
    (Hrun' : sendFile c (withDataChunks w script) dataTrx before metaFor rs
             = Some (r', effects')) :
  r = r'.
Proof.
  unfold sendFile in Hrun, Hrun'. cbn [withDataChunks getUploader dataChunks
    prepareFileMeta metaChunks] in Hrun'.
  destruct (dryRun c); cbn [negb] in Hrun, Hrun'.
  - destruct (metaFor (trxId dataTrx)) as [[m k]|e]; [|congruence].
    destruct (prepareFileMeta w m rs); congruence.
  - destruct (getUploader w dataTrx) as [u|e]; [|congruence].
    destruct (sendChunkedUploadWithProgress (dataChunks w) u); [|discriminate].
    destruct (sendChunkedUploadWithProgress script u); [|discriminate].
    destruct (metaFor (trxId dataTrx)) as [[m k]|e]; [|congruence].
    destruct (prepareFileMeta w m rs) as [mt|e]; [|congruence].
    destruct (getUploader w mt) as [mu|e]; [|congruence].
    destruct (uploadChunks (metaChunks w) mu) as [[[a|e] n]|];
      congruence.
Qed.

(** X23. Whether the data of a file reached completion has no influence on
    what uploadPublicFile and uploadPrivateFile return: two calls that
    differ only in how the uploader answers the chunk calls of the data
    upload, each coming to an end, return the same result or throw the same
    error. *)
Theorem uploadFile_blind_to_data_upload (c : Client) (w : FileWriter)
    (script : list (option Uploader))
    (parentFolderId driveId driveKey : string)
    (wrappedFile : ArFSFileToUpload) (dataRs metaRs : RewardSettings)
    (destFileName : option string) :
  (forall r effects r' effects',
     uploadPublicFile c w parentFolderId wrappedFile driveId dataRs metaRs
       destFileName = Some (r, effects) ->
     uploadPublicFile c (withDataChunks w script) parentFolderId wrappedFile
       driveId dataRs metaRs destFileName = Some (r', effects') ->
     r = r')
  /\ (forall r effects r' effects',
        uploadPrivateFile c w parentFolderId wrappedFile driveId driveKey
          dataRs metaRs destFileName = Some (r, effects) ->
        uploadPrivateFile c (withDataChunks w script) parentFolderId
          wrappedFile driveId driveKey dataRs metaRs destFileName
        = Some (r', effects') ->
        r = r').
Proof.
  split; intros r effects r' effects' Hrun Hrun'.
  - unfold uploadPublicFile in Hrun, Hrun'.
    cbn [withDataChunks prepareFileData] in Hrun'.
    destruct (prepareFileData w _ dataRs) as [dt|e]; [|congruence].
    exact (sendFile_blind _ _ _ _ _ _ _ _ _ _ _ Hrun Hrun').
  - unfold uploadPrivateFile in Hrun, Hrun'.
    cbn [withDataChunks prepareFileData encryptFileData encryptFileMeta]
      in Hrun'.
    destruct (encryptFileData w _ _ driveKey) as [ct|e]; [|congruence].
    destruct (prepareFileData w _ dataRs) as [dt|e]; [|congruence].
    exact (sendFile_blind _ _ _ _ _ _ _ _ _ _ _ Hrun Hrun').
Qed.

(** With the first chunk of the data answered by null, the private upload
    of the demo file still returns the result of the complete upload. *)
Lemma uploadFile_blind_to_data_upload_witness :
  exists res effects r' effects',
    uploadPrivateFile demoClient demoFileWriter "P" demoFile "D" "k"
      (mkReward None None) (mkReward None None) None = Some (Ok res, effects)
    /\ uploadPrivateFile demoClient (withDataChunks demoFileWriter [None])
         "P" demoFile "D" "k" (mkReward None None) (mkReward None None) None
       = Some (r', effects')
    /\ Ok res = r'.
Proof.
  eexists. eexists. eexists. eexists.
  split; [reflexivity|]. split; [reflexivity|].
  eapply (proj2 (uploadFile_blind_to_data_upload demoClient demoFileWriter
                   [None] "P" "D" "k" demoFile (mkReward None None)
                   (mkReward None None) None)); reflexivity.
Defined.

Lemma sendFile_shape (c : Client) (w : FileWriter) (dataTrx : Transaction)
    (before : list FileEffect)
    (metaFor : string -> result (FileMetaDataPrototype * option string))
    (rs : RewardSettings) res effects
    (Hrun : sendFile c w dataTrx before metaFor rs = Some (Ok res, effects)) :
  exists m key metaDataTrx,
    metaFor (trxId dataTrx) = Ok (m, key)
    /\ prepareFileMeta w m rs = Ok metaDataTrx
    /\ In (FileMetaPrepared m metaDataTrx) effects
    /\ incl before effects
    /\ res = mkUploadResult (trxId dataTrx) (trxReward dataTrx)
               (trxId metaDataTrx) (trxReward metaDataTrx) (metaFileId m) key.
Proof.
  unfold sendFile in Hrun.
  assert (Hin : forall (l : list FileEffect) x y, In x ((l ++ [x]) ++ y)).
  { intros l x y. apply in_or_app. left. apply in_or_app. right. now left. }
  assert (Hincl : forall (l y z : list FileEffect), incl l ((l ++ y) ++ z)).
  { intros l y z a Ha. apply in_or_app. left. apply in_or_app. now left. }
  destruct (dryRun c); cbn [negb] in Hrun.
  - destruct (metaFor (trxId dataTrx)) as [[m k]|e]; [|discriminate].
    destruct (prepareFileMeta w m rs) as [mt|e] eqn:Hmt; [|discriminate].
    injection Hrun as <- <-. exists m, k, mt.
    split; [reflexivity|]. split; [exact Hmt|].
    split; [apply in_or_app; right; now left|].
    split; [|reflexivity]. intros a Ha. apply in_or_app. now left.
  - destruct (getUploader w dataTrx) as [u|e]; [|discriminate].
    destruct (sendChunkedUploadWithProgress (dataChunks w) u) as [run|];
      [|discriminate].
    destruct (metaFor (trxId dataTrx)) as [[m k]|e]; [|discriminate].
    destruct (prepareFileMeta w m rs) as [mt|e] eqn:Hmt; [|discriminate].
    destruct (getUploader w mt) as [mu|e]; [|discriminate].
    destruct (uploadChunks (metaChunks w) mu) as [[[a|e] n]|];
      try discriminate.
    injection Hrun as <- <-. exists m, k, mt.
    split; [reflexivity|]. split; [exact Hmt|].
    split.
    + apply in_or_app. left. apply in_or_app. right. now left.
    + split; [|reflexivity].
      intros x Hx. apply in_or_app. left. apply in_or_app. left.
      apply in_or_app. now left.
Qed.

(** X24. A private file upload that returns has signed a data transaction
    for the encrypted file and then a metadata transaction whose prototype
    names that data transaction, the fresh file ID, the given parent and
    drive, and the destination name: the given one, the empty string
    included, or else the base name of the file.  The result carries the
    IDs and rewards of the two transactions, the file ID, and the file key
    that the encryption of the metadata answered. *)
Theorem uploadPrivateFile_links_metadata (c : Client) (w : FileWriter)
    (parentFolderId driveId driveKey : string)
    (wrappedFile : ArFSFileToUpload) (dataRs metaRs : RewardSettings)
    (destFileName : option string) res effects
    (Hrun : uploadPrivateFile c w parentFolderId wrappedFile driveId driveKey
              dataRs metaRs destFileName = Some (Ok res, effects)) :
  exists cipherText dataTrx m metaDataTrx metaCipherText key,
    encryptFileData w (fileDataBuffer wrappedFile) (uuidv4 c) driveKey
    = Ok cipherText
    /\ In (FileDataPrepared (PrivateFileData cipherText) dataTrx) effects
    /\ In (FileMetaPrepared m metaDataTrx) effects
    /\ encryptFileMeta w (metaFileName m) (fileSize wrappedFile)
         (lastModifiedDateMS wrappedFile) (trxId dataTrx)
         (dataContentType wrappedFile) (uuidv4 c) driveKey
       = Ok (metaCipherText, key)
    /\ metaFileName m
       = match destFileName with
         | Some n => n
         | None => baseFileName wrappedFile
         end
    /\ metaDataTxId m = trxId dataTrx
    /\ metaCipher m = Some metaCipherText
    /\ metaFileId m = uuidv4 c
    /\ metaFileDriveId m = driveId
    /\ metaFileParent m = parentFolderId
    /\ res = mkUploadResult (trxId dataTrx) (trxReward dataTrx)
               (trxId metaDataTrx) (trxReward metaDataTrx) (uuidv4 c)
               (Some key).
Proof.
  unfold uploadPrivateFile in Hrun.
  destruct (encryptFileData w _ _ driveKey) as [ct|e] eqn:Hct;
    [|discriminate].
  destruct (prepareFileData w _ dataRs) as [dt|e]; [|discriminate].
  destruct (sendFile_shape _ _ _ _ _ _ _ _ Hrun)
    as (m & k & mt & Hmeta & _ & Hin & Hincl & Hres).
  destruct (encryptFileMeta w _ _ _ (trxId dt) _ _ driveKey)
    as [[mc fk]|e] eqn:Hmc; cbn [bind fst snd] in Hmeta; [|discriminate].
  injection Hmeta as <- <-.
  exists ct, dt. eexists. exists mt, mc, fk.
  split; [reflexivity|].
  split; [apply Hincl; now left|].
  split; [exact Hin|].
  cbn [metaFileName metaDataTxId metaCipher metaFileId metaFileDriveId
       metaFileParent].
  split; [exact Hmc|].
  split; [reflexivity|].
  repeat (split; [reflexivity|]). exact Hres.
Qed.

Lemma uploadPrivateFile_links_metadata_witness :
  exists res effects,
    uploadPrivateFile demoClient demoFileWriter "P" demoFile "D" "k"
      (mkReward None None) (mkReward None None) (Some "") = Some (Ok res, effects)
    /\ exists m metaDataTrx,
         In (FileMetaPrepared m metaDataTrx) effects
         /\ metaFileName m = "" /\ metaDataTxId m = "tx-data"
         /\ fileKey res = Some "key:F-new".
Proof.
  eexists. eexists. split; [reflexivity|].
  match goal with
  | |- context [fileKey ?res] =>
      match goal with
      | |- context [In _ ?effects] =>
          destruct (uploadPrivateFile_links_metadata demoClient
                      demoFileWriter "P" "D" "k" demoFile (mkReward None None)
                      (mkReward None None) (Some "") res effects eq_refl)
            as (ct & dt & m & mt & mc & key & _ & Hd & Hm & Hk & Hname & Hid
                & _ & _ & _ & _ & Hres)
      end
  end.
  exists m, mt. split; [exact Hm|]. split; [exact Hname|].
  injection Hres as Hdt _ _ _ Hkey.
  split; [now rewrite Hid, <- Hdt|]. cbn. now rewrite Hkey.
Defined.

Lemma sendFile_dry (c : Client) (w : FileWriter) (dataTrx : Transaction)
    (before : list FileEffect)
    (metaFor : string -> result (FileMetaDataPrototype * option string))
    (rs : RewardSettings)
    (Hdry : dryRun c = true) (Hbefore : sendsNothing before = true) :
  exists r effects,
    sendFile c w dataTrx before metaFor rs = Some (r, effects)
    /\ sendsNothing effects = true.
Proof.
  unfold sendFile. rewrite Hdry. cbn [negb].
  destruct (metaFor (trxId dataTrx)) as [[m k]|e];
    [|eexists; eexists; split; [reflexivity|exact Hbefore]].
  destruct (prepareFileMeta w m rs) as [mt|e];
    eexists; eexists; (split; [reflexivity|]); [|exact Hbefore].
  unfold sendsNothing in *. rewrite forallb_app, Hbefore. reflexivity.
Qed.

(** X25. In a dry run, uploadPublicFile and uploadPrivateFile come to an
    end whatever the uploaders would answer, and send nothing: neither the
    data nor the metadata is uploaded. *)
Theorem uploadFile_dry_run_sends_nothing (c : Client) (w : FileWriter)
    (parentFolderId driveId driveKey : string)
    (wrappedFile : ArFSFileToUpload) (dataRs metaRs : RewardSettings)
    (destFileName : option string)
    (Hdry : dryRun c = true) :
  (exists r effects,
     uploadPublicFile c w parentFolderId wrappedFile driveId dataRs metaRs
       destFileName = Some (r, effects)
     /\ sendsNothing effects = true)
  /\ (exists r effects,
        uploadPrivateFile c w parentFolderId wrappedFile driveId driveKey
          dataRs metaRs destFileName = Some (r, effects)
        /\ sendsNothing effects = true).
Proof.
  split.
  - unfold uploadPublicFile.
    destruct (prepareFileData w _ dataRs) as [dt|e].
    + now apply sendFile_dry.
    + eexists. eexists. split; reflexivity.
  - unfold uploadPrivateFile.
    destruct (encryptFileData w _ _ driveKey) as [ct|e].
    + destruct (prepareFileData w _ dataRs) as [dt|e].
      * now apply sendFile_dry.
      * eexists. eexists. split; reflexivity.
    + eexists. eexists. split; reflexivity.
Qed.

(** A dry run of the demo client with a writer that has no answer to any
    chunk call. *)
Lemma uploadFile_dry_run_sends_nothing_witness :
  exists r effects,
    uploadPrivateFile
      (mkClient (post demoClient) (buildPublicDrive demoClient)
         (buildPrivateDrive demoClient) "F-new" 1600000000
         (prepareArFSObjectTransaction demoClient)
         (uploadToCompletion demoClient) true)
      (withDataChunks demoFileWriter []) "P" demoFile "D" "k"
      (mkReward None None) (mkReward None None) None = Some (r, effects)
    /\ sendsNothing effects = true.
Proof.
  exact (proj2 (uploadFile_dry_run_sends_nothing
                  (mkClient (post demoClient) (buildPublicDrive demoClient)
                     (buildPrivateDrive demoClient) "F-new" 1600000000
                     (prepareArFSObjectTransaction demoClient)
                     (uploadToCompletion demoClient) true)
                  (withDataChunks demoFileWriter []) "P" "D" "k" demoFile
                  (mkReward None None) (mkReward None None) None eq_refl)).
Defined.

End FileUploadProps.

Section OutputPathWitness.
Import OutputPath.

(** The socket /out/s is neither folder nor file: the call answers its
    parent directory and its base name. *)
Lemma getOutputFilePathAndName_outcomes_witness :
  getOutputFilePathAndName demoFs "/out/s" = Ok ("/out", Some "s")
  /\ exists pst, statSync demoFs "/out" = Ok pst /\ isDirectory pst = true.
Proof.
  split; [reflexivity|].
  pose proof (getOutputFilePathAndName_outcomes demoFs "/out/s") as H.
  change (getOutputFilePathAndName demoFs "/out/s")
    with (@Ok (string * option string) ("/out", Some "s")) in H.
  cbv zeta iota beta in H.
  destruct H as (_ & _ & [(st & Hst & _ & Hf) | (_ & Hp)]).
  - change (statSync demoFs (resolve demoFs "/out/s"))
      with (Ok (mkStats false false)) in Hst.
    injection Hst as <-. discriminate Hf.
  - exact Hp.
Defined.

End OutputPathWitness.
